(** * Query orchestration of CompanyBrain AI: a shallow embedding

    The development follows the query route of the application (the handler
    [handleQuery] and its helpers), [src/lib/security.ts] (input sanitisation
    and the response constructors) and [src/lib/elasticsearch.ts] (the client
    of the document index).  It goes on to the rate limiter, the CORS and
    API-key helpers and the middleware [withSecurity] of
    [src/lib/middleware.ts], and to the maintenance functions of the index
    with the clearing handler of the dashboard route.

    Conventions of the embedding.
    - A JavaScript string is a [string]; its characters are restricted to the
      ASCII range.  A code above 127 stands for a character without case that
      is neither a digit, a word character nor white space, so of the class
      [[\$€£]] only the dollar sign is representable.
    - The revenues that the code adds up are IEEE 754 doubles, in the
      representation of the Standard Library ([SpecFloat]), with
      round-to-nearest-even addition, the infinities and NaN.  The other
      numbers are rationals [Q]: scores and the value of an extracted fact,
      on which the code does no arithmetic, and the draws of [Math.random],
      of which [x * 2 - 1] is taken exactly.  Sizes and indices are [nat];
      the request field [maxResults] is an integer [Z].
    - The JSON that comes from outside (the request body, the hits of the
      index, the reply of the model) is read at the types that the code
      declares for it, with these additions, for the places where the code
      dereferences a value that may be missing: the field [chatHistory] of a
      request may be absent or [null]; the content of a chat message and
      the content, type and metadata of a hit may be absent; the text of a
      model reply may be any JSON value.  A request body that is no object
      and a query that is no string behave like an absent body and an absent
      query.
    - Regular expressions are kept as syntax trees that mirror the literals
      of the source and are run by a backtracking matcher with the
      leftmost, greedy, first-alternative-first discipline of ECMAScript.
    - Effects (collaborator calls, [Math.random], [Date.now], exceptions) are
      threaded through a state-and-exception monad; logging is dropped,
      except for a logged expression whose evaluation can throw. *)

From Stdlib Require Import Ascii String QArith ZArith Lia Lqa.
From Stdlib Require SpecFloat.
From stdpp Require Import base option list sorting gmap strings.

Set Warnings "-register-all".

Local Open Scope Z_scope.
Local Open Scope nat_scope.

(** ** Characters and strings *)

Module JS.

Definition code (c : ascii) : N := N_of_ascii c.

Definition between (lo hi : N) (c : ascii) : bool :=
  (N.leb lo (code c)) && (N.leb (code c) hi).

(** [\d] *)
Definition is_digit : ascii -> bool := between 48 57.
Definition is_upper : ascii -> bool := between 65 90.
Definition is_lower : ascii -> bool := between 97 122.
(** [\w] *)
Definition is_word (c : ascii) : bool :=
  is_digit c || is_upper c || is_lower c || Ascii.eqb c "_".
(** [\s], and the characters removed by [trim] *)
Definition is_space (c : ascii) : bool :=
  between 9 13 c || Ascii.eqb c " ".

Definition lower_char (c : ascii) : ascii :=
  if is_upper c then ascii_of_N (code c + 32) else c.
Definition upper_char (c : ascii) : ascii :=
  if is_lower c then ascii_of_N (code c - 32) else c.

Definition chars : string -> list ascii := list_ascii_of_string.
Definition str : list ascii -> string := string_of_list_ascii.

Definition toLowerCase (s : string) : string := str (map lower_char (chars s)).
Definition toUpperCase (s : string) : string := str (map upper_char (chars s)).

Fixpoint drop_space (l : list ascii) : list ascii :=
  match l with
  | c :: l' => if is_space c then drop_space l' else l
  | [] => []
  end.

Definition trim_chars (l : list ascii) : list ascii :=
  rev (drop_space (rev (drop_space l))).
Definition trim (s : string) : string := str (trim_chars (chars s)).

(** [s.substring(0, n)] *)
Definition substring0 (n : nat) (s : string) : string := str (take n (chars s)).

Fixpoint is_prefix (p l : list ascii) : bool :=
  match p, l with
  | [], _ => true
  | a :: p', b :: l' => Ascii.eqb a b && is_prefix p' l'
  | _ :: _, [] => false
  end.

Fixpoint includes_chars (needle hay : list ascii) : bool :=
  is_prefix needle hay ||
  match hay with
  | [] => false
  | _ :: hay' => includes_chars needle hay'
  end.
(** [hay.includes(needle)] *)
Definition includes (hay needle : string) : bool :=
  includes_chars (chars needle) (chars hay).

(** [s.split(sep)] for a one-character separator *)
Fixpoint split_chars (sep : ascii) (cur : list ascii) (l : list ascii)
  : list (list ascii) :=
  match l with
  | [] => [rev cur]
  | c :: l' =>
      if Ascii.eqb c sep then rev cur :: split_chars sep [] l'
      else split_chars sep (c :: cur) l'
  end.
Definition split (sep : ascii) (s : string) : list string :=
  map str (split_chars sep [] (chars s)).

(** [l.join(sep)] *)
Fixpoint join (sep : string) (l : list string) : string :=
  match l with
  | [] => ""
  | [x] => x
  | x :: l' => x +:+ sep +:+ join sep l'
  end.

(** [Array.from(new Set(l))]: the elements in the order of their first
    insertion. *)
Definition set_add (acc : list string) (x : string) : list string :=
  if bool_decide (x ∈ acc) then acc else acc ++ [x].
Definition array_from_set (l : list string) : list string :=
  fold_left set_add l [].

(** [l.findIndex(p)], [None] for -1 *)
Fixpoint findIndex {A} (p : A -> bool) (l : list A) : option nat :=
  match l with
  | [] => None
  | x :: l' => if p x then Some 0 else S <$> findIndex p l'
  end.

(** [l.slice(0, e)] for an integer [e]: a negative [e] counts from the end. *)
Definition slice0 {A} (e : Z) (l : list A) : list A :=
  let len := Z.of_nat (length l) in
  let stop := if (e <? 0)%Z then Z.max (len + e) 0 else Z.min e len in
  take (Z.to_nat stop) l.

(** [l.slice(-n)] for a natural [n > 0] *)
Definition slice_last {A} (n : nat) (l : list A) : list A :=
  drop (length l - n) l.

(** Decimal rendering of a natural number. *)
Definition digit_char (n : nat) : ascii := ascii_of_nat (48 + n).
Fixpoint nat_digits (fuel n : nat) (acc : list ascii) : list ascii :=
  match fuel with
  | 0 => acc
  | S fuel' =>
      let acc' := digit_char (n mod 10) :: acc in
      if n / 10 =? 0 then acc' else nat_digits fuel' (n / 10) acc'
  end.
Definition nat_to_string (n : nat) : string := str (nat_digits (S n) n []).

End JS.

(** ** Regular expressions *)

Module Regex.
Import JS.

Inductive re : Type :=
| Eps
| Chr (p : ascii -> bool)      (* one character of a class *)
| Lit (s : string)             (* a literal; letters follow the i flag *)
| Seq (r1 r2 : re)
| Alt (r1 r2 : re)
| Star (p : ascii -> bool)     (* greedy [c*] over a class *)
| Grp (n : nat) (r : re)       (* the n-th capturing group *)
| WordB.                       (* [\b] *)

Definition Plus (p : ascii -> bool) : re := Seq (Chr p) (Star p).
Definition Opt (p : ascii -> bool) : re := Alt (Chr p) Eps.
Definition one (c : ascii) : ascii -> bool := Ascii.eqb c.
Definition any_of (s : string) (c : ascii) : bool :=
  existsb (Ascii.eqb c) (chars s).

Record mstate : Type := MState {
  m_prev : option ascii;            (* the character before the position *)
  m_rest : list ascii;              (* the input from the position on *)
  m_pos : nat;
  m_caps : list (nat * list ascii)  (* captures, latest first *)
}.

Definition word_before (st : mstate) : bool :=
  match m_prev st with Some c => is_word c | None => false end.
Definition word_after (st : mstate) : bool :=
  match m_rest st with c :: _ => is_word c | [] => false end.

Definition step (st : mstate) : option (ascii * mstate) :=
  match m_rest st with
  | c :: rest =>
      Some (c, MState (Some c) rest (S (m_pos st)) (m_caps st))
  | [] => None
  end.

Definition same_char (ci : bool) (a b : ascii) : bool :=
  if ci then Ascii.eqb (lower_char a) (lower_char b) else Ascii.eqb a b.

Fixpoint lit_k (ci : bool) (l : list ascii) (k : mstate -> option mstate)
  (st : mstate) : option mstate :=
  match l with
  | [] => k st
  | a :: l' =>
      match step st with
      | Some (c, st') => if same_char ci a c then lit_k ci l' k st' else None
      | None => None
      end
  end.

Fixpoint star_k (p : ascii -> bool) (k : mstate -> option mstate)
  (prev : option ascii) (rest : list ascii) (pos : nat)
  (caps : list (nat * list ascii)) : option mstate :=
  match rest with
  | c :: rest' =>
      if p c then
        match star_k p k (Some c) rest' (S pos) caps with
        | Some r => Some r
        | None => k (MState prev rest pos caps)
        end
      else k (MState prev rest pos caps)
  | [] => k (MState prev rest pos caps)
  end.

Definition capture (n : nat) (from to : mstate) : mstate :=
  MState (m_prev to) (m_rest to) (m_pos to)
    ((n, take (m_pos to - m_pos from) (m_rest from)) :: m_caps to).

(** [rmatch ci r k st]: match [r] at [st], then continue with [k]; on failure
    of the continuation the matcher backtracks into [r]. *)
Fixpoint rmatch (ci : bool) (r : re) (k : mstate -> option mstate)
  (st : mstate) : option mstate :=
  match r with
  | Eps => k st
  | Chr p =>
      match step st with
      | Some (c, st') => if p c then k st' else None
      | None => None
      end
  | Lit s => lit_k ci (chars s) k st
  | Seq r1 r2 => rmatch ci r1 (rmatch ci r2 k) st
  | Alt r1 r2 =>
      match rmatch ci r1 k st with
      | Some x => Some x
      | None => rmatch ci r2 k st
      end
  | Star p => star_k p k (m_prev st) (m_rest st) (m_pos st) (m_caps st)
  | Grp n r' => rmatch ci r' (fun st' => k (capture n st st')) st
  | WordB => if xorb (word_before st) (word_after st) then k st else None
  end.

(** One match: where it starts, the matched text and the captures. *)
Record found : Type := Found {
  f_index : nat;
  f_text : list ascii;
  f_caps : list (nat * list ascii)
}.

Definition group (n : nat) (f : found) : option (list ascii) :=
  snd <$> List.find (fun p => Nat.eqb (fst p) n) (f_caps f).

Definition match_at (ci : bool) (r : re) (prev : option ascii)
  (rest : list ascii) (pos : nat) : option found :=
  match rmatch ci r Some (MState prev rest pos []) with
  | Some st => Some (Found pos (take (m_pos st - pos) rest) (m_caps st))
  | None => None
  end.

(** The leftmost match at or after the position. *)
Fixpoint search (ci : bool) (r : re) (prev : option ascii)
  (rest : list ascii) (pos : nat) : option found :=
  match match_at ci r prev rest pos with
  | Some f => Some f
  | None =>
      match rest with
      | [] => None
      | c :: rest' => search ci r (Some c) rest' (S pos)
      end
  end.

(** All matches under the g flag: after a match the scan resumes at its end
    (one character further after an empty match).  [skip] counts the
    characters of the current match still to be passed. *)
Fixpoint scan (ci : bool) (r : re) (prev : option ascii)
  (rest : list ascii) (pos skip : nat) : list found :=
  match skip with
  | S n =>
      match rest with
      | c :: rest' => scan ci r (Some c) rest' (S pos) n
      | [] => []
      end
  | 0 =>
      match match_at ci r prev rest pos with
      | Some f =>
          f :: match rest with
               | c :: rest' =>
                   scan ci r (Some c) rest' (S pos) (length (f_text f) - 1)
               | [] => []
               end
      | None =>
          match rest with
          | c :: rest' => scan ci r (Some c) rest' (S pos) 0
          | [] => []
          end
      end
  end.

(** The text left when every match is replaced by the empty string. *)
Fixpoint erase (ci : bool) (r : re) (prev : option ascii)
  (rest : list ascii) (pos skip : nat) : list ascii :=
  match skip with
  | S n =>
      match rest with
      | c :: rest' => erase ci r (Some c) rest' (S pos) n
      | [] => []
      end
  | 0 =>
      match match_at ci r prev rest pos with
      | Some f =>
          match length (f_text f), rest with
          | 0, c :: rest' => c :: erase ci r (Some c) rest' (S pos) 0
          | S n, c :: rest' => erase ci r (Some c) rest' (S pos) n
          | _, [] => []
          end
      | None =>
          match rest with
          | c :: rest' => c :: erase ci r (Some c) rest' (S pos) 0
          | [] => []
          end
      end
  end.

(** The pieces between the matches, for [s.split(r)] with a pattern that
    matches no empty string. *)
Fixpoint pieces (ci : bool) (r : re) (prev : option ascii)
  (rest : list ascii) (pos skip : nat) (cur : list ascii)
  : list (list ascii) :=
  match skip with
  | S n =>
      match rest with
      | c :: rest' => pieces ci r (Some c) rest' (S pos) n cur
      | [] => [rev cur]
      end
  | 0 =>
      match rest with
      | [] => [rev cur]
      | c :: rest' =>
          match match_at ci r prev rest pos with
          | Some f =>
              match length (f_text f) with
              | 0 => pieces ci r (Some c) rest' (S pos) 0 (c :: cur)
              | S n => rev cur :: pieces ci r (Some c) rest' (S pos) n []
              end
          | None => pieces ci r (Some c) rest' (S pos) 0 (c :: cur)
          end
      end
  end.

(** [r.test(s)] for a pattern without the g flag *)
Definition test (ci : bool) (r : re) (s : string) : bool :=
  bool_decide (is_Some (search ci r None (chars s) 0)).
(** [s.match(r)] without the g flag *)
Definition match_first (ci : bool) (r : re) (s : string) : option found :=
  search ci r None (chars s) 0.
(** the matches of [r] with the g flag, as [exec] yields them in turn *)
Definition exec_all (ci : bool) (r : re) (s : string) : list found :=
  scan ci r None (chars s) 0 0.
(** [s.match(r) || []] with the g flag *)
Definition match_all (ci : bool) (r : re) (s : string) : list string :=
  map (fun f => str (f_text f)) (exec_all ci r s).
(** [s.replace(r, '')] with the g flag *)
Definition remove_all (ci : bool) (r : re) (s : string) : string :=
  str (erase ci r None (chars s) 0 0).
(** [s.split(r)] *)
Definition split_re (ci : bool) (r : re) (s : string) : list string :=
  map str (pieces ci r None (chars s) 0 0 []).

End Regex.

(** ** Numbers *)

Module Num.
Import JS.

Fixpoint span_digits (l : list ascii) : list ascii * list ascii :=
  match l with
  | c :: l' =>
      if is_digit c then
        let '(ds, rest) := span_digits l' in (c :: ds, rest)
      else ([], l)
  | [] => ([], [])
  end.

Definition digit_value (c : ascii) : Z := Z.of_N (code c) - 48.
Definition digits_value (ds : list ascii) : Z :=
  fold_left (fun acc c => acc * 10 + digit_value c)%Z ds 0%Z.

(** [parseFloat(s)]: white space is skipped, then the longest prefix
    [sign? digits (. digits?)?] or [sign? . digits] is read; [None] is NaN.
    Exponents and [Infinity] are left out: every caller first deletes all
    characters except digits, the dot and the minus sign. *)
Definition parseFloat (s : string) : option Q :=
  let l := drop_space (chars s) in
  let '(neg, l1) :=
    match l with
    | "-"%char :: l' => (true, l')
    | "+"%char :: l' => (false, l')
    | _ => (false, l)
    end in
  let '(ip, l2) := span_digits l1 in
  let fp :=
    match l2 with
    | "."%char :: l3 => fst (span_digits l3)
    | _ => []
    end in
  if (length ip =? 0) && (length fp =? 0) then None
  else
    let m := digits_value (ip ++ fp) in
    let d := Z.to_pos (10 ^ Z.of_nat (length fp)) in
    Some (Qred (Qmake (if neg then - m else m) d)).

(** ** Doubles *)

Definition number : Type := SpecFloat.spec_float.

Definition number_zero : number := SpecFloat.S754_zero false.

(** [x + y] *)
Definition number_add (x y : number) : number := SpecFloat.SFadd 53 1024 x y.

(** The number value of a decimal: the double nearest to it, ties to even,
    an infinity beyond the largest double.  A zero is read as +0: the
    revenues are only added to a sum that starts from +0, where -0 and +0
    give the same results. *)
Definition number_of_Q (q : Q) : number :=
  match Qnum q with
  | Z0 => number_zero
  | Zpos n =>
      SpecFloat.SFdiv 53 1024 (SpecFloat.S754_finite false n 0)
        (SpecFloat.S754_finite false (Qden q) 0)
  | Zneg n =>
      SpecFloat.SFdiv 53 1024 (SpecFloat.S754_finite true n 0)
        (SpecFloat.S754_finite false (Qden q) 0)
  end.

Definition whole (z : Z) : number := number_of_Q (inject_Z z).

(** [x || 0]: zero and NaN are falsy. *)
Definition or_zero (x : number) : number :=
  match x with
  | SpecFloat.S754_zero _ | SpecFloat.S754_nan => number_zero
  | _ => x
  end.

(** Neither an infinity nor NaN. *)
Definition is_finite (x : number) : bool :=
  match x with
  | SpecFloat.S754_zero _ | SpecFloat.S754_finite _ _ _ => true
  | _ => false
  end.


(** The value of a double that is an integer. *)
Definition integer_of (x : number) : option Z :=
  match x with
  | SpecFloat.S754_zero _ => Some 0%Z
  | SpecFloat.S754_finite s m e =>
      let signed (z : Z) := if s then (- z)%Z else z in
      if (0 <=? e)%Z then Some (signed (Zpos m * 2 ^ e)%Z)
      else if (Zpos m mod 2 ^ (- e) =? 0)%Z
           then Some (signed (Zpos m / 2 ^ (- e))%Z)
           else None
  | _ => None
  end.

(** Decimal rendering of an integer. *)
Fixpoint Z_digits (fuel : nat) (n : Z) (acc : list ascii) : list ascii :=
  match fuel with
  | 0 => acc
  | S fuel' =>
      let acc' := ascii_of_N (48 + Z.to_N (n mod 10)) :: acc in
      if (n / 10 =? 0)%Z then acc' else Z_digits fuel' (n / 10) acc'
  end.
Definition Z_to_string (z : Z) : string :=
  let digits (n : Z) := str (Z_digits (S (Z.to_nat (Z.log2 n))) n []) in
  if (z <? 0)%Z then String "-" (digits (- z)%Z) else digits z.

End Num.

(** ** Effects: collaborators, ambient state, exceptions *)

Module Eff.

Inductive Result (A : Type) : Type :=
| Ok (a : A)
| Throw (msg : string).
Arguments Ok {A} a.
Arguments Throw {A} msg.

Section Monad.
(** [S] is the ambient state. *)
Context {S : Type}.

Definition M (A : Type) : Type := S -> Result A * S.

Definition ret {A} (a : A) : M A := fun st => (Ok a, st).
Definition throw {A} (msg : string) : M A := fun st => (Throw msg, st).
Definition bind {A B} (m : M A) (k : A -> M B) : M B :=
  fun st =>
    match m st with
    | (Ok a, st') => k a st'
    | (Throw e, st') => (Throw e, st')
    end.
(** [try { m } catch (e) { h e }]; what [m] did to the state stays done. *)
Definition try_catch {A} (m : M A) (h : string -> M A) : M A :=
  fun st =>
    match m st with
    | (Ok a, st') => (Ok a, st')
    | (Throw e, st') => h e st'
    end.
Definition get : M S := fun st => (Ok st, st).
Definition put (st : S) : M unit := fun _ => (Ok tt, st).
(** An expression that returns or throws and does nothing else. *)
Definition of_result {A} (r : Result A) : M A := fun st => (r, st).
End Monad.
Arguments M : clear implicits.

(** [l.map(f)] for a callback [(x, index) => ...] that may throw: the first
    exception ends the traversal. *)
Fixpoint map_result {A B} (f : nat -> A -> Result B) (index : nat)
  (l : list A) : Result (list B) :=
  match l with
  | [] => Ok []
  | x :: l' =>
      match f index x with
      | Throw e => Throw e
      | Ok y =>
          match map_result f (S index) l' with
          | Throw e => Throw e
          | Ok ys => Ok (y :: ys)
          end
      end
  end.

Module Notations.
  Notation "x <- m ;; k" := (bind m (fun x => k))
    (at level 100, m at next level, right associativity).
  Notation "m ;;; k" := (bind m (fun _ => k))
    (at level 100, right associativity).
End Notations.

End Eff.

(** ** The document index client ([src/lib/elasticsearch.ts]) *)

Module Elasticsearch.
Import JS Num Eff Eff.Notations.

Inductive DocType : Type := pdf | txt | csv | json | md | docx | xlsx.

Definition DocType_to_string (t : DocType) : string :=
  match t with
  | pdf => "pdf" | txt => "txt" | csv => "csv" | json => "json"
  | md => "md" | docx => "docx" | xlsx => "xlsx"
  end.

Record Metadata : Type := {
  fileName : string;
  fileSize : nat;
  mimeType : string;
  uploadDate : string;
  tags : option (list string);
  category : option string;
  author : option string;
  department : option string;
  project : option string;
  version : option string;
  language : option string;
  summary : option string
}.

(** [ElasticsearchCompanyDocument], as it comes back from the index; the
    field [_highlights] is not read by the query path and is left out.  A
    stored document need not have the fields of the interface: [content],
    [type] and [metadata], which the code dereferences, are [None] when the
    source of the hit has no such field (or [null] there). *)
Record ElasticsearchCompanyDocument : Type := {
  doc_id : string;
  doc_title : string;
  doc_content : option string;
  doc_text : string;
  doc_type : option DocType;
  doc_metadata : option Metadata;
  doc_embedding : list Q;
  doc_createdAt : string;
  doc_updatedAt : string;
  doc__id : option string;
  doc__score : option Q
}.

(** One entry of [response.hits.hits]. *)
Record Hit : Type := {
  hit__source : ElasticsearchCompanyDocument;
  hit__id : option string;
  hit__score : option Q
}.

Record EsHits : Type := { hits_hits : option (list Hit) }.
Record EsResponse : Type := { es_hits : option EsHits }.

(** The filter clauses that [buildSearchFilters] produces. *)
Inductive FilterClause : Type :=
| Terms (field : string) (values : list string)
| RangeCreatedAt (gte lte : option string).

(** The fragment of the query DSL that the two searches build. *)
Inductive Query : Type :=
| Knn (field : string) (query_vector : list Q) (k : Z) (num_candidates : Z)
| MultiMatch (query : string) (fields : list string) (type : string)
    (fuzziness : string)
| QueryString (query : string) (fields : list string)
    (default_operator : string) (lenient : bool) (analyze_wildcard : bool)
| DisMax (tie_breaker : Q) (queries : list Query)
| BoolShould (should : list Query) (minimum_should_match : nat)
    (filter : option (list FilterClause))
| BoolMust (must : Query) (filter : list FilterClause).

Record SearchBody : Type := {
  sb_size : Z;
  sb_query : Query;
  sb__source : bool;
  sb_highlight : list (string * nat)   (* field, fragment_size *)
}.

(** What [fetch] can do: reject, or resolve to a response with a status, a
    text and — unless the text is no JSON — a parsed body. *)
Record Response (J : Type) : Type := {
  status : nat;
  body_text : string;
  body_json : option J
}.
Arguments status {J} _.
Arguments body_text {J} _.
Arguments body_json {J} _.

Inductive FetchReply (J : Type) : Type :=
| FetchRejects (msg : string)
| FetchResolves (r : Response J).
Arguments FetchRejects {J} msg.
Arguments FetchResolves {J} r.

Definition ok {J} (r : Response J) : bool :=
  (200 <=? status r) && (status r <=? 299).

(** A value that JavaScript counts as true where the code expects a text:
    a string, or a value of another kind — a number other than 0, [true],
    an array or an object — kept as its JSON text. *)
Inductive Answer : Type :=
| Text (s : string)
| NoText (value : string).

(** The reply of the language-model service, as far as the code reads it:
    [result.candidates?.[0]?.content?.parts?.[0]?.text].  The field [text]
    is [None] when it is absent, [null], [false] or 0. *)
Record GeminiPart : Type := { part_text : option Answer }.
Record GeminiContent : Type := { parts : option (list GeminiPart) }.
Record GeminiCandidate : Type := { content : option GeminiContent }.
Record GeminiResult : Type := { candidates : option (list GeminiCandidate) }.

(** The collaborators and the configuration of one deployment. *)
Record World : Type := {
  env_GEMINI_API_KEY : option string;
  env_GEMINI_API_URL : option string;
  env_ELASTICSEARCH_INDEX_NAME : option string;
  (** the model endpoint, by URL and the text part of the request *)
  gemini_fetch : string -> string -> FetchReply GeminiResult;
  (** the index, by endpoint and search body *)
  elastic_fetch : string -> SearchBody -> FetchReply EsResponse;
  (** [Number.prototype.toString], used by [JSON.stringify], for the
      numbers that are no integers up to 2^53 *)
  number_to_string : number -> string
}.

Inductive Call : Type :=
| CallGemini (url text : string)
| CallElastic (endpoint : string) (body : SearchBody).

(** The ambient state of a run: the log of collaborator calls, the values
    [Math.random] is still to return and the readings of [Date.now]. *)
Record St : Type := {
  calls : list Call;
  random_stream : nat -> Q;
  clock_stream : nat -> Z
}.

Definition log_call (c : Call) : M St unit :=
  fun st => (Ok tt, {| calls := calls st ++ [c];
                       random_stream := random_stream st;
                       clock_stream := clock_stream st |}).
Definition Math_random : M St Q :=
  fun st => (Ok (random_stream st 0),
             {| calls := calls st;
                random_stream := fun n => random_stream st (S n);
                clock_stream := clock_stream st |}).
Definition Date_now : M St Z :=
  fun st => (Ok (clock_stream st 0),
             {| calls := calls st;
                random_stream := random_stream st;
                clock_stream := fun n => clock_stream st (S n) |}).

(** A string is falsy when it is absent or empty. *)
Definition truthy (o : option string) : option string :=
  match o with
  | Some s => if String.eqb s "" then None else Some s
  | None => None
  end.
Definition truthy_answer (o : option Answer) : option Answer :=
  match o with
  | Some (Text s) => if String.eqb s "" then None else Some (Text s)
  | Some (NoText value) => Some (NoText value)
  | None => None
  end.

Section Client.
Context (w : World).

Definition INDEX_NAME : string :=
  default "company-memory" (truthy (env_ELASTICSEARCH_INDEX_NAME w)).

Definition elasticsearchRequest (endpoint : string) (body : SearchBody)
  : M St EsResponse :=
  log_call (CallElastic endpoint body) ;;;
  match elastic_fetch w endpoint body with
  | FetchRejects e => throw e
  | FetchResolves response =>
      if negb (ok response) then
        throw ("Elasticsearch request failed: "
               +:+ nat_to_string (status response) +:+ " - "
               +:+ body_text response)
      else
        match body_json response with
        | None => throw "Unexpected token in JSON"
        | Some j => ret j
        end
  end.

Definition search_fields : list string :=
  ["title^3"; "content^2"; "text"; "metadata.summary^2";
   "metadata.fileName^4"].

Definition highlight_fields : list (string * nat) :=
  [("title", 100); ("content", 200); ("metadata.summary", 150)].

Definition hybrid_body (query : string) (embedding : list Q)
  (filters : option (list FilterClause)) (size : Z) : SearchBody :=
  {| sb_size := size;
     sb_query :=
       BoolShould
         [ Knn "embedding" embedding (size * 2) 100;
           MultiMatch query search_fields "best_fields" "AUTO" ]
         1 filters;
     sb__source := true;
     sb_highlight := highlight_fields |}.

Definition text_body (query : string)
  (filters : option (list FilterClause)) (size : Z) : SearchBody :=
  let q :=
    DisMax (2 # 10)
      [ MultiMatch query search_fields "best_fields" "AUTO";
        QueryString query search_fields "AND" true true ] in
  {| sb_size := size;
     sb_query := match filters with
                 | Some fs => BoolMust q fs
                 | None => q
                 end;
     sb__source := true;
     sb_highlight := highlight_fields |}.

(** [{ ...hit._source, _id: hit._id, _score: hit._score }] *)
Definition of_hit (h : Hit) : ElasticsearchCompanyDocument :=
  let d := hit__source h in
  {| doc_id := doc_id d; doc_title := doc_title d;
     doc_content := doc_content d; doc_text := doc_text d;
     doc_type := doc_type d; doc_metadata := doc_metadata d;
     doc_embedding := doc_embedding d; doc_createdAt := doc_createdAt d;
     doc_updatedAt := doc_updatedAt d;
     doc__id := hit__id h; doc__score := hit__score h |}.

(** [response.hits?.hits?.map(...) || []] *)
Definition hits_of (response : EsResponse)
  : list ElasticsearchCompanyDocument :=
  match es_hits response with
  | Some hs =>
      match hits_hits hs with
      | Some l => map of_hit l
      | None => []
      end
  | None => []
  end.

Definition hybridSearchDocuments (query : string) (embedding : list Q)
  (filters : option (list FilterClause)) (size : Z)
  : M St (list ElasticsearchCompanyDocument) :=
  try_catch
    (response <- elasticsearchRequest ("/" +:+ INDEX_NAME +:+ "/_search")
                   (hybrid_body query embedding filters size) ;;
     ret (hits_of response))
    (fun error => throw error).

Definition textSearchDocuments (query : string)
  (filters : option (list FilterClause)) (size : Z)
  : M St (list ElasticsearchCompanyDocument) :=
  try_catch
    (response <- elasticsearchRequest ("/" +:+ INDEX_NAME +:+ "/_search")
                   (text_body query filters size) ;;
     ret (hits_of response))
    (fun error => throw error).
End Client.

(** A field of a multi-match query is written [name^boost]; a field without
    a caret has boost 1.  (The reading of the index service, needed to
    compare the boosts.) *)
Definition field_name (f : string) : string :=
  match split "^" f with
  | n :: _ => n
  | [] => f
  end.
Definition field_boost (f : string) : nat :=
  match split "^" f with
  | _ :: b :: _ => Z.to_nat (Num.digits_value (chars b))
  | _ => 1
  end.
Definition boost_of (name : string) (fields : list string) : option nat :=
  field_boost <$> List.find (fun f => String.eqb (field_name f) name) fields.

End Elasticsearch.

(** ** Sanitisation and responses ([src/lib/security.ts]) *)

Module Security.
Import JS Regex.

(** [/[<>]/g], [/javascript:/gi], [/on\w+=/gi] *)
Definition angle_re : re := Chr (any_of "<>").
Definition javascript_re : re := Lit "javascript:".
Definition handler_re : re := Seq (Lit "on") (Seq (Plus is_word) (Lit "=")).

Definition sanitizeInput (input : string) : string :=
  trim (remove_all true handler_re
          (remove_all true javascript_re
             (remove_all false angle_re input))).

(** A JSON response: the status and the body.  The time stamp and the
    security headers, the same on every response, are left out. *)
Record NextResponse (T : Type) : Type := {
  resp_status : nat;
  resp_success : bool;
  resp_data : option T;
  resp_error : option string
}.
Arguments resp_status {T} _.
Arguments resp_success {T} _.
Arguments resp_data {T} _.
Arguments resp_error {T} _.

Definition createErrorResponse {T} (message : string) (status : nat)
  : NextResponse T :=
  {| resp_status := status; resp_success := false;
     resp_data := None; resp_error := Some message |}.

Definition createSuccessResponse {T} (data : T) : NextResponse T :=
  {| resp_status := 200; resp_success := true;
     resp_data := Some data; resp_error := None |}.

End Security.

(** ** The query planner *)

Module Route.
Import JS Regex Num Eff Eff.Notations Elasticsearch Security.

(** [/\b(19|20)\d{2}\b/g] *)
Definition year_token_re : re :=
  Seq WordB (Seq (Grp 1 (Alt (Lit "19") (Lit "20")))
    (Seq (Chr is_digit) (Seq (Chr is_digit) WordB))).

(** [/revenue|sales/i] and the five other keyword tests of the planner *)
Definition revenue_sales_re : re := Alt (Lit "revenue") (Lit "sales").
Definition net_income_profit_re : re :=
  Alt (Seq (Lit "net") (Seq (Star is_space) (Lit "income"))) (Lit "profit").
Definition ebitda_re : re := Lit "ebitda".
Definition assets_re : re := Lit "assets".
Definition liabilities_re : re := Lit "liabilities".
Definition equity_re : re := Lit "equity".

Record QueryPlan : Type := {
  metrics : list string;
  years : list string;
  entities : list string;
  searchQueries : list string
}.

Definition push_if (b : bool) (x : string) (l : list string) : list string :=
  if b then l ++ [x] else l.

Definition planInformationNeeds (userQuery : string) : QueryPlan :=
  let q := toLowerCase userQuery in
  let metrics0 : list string := [] in
  let years := array_from_set (match_all false year_token_re q) in
  let metrics1 := push_if (test true revenue_sales_re userQuery) "revenue" metrics0 in
  let metrics2 := push_if (test true net_income_profit_re userQuery) "net income" metrics1 in
  let metrics3 := push_if (test true ebitda_re userQuery) "ebitda" metrics2 in
  let metrics4 := push_if (test true assets_re userQuery) "assets" metrics3 in
  let metrics5 := push_if (test true liabilities_re userQuery) "liabilities" metrics4 in
  let metrics6 := push_if (test true equity_re userQuery) "equity" metrics5 in
  let metrics7 := push_if (length metrics6 =? 0) "revenue" metrics6 in
  let base := trim userQuery in
  let derived :=
    if 0 <? length years then
      flat_map (fun m =>
        (m +:+ " " +:+ join " " years) :: map (fun y => m +:+ " " +:+ y) years)
        metrics7
    else metrics7 in
  {| metrics := array_from_set metrics7;
     years := years;
     entities := [];
     searchQueries := array_from_set (base :: derived) |}.

(** ** Embedding and language-model calls *)

(** [Array.from({ length: n }, () => Math.random() * 2 - 1)] *)
Fixpoint random_vector (n : nat) : M St (list Q) :=
  match n with
  | 0 => ret []
  | S n' =>
      x <- Math_random ;;
      rest <- random_vector n' ;;
      ret ((x * 2 - 1)%Q :: rest)
  end.

Definition nl : string := String "010" "".
Definition quote : string := String "034" "".

Definition unable_apology : string :=
  "I apologize, but I was unable to generate a response at this time.".
Definition processing_apology : string :=
  "I apologize, but I'm having trouble processing your question right now. Please try again later.".
Definition searching_apology : string :=
  "I apologize, but I'm having trouble searching your company knowledge base right now. Please try again later.".

(** [result.candidates?.[0]?.content?.parts?.[0]?.text] *)
Definition candidate_text (result : GeminiResult) : option Answer :=
  match candidates result with
  | Some (candidate :: _) =>
      match content candidate with
      | Some c =>
          match parts c with
          | Some (part :: _) => part_text part
          | _ => None
          end
      | None => None
      end
  | _ => None
  end.

Section Collaborators.
Context (w : World).

(** The two environment variables, or the exception for a missing one. *)
Definition gemini_config : M St (string * string) :=
  match truthy (env_GEMINI_API_KEY w), truthy (env_GEMINI_API_URL w) with
  | Some key, Some url => ret (key, url)
  | _, _ => throw "Gemini API configuration missing"
  end.

(** [await fetch(`${GEMINI_API_URL}?key=${GEMINI_API_KEY}`, ...)] *)
Definition gemini_post (cfg : string * string) (text : string)
  : M St (Response GeminiResult) :=
  let url := cfg.2 +:+ "?key=" +:+ cfg.1 in
  log_call (CallGemini url text) ;;;
  match gemini_fetch w url text with
  | FetchRejects e => throw e
  | FetchResolves response => ret response
  end.

Definition generateEmbedding (text : string) : M St (list Q) :=
  try_catch
    (cfg <- gemini_config ;;
     response <- gemini_post cfg
       ("Generate embedding for: " +:+ substring0 1000 text) ;;
     if negb (ok response) then
       throw ("Gemini API request failed: "
              +:+ nat_to_string (status response))
     else random_vector 768)
    (fun _ => ret (repeat 0%Q 768)).

Definition callGeminiAPI (prompt : string) : M St Answer :=
  try_catch
    (cfg <- gemini_config ;;
     response <- gemini_post cfg prompt ;;
     if negb (ok response) then
       throw ("Gemini API request failed: "
              +:+ nat_to_string (status response) +:+ " - "
              +:+ body_text response)
     else
       match body_json response with
       | None => throw "Unexpected token in JSON"
       | Some result =>
           ret (default (Text unable_apology)
                  (truthy_answer (candidate_text result)))
       end)
    (fun error => throw error).

(** ** Multi-search *)

Definition search_query (q : string)
  (filters : option (list FilterClause)) (useVectorSearch : bool)
  (topKPerQuery : Z) : M St (list ElasticsearchCompanyDocument) :=
  if useVectorSearch then
    embedding <- generateEmbedding q ;;
    results <- hybridSearchDocuments w q embedding filters topKPerQuery ;;
    if length results =? 0 then
      textSearchDocuments w q filters topKPerQuery
    else ret results
  else textSearchDocuments w q filters topKPerQuery.

(** [r.id || r._id || `${r.title}:${r.createdAt}`] *)
Definition dedupe_key (r : ElasticsearchCompanyDocument) : string :=
  match truthy (Some (doc_id r)) with
  | Some key => key
  | None =>
      match truthy (doc__id r) with
      | Some key => key
      | None => doc_title r +:+ ":" +:+ doc_createdAt r
      end
  end.

(** The state of the merge: [seenIds] and [merged]. *)
Definition Merge : Type :=
  gset string * list ElasticsearchCompanyDocument.

Definition merge_hit (acc : Merge) (r : ElasticsearchCompanyDocument)
  : Merge :=
  let key := dedupe_key r in
  if bool_decide (key ∈ acc.1) then acc
  else ({[ key ]} ∪ acc.1, acc.2 ++ [r]).

(** The loop over the queries; a query whose search throws is left
    ([continue]). *)
Fixpoint search_loop (qs : list string)
  (filters : option (list FilterClause)) (useVectorSearch : bool)
  (topKPerQuery : Z) (acc : Merge) : M St Merge :=
  match qs with
  | [] => ret acc
  | q :: qs' =>
      attempt <- try_catch
        (results <- search_query q filters useVectorSearch topKPerQuery ;;
         ret (Some results))
        (fun _ => ret None) ;;
      match attempt with
      | None =>
          search_loop qs' filters useVectorSearch topKPerQuery acc
      | Some results =>
          search_loop qs' filters useVectorSearch topKPerQuery
            (fold_left merge_hit results acc)
      end
  end.

Definition multiSearch (userQuery : string) (searchQueries : list string)
  (filters : option (list FilterClause)) (useVectorSearch : bool)
  (maxResults : Z) : M St (list ElasticsearchCompanyDocument) :=
  let topKPerQuery := Z.max 3 (maxResults / 2) in
  acc <- search_loop (take 6 searchQueries) filters useVectorSearch
           topKPerQuery (∅, []) ;;
  ret (slice0 maxResults acc.2).
End Collaborators.

(** ** Sources *)

Record DocumentSource : Type := {
  src_id : string;
  src_title : string;
  src_type : option DocType;
  relevanceScore : Q;
  excerpt : string;
  src_metadata : option Metadata
}.

(** [s.substring(0, n) + (s.length > n ? '...' : '')] *)
Definition clip (n : nat) (s : string) : string :=
  substring0 n s +:+ (if n <? String.length s then "..." else "").

Definition not_an_object : string :=
  "Cannot read properties of undefined".

(** The callback of [convertToDocumentSources]; [doc.content.substring]
    throws for a document without content. *)
Definition source_of_document (index : nat)
  (doc : ElasticsearchCompanyDocument) : Result DocumentSource :=
  match doc_content doc with
  | None => Throw not_an_object
  | Some content =>
      Ok {| src_id := doc_id doc;
            src_title := doc_title doc;
            src_type := doc_type doc;
            relevanceScore := default 0%Q (doc__score doc);
            excerpt := clip 200 content;
            src_metadata := doc_metadata doc |}
  end.

Definition convertToDocumentSources
  (results : list ElasticsearchCompanyDocument)
  : Result (list DocumentSource) :=
  map_result source_of_document 0 results.

(** ** Fact extraction *)

Record MetricFact : Type := {
  fact_metric : string;
  fact_year : string;
  fact_value : Q;
  fact_source : string
}.

(** [/\r?\n/] *)
Definition line_break_re : re := Seq (Opt (one "013")) (Chr (one "010")).
(** [/revenue|net\s*income|assets|liabilities|equity|ebitda/i] *)
Definition metric_re : re :=
  Alt (Lit "revenue")
    (Alt (Seq (Lit "net") (Seq (Star is_space) (Lit "income")))
       (Alt (Lit "assets")
          (Alt (Lit "liabilities") (Alt (Lit "equity") (Lit "ebitda"))))).
(** [/month|date|period/i] *)
Definition period_re : re := Alt (Lit "month") (Alt (Lit "date") (Lit "period")).
(** [/(19|20)\d{2}/] *)
Definition year_re : re :=
  Seq (Grp 1 (Alt (Lit "19") (Lit "20"))) (Seq (Chr is_digit) (Chr is_digit)).
(** [/[^0-9.\-]/g] *)
Definition not_numeric_re : re :=
  Chr (fun c => negb (is_digit c || any_of ".-" c)).
Definition non_digit (c : ascii) : bool := negb (is_digit c).
(** [/(revenue|net\s*income|assets|liabilities|equity|ebitda)[^\d]*(19|20)\d{2}[^\d]*([\$€£]?[\s]*[\d,.]+)/ig] *)
Definition free_text_re : re :=
  Seq (Grp 1 metric_re)
    (Seq (Star non_digit)
       (Seq (Grp 2 (Alt (Lit "19") (Lit "20")))
          (Seq (Chr is_digit)
             (Seq (Chr is_digit)
                (Seq (Star non_digit)
                   (Grp 3
                      (Seq (Opt (one "$"))
                         (Seq (Star is_space)
                            (Plus (fun c => is_digit c || any_of ",." c)))))))))).

(** [parseFloat(raw?.replace(/[^0-9.\-]/g, '') || '')] *)
Definition parse_amount (raw : option string) : option Q :=
  parseFloat (default "" (remove_all false not_numeric_re <$> raw)).

(** [metricIdxMap[k] = v] on a record with string keys, kept in the order
    of first insertion (the order of [Object.keys] for keys that are not
    array indices; such keys never pass the metric filter). *)
Fixpoint record_set (m : list (string * nat)) (k : string) (v : nat)
  : list (string * nat) :=
  match m with
  | [] => [(k, v)]
  | (k', v') :: m' =>
      if String.eqb k' k then (k, v) :: m' else (k', v') :: record_set m' k v
  end.
Definition record_get (m : list (string * nat)) (k : string) : option nat :=
  snd <$> List.find (fun p => String.eqb (fst p) k) m.

Fixpoint index_headers (hs : list string) (i : nat)
  (m : list (string * nat)) : list (string * nat) :=
  match hs with
  | [] => m
  | h :: hs' => index_headers hs' (S i) (record_set m (toLowerCase h) i)
  end.

(** A header row of the general extractor. *)
Definition is_header_line (l : string) : bool :=
  includes l "," && test true metric_re l.

Definition tabular_row_facts (src : string) (monthIdx : option nat)
  (metricIdxMap : list (string * nat)) (wanted : list string)
  (row : string) : list MetricFact :=
  if negb (includes row ",") then []
  else
    let cols := split "," row in
    let cell :=
      match monthIdx with
      | Some i => default "undefined" (cols !! i)
      | None => ""
      end in
    match match_first false year_re cell with
    | None => []
    | Some yearMatch =>
        let year := str (f_text yearMatch) in
        flat_map (fun mk =>
          let cell :=
            match record_get metricIdxMap mk with
            | Some idx => cols !! idx
            | None => None
            end in
          let raw := trim <$> cell in
          match parse_amount raw with
          | Some val =>
              [ {| fact_metric := mk; fact_year := year;
                   fact_value := val; fact_source := src |} ]
          | None => []
          end) wanted
    end.

Definition tabular_facts (src : string) (lines : list string)
  (headerIdx : nat) : list MetricFact :=
  let headers := map trim (split "," (default "" (lines !! headerIdx))) in
  let metricIdxMap := index_headers headers 0 [] in
  let monthIdx := findIndex (test true period_re) headers in
  let metricKeys := map fst metricIdxMap in
  let wanted := List.filter (test true metric_re) metricKeys in
  flat_map (tabular_row_facts src monthIdx metricIdxMap wanted)
    (drop (S headerIdx) lines).

Definition free_text_facts (src : string) (text : string)
  : list MetricFact :=
  flat_map (fun m =>
    let metric := toLowerCase (str (default [] (group 1 m))) in
    let year := str (default [] (group 2 m)) in
    match parse_amount (Some (str (default [] (group 3 m)))) with
    | Some num =>
        [ {| fact_metric := metric; fact_year := year;
             fact_value := num; fact_source := src |} ]
    | None => []
    end) (exec_all true free_text_re text).

Definition document_facts (doc : ElasticsearchCompanyDocument)
  : list MetricFact :=
  let src :=
    default "document"
      (match truthy (Some (doc_title doc)) with
       | Some title => Some title
       | None => truthy (fileName <$> doc_metadata doc)
       end) in
  let text := default "" (doc_content doc) in
  let lines := split_re false line_break_re text in
  match findIndex is_header_line lines with
  | Some headerIdx => tabular_facts src lines headerIdx
  | None => free_text_facts src text
  end.

Definition extractMetricYearFacts
  (docs : list ElasticsearchCompanyDocument) : list MetricFact :=
  flat_map document_facts docs.

(** ** The compact revenue extractor *)

(** [/revenue/i], [/month/i], [/(20\d{2}|19\d{2})/] *)
Definition revenue_re : re := Lit "revenue".
Definition month_re : re := Lit "month".
Definition revenue_year_re : re :=
  Grp 1 (Alt (Seq (Lit "20") (Seq (Chr is_digit) (Chr is_digit)))
             (Seq (Lit "19") (Seq (Chr is_digit) (Chr is_digit)))).

(** One row of the loop: the year and the revenue it adds, if it adds.
    [parseFloat] gives NaN ([None] of [parse_amount]) or the double nearest
    to the decimal read. *)
Definition revenue_of_row (monthIdx : option nat) (revenueIdx : nat)
  (row : string) : option (string * number) :=
  if negb (includes row ",") then None
  else
    let cols := split "," row in
    let revenueRaw := trim <$> (cols !! revenueIdx) in
    match number_of_Q <$> parse_amount revenueRaw with
    | None => None
    | Some revenue =>
        let year :=
          match monthIdx with
          | Some i =>
              let monthVal := default "" (cols !! i) in
              match match_first false revenue_year_re monthVal with
              | Some m => str (default [] (group 1 m))
              | None => "unknown"
              end
          | None => "unknown"
          end in
        if String.eqb year "unknown" then None else Some (year, revenue)
    end.

(** [(x || 0) + v], for [x] a number or [undefined] *)
Definition add_on (x : number) (v : number) : number :=
  number_add (or_zero x) v.

(** [acc[y] = (acc[y] || 0) + v] *)
Definition add_to (acc : gmap string number) (yv : string * number)
  : gmap string number :=
  <[ yv.1 := add_on (default number_zero (acc !! yv.1)) yv.2 ]> acc.

Definition revenue_row (monthIdx : option nat) (revenueIdx : nat)
  (revenueByYear : gmap string number) (row : string) : gmap string number :=
  match revenue_of_row monthIdx revenueIdx row with
  | Some yv => add_to revenueByYear yv
  | None => revenueByYear
  end.

Definition non_empty (s : string) : bool := negb (String.eqb s "").

Definition extractRevenueByYearFromCsvContent (content : string)
  : gmap string number :=
  let lines := List.filter non_empty (split_re false line_break_re content) in
  match findIndex (fun l => includes l "," && test true revenue_re l) lines with
  | None => ∅
  | Some headerIdx =>
      let headers := map trim (split "," (default "" (lines !! headerIdx))) in
      let monthIdx := findIndex (test true month_re) headers in
      match findIndex (test true revenue_re) headers with
      | None => ∅
      | Some revenueIdx =>
          fold_left (revenue_row monthIdx revenueIdx)
            (drop (S headerIdx) lines) ∅
      end
  end.

(** ** Filters *)

Record DateRange : Type := {
  range_start : option string;
  range_end : option string
}.

Record Filters : Type := {
  documentTypes : option (list string);
  categories : option (list string);
  departments : option (list string);
  filter_tags : option (list string);
  dateRange : option DateRange
}.

(** [filters?.field && filters.field.length > 0] *)
Definition terms_clause (field : string) (values : option (list string))
  : list FilterClause :=
  match values with
  | Some (v :: vs) => [Terms field (v :: vs)]
  | _ => []
  end.

Definition buildSearchFilters (filters : option Filters)
  : list FilterClause :=
  match filters with
  | None => []
  | Some f =>
      terms_clause "type" (documentTypes f)
      ++ terms_clause "metadata.category.keyword" (categories f)
      ++ terms_clause "metadata.department.keyword" (departments f)
      ++ terms_clause "metadata.tags" (filter_tags f)
      ++ match dateRange f with
         | Some r => [RangeCreatedAt (range_start r) (range_end r)]
         | None => []
         end
  end.

(** ** Answer synthesis *)

(** A message of the chat history, as the request brings it; [content] is
    [None] when the message has no such field (or [null] there). *)
Record ChatMessage : Type := {
  msg_id : string;
  msg_content : option string;
  isUser : bool;
  msg_timestamp : string
}.

(** [Object.entries(m)] of a record whose keys are years: array-index keys
    come in ascending order. *)
Definition entries {A} (m : gmap string A) : list (string * A) :=
  merge_sort (fun a b => String.le a.1 b.1) (map_to_list m).

(** The revenue table of a document: its content, if
    [doc.type === 'csv' && /revenue/i.test(doc.content)].  (An absent
    content is tested as the text [undefined], in which the expression finds
    nothing.) *)
Definition revenue_csv (doc : ElasticsearchCompanyDocument)
  : option string :=
  match doc_type doc, doc_content doc with
  | Some csv, Some content =>
      if test true revenue_re content then Some content else None
  | _, _ => None
  end.

(** The body of the loop that fills [financials]. *)
Definition add_financials (financials : gmap string number)
  (doc : ElasticsearchCompanyDocument) : gmap string number :=
  match revenue_csv doc with
  | Some content =>
      let found := extractRevenueByYearFromCsvContent content in
      fold_left add_to (entries found) financials
  | None => financials
  end.

Definition financials_of (searchResults : list ElasticsearchCompanyDocument)
  : gmap string number :=
  fold_left add_financials searchResults ∅.

Definition or_na (o : option string) : string := default "N/A" (truthy o).

(** The entry of a document in the prompt; [doc.type.toUpperCase()],
    [doc.metadata.category] and [doc.content.substring] throw for a document
    without the field. *)
Definition render_document (index : nat) (doc : ElasticsearchCompanyDocument)
  : Result string :=
  match doc_type doc, doc_metadata doc, doc_content doc with
  | Some type, Some metadata, Some content =>
      Ok (nl +:+ nat_to_string (index + 1) +:+ ". **" +:+ doc_title doc
          +:+ "** (" +:+ toUpperCase (DocType_to_string type) +:+ ")" +:+ nl
          +:+ "   Category: " +:+ or_na (category metadata) +:+ nl
          +:+ "   Department: " +:+ or_na (department metadata) +:+ nl
          +:+ "   Content: " +:+ clip 300 content +:+ nl)
  | _, _, _ => Throw not_an_object
  end.

Definition searchContext_of
  (searchResults : list ElasticsearchCompanyDocument) : Result string :=
  if 0 <? length searchResults then
    match map_result render_document 0 (take 5 searchResults) with
    | Throw e => Throw e
    | Ok rendered =>
        Ok (nl +:+ "Company Knowledge Base ("
            +:+ nat_to_string (length searchResults)
            +:+ " relevant documents found):" +:+ nl +:+ nl
            +:+ join nl rendered +:+ nl)
    end
  else Ok "".

(** The line of a message; [msg.content.substring] throws for a message
    without content. *)
Definition render_message (index : nat) (msg : ChatMessage) : Result string :=
  match msg_content msg with
  | None => Throw not_an_object
  | Some content =>
      Ok ((if isUser msg then "User" else "Assistant") +:+ ": "
          +:+ clip 200 content)
  end.

Definition conversationContext_of (chatHistory : list ChatMessage)
  : Result string :=
  if 0 <? length chatHistory then
    match map_result render_message 0 (slice_last 6 chatHistory) with
    | Throw e => Throw e
    | Ok rendered =>
        Ok (nl +:+ "Recent Conversation History:" +:+ nl
            +:+ join nl rendered +:+ nl)
    end
  else Ok "".

Definition instructions : string :=
  "Instructions:" +:+ nl
  +:+ "1. Base your answer ONLY on the provided company documents; do not fabricate." +:+ nl
  +:+ "2. If documents contain relevant information, use it to answer concisely with brief citations (e.g., Doc 1, Doc 2)." +:+ nl
  +:+ "3. If no relevant documents are found, say so briefly and suggest next steps." +:+ nl
  +:+ "4. Do NOT use tools, calculators, or external resources." +:+ nl
  +:+ "5. Perform any calculations mentally and show ONLY final results (no steps)." +:+ nl
  +:+ "6. Do NOT reveal chain-of-thought or reasoning; provide the answer and concise citations only." +:+ nl
  +:+ "7. Be helpful, professional, and conversational." +:+ nl
  +:+ "8. Use conversation history only for context, not as a source of facts." +:+ nl
  +:+ nl
  +:+ "Format your response as a short answer followed by optional citations like (Doc 1, Doc 3).".

Definition prompt_of (sanitizedQuery : string)
  (searchResults : list ElasticsearchCompanyDocument)
  (chatHistory : list ChatMessage) : Result string :=
  match searchContext_of searchResults with
  | Throw e => Throw e
  | Ok searchContext =>
      match conversationContext_of chatHistory with
      | Throw e => Throw e
      | Ok conversationContext =>
          Ok ("You are CompanyBrain AI, an intelligent assistant that helps users find information from their company's knowledge base."
              +:+ nl +:+ nl +:+ searchContext
              +:+ nl +:+ nl +:+ conversationContext
              +:+ nl +:+ nl +:+ "User Question: " +:+ sanitizedQuery
              +:+ nl +:+ nl +:+ instructions)
      end
  end.

Section Handler.
Context (w : World).

(** [JSON.stringify(x)] of a number: [null] for NaN and the infinities,
    the digits of an integer up to 2^53 (0 for both zeros), and
    [Number.prototype.toString] otherwise. *)
Definition stringify_number (x : number) : string :=
  if negb (is_finite x) then "null"
  else
    match integer_of x with
    | Some z =>
        if (Z.abs z <=? 2 ^ 53)%Z then Z_to_string z
        else number_to_string w x
    | None => number_to_string w x
    end.

(** [JSON.stringify(financials)] *)
Definition stringify_financials (financials : gmap string number) : string :=
  "{" +:+ join ","
    (map (fun yv => quote +:+ yv.1 +:+ quote +:+ ":"
                    +:+ stringify_number yv.2) (entries financials))
  +:+ "}".

Definition financialsBlock_of (financials : gmap string number) : string :=
  if 0 <? length (entries financials) then
    nl +:+ "Structured Financial Data (from documents)" +:+ nl
    +:+ "RevenueByYear: " +:+ stringify_financials financials +:+ nl +:+ nl
  else "".

(** The prompt is put together before the [try], so an exception of its
    construction leaves the function. *)
Definition generateAIResponse (query : string)
  (searchResults : list ElasticsearchCompanyDocument)
  (chatHistory : list ChatMessage) : M St Answer :=
  let sanitizedQuery := sanitizeInput query in
  prompt <- of_result (prompt_of sanitizedQuery searchResults chatHistory) ;;
  try_catch
    (let financials := financials_of searchResults in
     let financialsBlock := financialsBlock_of financials in
     let finalPrompt := financialsBlock +:+ prompt in
     response <- callGeminiAPI w finalPrompt ;;
     ret response)
    (fun _ => ret (Text processing_apology)).

(** ** The handler *)

Definition any_in (q : string) (words : list string) : bool :=
  existsb (includes q) words.

Definition expandUserQuery (query : string) : string :=
  let q := toLowerCase query in
  let fields := ["title"; "content"; "metadata.summary"] in
  let docTypes :=
    (if any_in q ["policy"; "guideline"; "procedure"]
     then ["pdf"; "docx"; "md"] else [])
    ++ (if any_in q ["report"; "metrics"; "trend"]
        then ["xlsx"; "csv"; "pdf"] else [])
    ++ (if any_in q ["api"; "schema"; "json"] then ["json"; "md"] else [])
    ++ (if any_in q ["meeting"; "notes"]
        then ["txt"; "md"; "docx"] else []) in
  let metaHints :=
    (if includes q "department" then ["metadata.department"] else [])
    ++ (if any_in q ["author"; "owner"] then ["metadata.author"] else [])
    ++ (if any_in q ["tag"; "topic"] then ["metadata.tags"] else [])
    ++ (if includes q "category" then ["metadata.category"] else []) in
  let uniqueDocTypes := array_from_set docTypes in
  let uniqueFields := array_from_set (fields ++ metaHints) in
  "Focus on document types: "
  +:+ (if 0 <? length uniqueDocTypes then join ", " uniqueDocTypes
       else "pdf, docx, md, xlsx, csv, json, txt")
  +:+ ". Search fields: " +:+ join ", " uniqueFields +:+ ".".

(** The field [chatHistory] of a request that has one: [null] or an
    array. *)
Inductive History : Type :=
| Null
| Messages (messages : list ChatMessage).

(** The request body after [request.json()]; an absent field is [None]. *)
Record QueryRequest : Type := {
  query : option string;
  filters : option Filters;
  chatHistory : option History;
  useVectorSearch : option bool;
  maxResults : option Z
}.

Record QueryData : Type := {
  answer : Answer;
  sources : list DocumentSource;
  totalHits : nat;
  queryTime : Z;
  expandedQuery : string
}.

(** The inner [try] of the handler: the search results and the answer as
    they stand when it is left, normally or through its [catch]. *)
Definition search_and_answer (sanitizedQuery : string)
  (filters : option Filters) (chatHistory : list ChatMessage)
  (useVectorSearch : bool) (maxResults : Z)
  : M St (list ElasticsearchCompanyDocument * Answer) :=
  try_catch
    (let searchFilters := buildSearchFilters filters in
     let plan := planInformationNeeds sanitizedQuery in
     let queries := sanitizedQuery :: searchQueries plan in
     searchResults <- multiSearch w sanitizedQuery queries
       (if 0 <? length searchFilters then Some searchFilters else None)
       useVectorSearch maxResults ;;
     try_catch
       (answer <- generateAIResponse sanitizedQuery searchResults
                    chatHistory ;;
        ret (searchResults, answer))
       (fun _ => ret (searchResults, Text searching_apology)))
    (fun _ => ret ([], Text searching_apology)).

(** [body] is [None] when the request carries no JSON.  The default of
    [chatHistory] stands in for an absent field only: for [null] the
    expression [chatHistory.length] of the log line before the search
    throws.  The sources are converted after the inner [try]. *)
Definition handleQuery (body : option QueryRequest)
  : M St (NextResponse QueryData) :=
  try_catch
    (match body with
     | None => throw "Unexpected end of JSON input"
     | Some body =>
         match query body with
         | None => throw not_an_object
         | Some query =>
             let chatHistory := default (Messages []) (chatHistory body) in
             let useVectorSearch := default true (useVectorSearch body) in
             let maxResults := default 10%Z (maxResults body) in
             let sanitizedQuery := sanitizeInput query in
             if (String.eqb sanitizedQuery "")
                || (String.length (trim sanitizedQuery) =? 0) then
               ret (createErrorResponse "Query is required" 400)
             else
               match chatHistory with
               | Null => throw "Cannot read properties of null"
               | Messages chatHistory =>
                   startTime <- Date_now ;;
                   sa <- search_and_answer sanitizedQuery (filters body)
                           chatHistory useVectorSearch maxResults ;;
                   endTime <- Date_now ;;
                   let queryTime := (endTime - startTime)%Z in
                   sources <- of_result (convertToDocumentSources sa.1) ;;
                   let expandedQuery := expandUserQuery sanitizedQuery in
                   ret (createSuccessResponse
                          {| answer := sa.2;
                             sources := sources;
                             totalHits := length sa.1;
                             queryTime := queryTime;
                             expandedQuery := expandedQuery |})
               end
         end
     end)
    (fun _ =>
       ret (createErrorResponse
              "Internal server error during query processing" 500)).
End Handler.

(** A run starts with an empty call log. *)
Definition initial (random : nat -> Q) (clock : nat -> Z) : St :=
  {| calls := []; random_stream := random; clock_stream := clock |}.

End Route.

(** ** Notions used to state the properties *)

Module Props.
Import JS Regex Num Eff Eff.Notations Elasticsearch Security Route.

(** The hit lists of the fan-out: the result list of every query whose
    search returned, in the order of execution, and the state it leaves. *)
Fixpoint fan_out (w : World) (qs : list string)
  (filters : option (list FilterClause)) (useVectorSearch : bool)
  (topKPerQuery : Z) (st : St)
  : list (list ElasticsearchCompanyDocument) * St :=
  match qs with
  | [] => ([], st)
  | q :: qs' =>
      match search_query w q filters useVectorSearch topKPerQuery st with
      | (Ok results, st') =>
          let '(rest, st'') :=
            fan_out w qs' filters useVectorSearch topKPerQuery st' in
          (results :: rest, st'')
      | (Throw _, st') =>
          fan_out w qs' filters useVectorSearch topKPerQuery st'
      end
  end.

(** The flat hit list that [multiSearch] merges. *)
Definition flat_hits (w : World) (searchQueries : list string)
  (filters : option (list FilterClause)) (useVectorSearch : bool)
  (maxResults : Z) (st : St) : list ElasticsearchCompanyDocument :=
  concat (fan_out w (take 6 searchQueries) filters useVectorSearch
            (Z.max 3 (maxResults / 2)) st).1.

Definition keys (l : list ElasticsearchCompanyDocument) : list string :=
  dedupe_key <$> l.

(** The list [merged] once the loop has gone through the hits. *)
Definition merged_of (flat : list ElasticsearchCompanyDocument)
  : list ElasticsearchCompanyDocument :=
  (fold_left merge_hit flat (∅, [])).2.

(** The loop invariant of the merge: [seenIds] holds the identities of
    [merged], each of them once. *)
Definition merge_inv (acc : Merge) : Prop :=
  (forall k, k ∈ acc.1 <-> k ∈ keys acc.2) /\ NoDup (keys acc.2).

(** The number of distinct identities among the first [j] hits. *)
Definition rank (flat : list ElasticsearchCompanyDocument) (j : nat) : nat :=
  length (remove_dups (keys (take j flat))).

(** The search endpoint of a deployment. *)
Definition search_endpoint (w : World) : string :=
  "/" +:+ INDEX_NAME w +:+ "/_search".

(** The URL of the model endpoint, when both variables are set. *)
Definition gemini_url (w : World) : option string :=
  match truthy (env_GEMINI_API_KEY w), truthy (env_GEMINI_API_URL w) with
  | Some key, Some url => Some (url +:+ "?key=" +:+ key)
  | _, _ => None
  end.



(** The prompt that [generateAIResponse] sends, if it can be put
    together: the financial block and the prompt proper. *)
Definition final_prompt (w : World) (query : string)
  (searchResults : list ElasticsearchCompanyDocument)
  (chatHistory : list ChatMessage) : Result string :=
  match prompt_of (sanitizeInput query) searchResults chatHistory with
  | Throw e => Throw e
  | Ok prompt =>
      Ok (financialsBlock_of w (financials_of searchResults) +:+ prompt)
  end.

(** The answer and the state with which the inner [try] of the handler is
    left after the synthesis step: an exception of that step is caught
    there. *)
Definition settled (r : Result Answer * St) : Answer * St :=
  match r with
  | (Ok answer, st) => (answer, st)
  | (Throw _, st) => (Text searching_apology, st)
  end.

(** The chat history that the handler works with: the empty one for an
    absent field, none for [null]. *)
Definition history_of (body : QueryRequest) : option (list ChatMessage) :=
  match default (Messages []) (chatHistory body) with
  | Null => None
  | Messages messages => Some messages
  end.

(** The sources of hits that have a content each. *)
Definition sources_of (results : list ElasticsearchCompanyDocument)
  : list DocumentSource :=
  match convertToDocumentSources results with
  | Ok sources => sources
  | Throw _ => []
  end.

(** The answer of the outer [catch] of the handler. *)
Definition internal_error : NextResponse QueryData :=
  createErrorResponse "Internal server error during query processing" 500.

(** The arguments with which the handler calls [multiSearch]. *)
Definition handler_filters (filters : option Filters)
  : option (list FilterClause) :=
  let searchFilters := buildSearchFilters filters in
  if 0 <? length searchFilters then Some searchFilters else None.
Definition handler_queries (sanitizedQuery : string) : list string :=
  sanitizedQuery :: searchQueries (planInformationNeeds sanitizedQuery).

(** The rows of a tabular content that the compact extractor adds up, in
    order: the year and the revenue of each. *)
Definition revenue_rows (content : string) : list (string * number) :=
  let lines := List.filter non_empty (split_re false line_break_re content) in
  match findIndex (fun l => includes l "," && test true revenue_re l) lines with
  | None => []
  | Some headerIdx =>
      let headers := map trim (split "," (default "" (lines !! headerIdx))) in
      let monthIdx := findIndex (test true month_re) headers in
      match findIndex (test true revenue_re) headers with
      | None => []
      | Some revenueIdx =>
          omap (revenue_of_row monthIdx revenueIdx) (drop (S headerIdx) lines)
      end
  end.

(** The values recorded for a year. *)
Definition values_for {A} (y : string) (l : list (string * A)) : list A :=
  (filter (fun yv => yv.1 = y) l).*2.


(** What the loop [acc = (acc || 0) + v] leaves for the values of a key, in
    order; nothing for no value. *)
Definition total (vs : list number) : option number :=
  match vs with
  | [] => None
  | _ => Some (fold_left add_on vs number_zero)
  end.


(** [y] is a four-digit token of [q] in the range 1900–2099: four digits
    that stand in [q] between characters that are no word characters (or at
    its ends) and read as a number of that range. *)
Definition year_token (q y : string) : Prop :=
  exists pre post,
    chars q = pre ++ chars y ++ post
    /\ length (chars y) = 4
    /\ Forall (fun c => is_digit c = true) (chars y)
    /\ (1900 <= digits_value (chars y) <= 2099)%Z
    /\ match last pre with
       | Some c => is_word c = false
       | None => True
       end
    /\ match post with
       | c :: _ => is_word c = false
       | [] => True
       end.

(** None of the six keyword groups of the planner occurs in the query. *)
Definition no_metric_keyword (q : string) : Prop :=
  test true revenue_sales_re q = false
  /\ test true net_income_profit_re q = false
  /\ test true ebitda_re q = false
  /\ test true assets_re q = false
  /\ test true liabilities_re q = false
  /\ test true equity_re q = false.

(** The character before a position: the last of the text passed, or the
    one before the scan began. *)
Definition last_or (prev : option ascii) (pre : list ascii) : option ascii :=
  match last pre with
  | Some c => Some c
  | None => prev
  end.

(** The lines of a content, as the general extractor splits it. *)
Definition lines_of (content : string) : list string :=
  split_re false line_break_re content.

(** The text of a document for the general extractor:
    [doc.content || '']. *)
Definition text_of (doc : ElasticsearchCompanyDocument) : string :=
  default "" (doc_content doc).

(** The content has a tabular header: a line with a comma and one of the
    six metric keywords. *)
Definition has_header_line (doc : ElasticsearchCompanyDocument) : Prop :=
  exists l,
    l ∈ lines_of (text_of doc)
    /\ includes l "," = true /\ test true metric_re l = true.

(** The source label of the facts of a document:
    [doc.title || doc.metadata?.fileName || 'document']. *)
Definition source_of (doc : ElasticsearchCompanyDocument) : string :=
  default "document"
    (match truthy (Some (doc_title doc)) with
     | Some title => Some title
     | None => truthy (fileName <$> doc_metadata doc)
     end).


(** Every hit that the index returns has a content. *)
Definition hits_have_content (w : World) : Prop :=
  forall endpoint body response j,
    elastic_fetch w endpoint body = FetchResolves response ->
    body_json response = Some j ->
    Forall (fun doc => is_Some (doc_content doc)) (hits_of j).

(** The result of a computation does not depend on the ambient state it is
    run in (the random values, the clock, the calls made so far). *)
Definition stateless {A} (m : M St A) : Prop :=
  forall st st', (m st).1 = (m st').1.

(** Two states hold the same draws of [Math.random]. *)
Definition same_draws (st st' : St) : Prop :=
  forall n, random_stream st n = random_stream st' n.

(** The result of a computation depends on the ambient state through the
    draws of [Math.random] at most, and the computation keeps the draws of
    two states the same. *)
Definition by_draws {A} (m : M St A) : Prop :=
  forall st st',
    same_draws st st' ->
    (m st).1 = (m st').1 /\ same_draws (m st).2 (m st').2.

(** Every embedding request fails: the model endpoint is not configured, or
    it rejects or refuses each such request. *)
Definition embedding_unavailable (w : World) : Prop :=
  match gemini_url w with
  | None => True
  | Some url =>
      forall text,
        match gemini_fetch w url
                ("Generate embedding for: " +:+ substring0 1000 text) with
        | FetchRejects _ => True
        | FetchResolves response => ok response = false
        end
  end.

(** What a caller sees of a run of the handler, the elapsed time apart. *)
Definition observable (r : Result (NextResponse QueryData))
  : option (nat * bool * option string
            * option (Answer * list DocumentSource * nat * string)) :=
  match r with
  | Ok response =>
      Some (resp_status response, resp_success response, resp_error response,
            (fun d => (answer d, sources d, totalHits d, expandedQuery d))
              <$> resp_data response)
  | Throw _ => None
  end.

(** No leading white space. *)
Definition clean (l : list ascii) : Prop :=
  match l with
  | c :: _ => is_space c = false
  | [] => True
  end.

(** The boost order that the request is said to have:
    title > content > summary > file name. *)
Definition title_first (fields : list string) : Prop :=
  match boost_of "title" fields, boost_of "content" fields,
        boost_of "metadata.summary" fields,
        boost_of "metadata.fileName" fields with
  | Some t, Some c, Some s, Some f => f < s /\ s < c /\ c < t
  | _, _, _, _ => False
  end.

End Props.

(** ** Concrete documents, collaborators and requests *)

Module Examples.
Import JS Regex Num Eff Eff.Notations Elasticsearch Security Route Props.

Definition plain_metadata (name : string) : Metadata :=
  {| fileName := name; fileSize := 0; mimeType := "text/plain";
     uploadDate := "2025-01-01"; tags := None; category := None;
     author := None; department := None; project := None;
     version := None; language := None; summary := None |}.

Definition mk_doc (id : string) (t : DocType) (body : string)
  : ElasticsearchCompanyDocument :=
  {| doc_id := id; doc_title := id; doc_content := Some body;
     doc_text := body; doc_type := Some t;
     doc_metadata := Some (plain_metadata id); doc_embedding := [];
     doc_createdAt := "2025-01-01"; doc_updatedAt := "2025-01-01";
     doc__id := None; doc__score := None |}.

Definition mk_hit (d : ElasticsearchCompanyDocument) : Hit :=
  {| hit__source := d; hit__id := Some (doc_id d); hit__score := Some 1%Q |}.

Definition found_hits (l : list ElasticsearchCompanyDocument)
  : FetchReply EsResponse :=
  FetchResolves
    {| status := 200; body_text := "";
       body_json :=
         Some {| es_hits := Some {| hits_hits := Some (map mk_hit l) |} |} |}.

(** What a document looks like once it has come back as a hit. *)
Definition as_hit (d : ElasticsearchCompanyDocument)
  : ElasticsearchCompanyDocument := of_hit (mk_hit d).

(** The query text and the kind of a search body. *)
Definition query_text (b : SearchBody) : string :=
  match sb_query b with
  | BoolShould (_ :: MultiMatch q _ _ _ :: _) _ _ => q
  | DisMax _ (MultiMatch q _ _ _ :: _) => q
  | BoolMust (DisMax _ (MultiMatch q _ _ _ :: _)) _ => q
  | _ => ""
  end.
Definition is_hybrid (b : SearchBody) : bool :=
  match sb_query b with
  | BoolShould _ _ _ => true
  | _ => false
  end.
Definition first_component (b : SearchBody) : Q :=
  match sb_query b with
  | BoolShould (Knn _ (x :: _) _ _ :: _) _ _ => x
  | _ => 0%Q
  end.

Definition model_replies (text : Answer) : FetchReply GeminiResult :=
  FetchResolves
    {| status := 200; body_text := "";
       body_json :=
         Some {| candidates :=
           Some [ {| content :=
             Some {| parts := Some [ {| part_text := Some text |} ] |} |} ] |} |}.
Definition model_says (t : string) : FetchReply GeminiResult :=
  model_replies (Text t).

Definition server_error {J} : FetchReply J :=
  FetchResolves {| status := 500; body_text := "unavailable";
                   body_json := None |}.

(** The examples hold whole amounts only, which [JSON.stringify] renders
    without [Number.prototype.toString]. *)
Definition show_number (x : number) : string := "".

Definition doc_a := mk_doc "a" txt "alpha".
Definition doc_b := mk_doc "b" txt "beta".
Definition doc1 := mk_doc "doc1" txt "gamma".

(** An index that answers the query [q1] with three hits, the last of them
    [doc1], and the query [q2] with [doc1] alone; the model echoes. *)
Definition two_lists : World :=
  {| env_GEMINI_API_KEY := Some "key";
     env_GEMINI_API_URL := Some "https://model";
     env_ELASTICSEARCH_INDEX_NAME := None;
     gemini_fetch := fun _ t => model_says t;
     elastic_fetch := fun _ b =>
       if String.eqb (query_text b) "q1" then found_hits [doc_a; doc_b; doc1]
       else if String.eqb (query_text b) "q2" then found_hits [doc1]
       else found_hits [];
     number_to_string := show_number |}.

Definition bad_request {J} : FetchReply J :=
  FetchResolves {| status := 400; body_text := "unknown field [embedding]";
                   body_json := None |}.
Definition bad_request_message : string :=
  "Elasticsearch request failed: 400 - unknown field [embedding]".

(** An index that refuses every hybrid search with status 400 while its
    lexical search finds [doc1]; no model is configured. *)
Definition hybrid_down : World :=
  {| env_GEMINI_API_KEY := None;
     env_GEMINI_API_URL := None;
     env_ELASTICSEARCH_INDEX_NAME := None;
     gemini_fetch := fun _ _ => FetchRejects "fetch failed";
     elastic_fetch := fun _ b =>
       if is_hybrid b then bad_request else found_hits [doc1];
     number_to_string := show_number |}.

(** An index whose hybrid search finds nothing while its lexical search
    finds [doc1]. *)
Definition hybrid_empty : World :=
  {| env_GEMINI_API_KEY := None;
     env_GEMINI_API_URL := None;
     env_ELASTICSEARCH_INDEX_NAME := None;
     gemini_fetch := fun _ _ => FetchRejects "fetch failed";
     elastic_fetch := fun _ b =>
       if is_hybrid b then found_hits [] else found_hits [doc1];
     number_to_string := show_number |}.

Definition no_random : nat -> Q := fun _ => 0%Q.
(** Two generators: one draws 3/4 each time, the other 1/4. *)
Definition high_draws : nat -> Q := fun _ => (3 # 4)%Q.
Definition low_draws : nat -> Q := fun _ => (1 # 4)%Q.
Definition wall_clock : nat -> Z := fun n => Z.of_nat (1000 + n).
Definition late_clock : nat -> Z := fun n => Z.of_nat (5000 + 7 * n).
Definition start : St := initial no_random wall_clock.

Definition zero_vector : list Q := repeat 0%Q 768.

(** The tabular content of the example: a header and two months of 2021. *)
Definition two_months : string :=
  "Month,Revenue" +:+ nl +:+ "Jan-2021,1000" +:+ nl +:+ "Feb-2021,2000".

(** An index whose hybrid search goes by the embedding: [doc_a] for a
    vector with a first component of at least 0, [doc_b] otherwise.  The
    model answers every prompt with the same sentence. *)
Definition by_embedding : World :=
  {| env_GEMINI_API_KEY := Some "key";
     env_GEMINI_API_URL := Some "https://model";
     env_ELASTICSEARCH_INDEX_NAME := None;
     gemini_fetch := fun _ _ => model_says "See the sources.";
     elastic_fetch := fun _ b =>
       if is_hybrid b then
         if Qle_bool 0 (first_component b) then found_hits [doc_a]
         else found_hits [doc_b]
       else found_hits [];
     number_to_string := show_number |}.


(** A document with a header row, a data row and a sentence. *)
Definition mixed_content : string :=
  "Month,Revenue" +:+ nl +:+ "Jan-2021,1000" +:+ nl
  +:+ "Revenue in 2021 was 5.".
Definition mixed_doc := mk_doc "mixed" txt mixed_content.
Definition prose_doc := mk_doc "prose" txt "Revenue in 2021 was 5.".

(** A request that carries only a query. *)
Definition ask (q : string) : QueryRequest :=
  {| query := Some q; filters := None; chatHistory := None;
     useVectorSearch := None; maxResults := None |}.

(** A query of 1001 characters. *)
Definition long_query : string := str (repeat "a"%char 1001).

(** A deployment whose model endpoint answers every request with 500. *)
Definition model_down : World :=
  {| env_GEMINI_API_KEY := Some "key";
     env_GEMINI_API_URL := Some "https://model";
     env_ELASTICSEARCH_INDEX_NAME := None;
     gemini_fetch := fun _ _ => server_error;
     elastic_fetch := fun _ b =>
       if String.eqb (query_text b) "alpha" then found_hits [doc_a]
       else found_hits [];
     number_to_string := show_number |}.





End Examples.

(** ** Further notions: the matcher, the extractors, the handler *)

Module Facts.
Import JS Regex Num Eff Eff.Notations Elasticsearch Security Route Props.

(** The numbers of the capturing groups of an expression. *)
Fixpoint groups (r : re) : list nat :=
  match r with
  | Seq r1 r2 | Alt r1 r2 => groups r1 ++ groups r2
  | Grp n r' => n :: groups r'
  | _ => []
  end.

(** A year as the extractors read it: [19] or [20] and two digits. *)
Definition is_year (y : string) : Prop :=
  exists c d,
    is_digit c = true /\ is_digit d = true
    /\ (y = str ["1"; "9"; c; d]%char \/ y = str ["2"; "0"; c; d]%char).

(** The cell holds the year: a year in full that occurs in it. *)
Definition holds_year (cell y : string) : Prop :=
  is_year y /\ exists pre post, chars cell = pre ++ chars y ++ post.

(** The lines that the compact extractor reads, and the cells of the header
    line of a table. *)
Definition content_lines (content : string) : list string :=
  List.filter non_empty (split_re false line_break_re content).
Definition header_cells (lines : list string) (headerIdx : nat)
  : list string :=
  map trim (split "," (default "" (lines !! headerIdx))).

(** The parts of the free-text expression: the century group and what
    follows it. *)
Definition century_re : re := Alt (Lit "19") (Lit "20").
Definition amount_tail_re : re :=
  Seq (Chr is_digit)
    (Seq (Chr is_digit)
       (Seq (Star non_digit)
          (Grp 3
             (Seq (Opt (one "$"))
                (Seq (Star is_space)
                   (Plus (fun c => is_digit c || any_of ",." c))))))).

(** Every request to the index fails: it is rejected, answered with a
    status outside 2xx, or answered with a body that is no JSON. *)
Definition index_down (w : World) : Prop :=
  forall endpoint body,
    match elastic_fetch w endpoint body with
    | FetchRejects _ => True
    | FetchResolves response =>
        ok response = false \/ body_json response = None
    end.

(** The six canonical metric names of the planner. *)
Definition metric_names : list string :=
  ["revenue"; "net income"; "ebitda"; "assets"; "liabilities"; "equity"].

(** The lexical request of a query. *)
Definition text_call (w : World) (filters : option (list FilterClause))
  (size : Z) (q : string) : Call :=
  CallElastic (search_endpoint w) (text_body q filters size).

(** A component of an embedding: at least -1 and below 1. *)
Definition in_unit_range (x : Q) : Prop := (-1 <= x)%Q /\ (x < 1)%Q.

End Facts.

(** ** Further concrete collaborators *)

Module Cases.
Import JS Regex Num Eff Eff.Notations Elasticsearch Security Route Props.
Import Examples Facts.

(** A deployment whose index cannot be reached; the model answers. *)
Definition index_unreachable : World :=
  {| env_GEMINI_API_KEY := Some "key";
     env_GEMINI_API_URL := Some "https://model";
     env_ELASTICSEARCH_INDEX_NAME := None;
     gemini_fetch := fun _ _ => model_says "Nothing was found.";
     elastic_fetch := fun _ _ => FetchRejects "fetch failed";
     number_to_string := show_number |}.

(** A generator whose draws lie in the unit interval. *)
Definition half_draws : nat -> Q := fun _ => (1 # 2)%Q.

End Cases.

(** ** Index maintenance ([src/lib/elasticsearch.ts]) and the clearing
    handler ([src/app/api/dashboard/route.ts]) *)

Module Maintenance.
Import JS Eff Eff.Notations Elasticsearch Security.

Inductive Verb : Type := HttpGet | HttpPut | HttpPost | HttpDelete.

(** The request bodies of the maintenance functions.  The mapping and the
    query are constants of the source. *)
Inductive Payload : Type :=
| NoPayload
| EmptyObject
| IndexMapping
| MatchAllQuery.

Record Request : Type := {
  verb : Verb;
  endpoint : string;
  payload : Payload
}.

(** What the code reads of a reply of the index. *)
Record Json : Type := {
  json__source : option ElasticsearchCompanyDocument;
  json_deleted : option Q;
  json_took : option Q
}.

(** An index: its configured name and its reply to a request, which may
    depend on the requests received before. *)
Record Cluster : Type := {
  cluster_ELASTICSEARCH_INDEX_NAME : option string;
  cluster_fetch : list Request -> Request -> FetchReply Json
}.

(** The result of [getDocumentById]: a document, [undefined] for a reply
    without [_source], or [null]. *)
Inductive Lookup : Type :=
| Document (d : ElasticsearchCompanyDocument)
| Undefined
| Null.

Record Cleared : Type := {
  cleared_message : string;
  cleared_deleted : Q;
  cleared_took : Q
}.

Section Requests.
Context (c : Cluster).

Definition INDEX_NAME : string :=
  default "company-memory" (truthy (cluster_ELASTICSEARCH_INDEX_NAME c)).

(** The state is the log of the requests sent.  The clock readings that
    only feed log lines are left out. *)
Definition elasticsearchRequest (endpoint : string) (method : Verb)
  (body : Payload) : M (list Request) Json :=
  sent <- get ;;
  let request := {| verb := method; endpoint := endpoint; payload := body |} in
  put (sent ++ [request]) ;;;
  match cluster_fetch c sent request with
  | FetchRejects e => throw e
  | FetchResolves response =>
      if negb (ok response) then
        throw ("Elasticsearch request failed: "
               +:+ nat_to_string (status response) +:+ " - "
               +:+ body_text response)
      else
        match body_json response with
        | None => throw "Unexpected token in JSON"
        | Some j => ret j
        end
  end.

Definition initializeElasticsearchIndex : M (list Request) unit :=
  try_catch
    (indexExists <-
       try_catch
         (elasticsearchRequest ("/" +:+ INDEX_NAME) HttpGet NoPayload ;;;
          ret true)
         (fun _ =>
            elasticsearchRequest ("/" +:+ INDEX_NAME) HttpPut EmptyObject ;;;
            ret false) ;;
     if negb indexExists then
       elasticsearchRequest ("/" +:+ INDEX_NAME +:+ "/_mapping") HttpPut
         IndexMapping ;;;
       ret tt
     else ret tt)
    (fun error => throw error).

Definition getDocumentById (id : string) : M (list Request) Lookup :=
  try_catch
    (response <- elasticsearchRequest ("/" +:+ INDEX_NAME +:+ "/_doc/" +:+ id)
                   HttpGet NoPayload ;;
     ret (match json__source response with
          | Some d => Document d
          | None => Undefined
          end))
    (fun message =>
       if includes message "404" then ret Null else throw message).

Definition checkElasticsearchHealth : M (list Request) bool :=
  try_catch
    (elasticsearchRequest ("/" +:+ INDEX_NAME +:+ "/_count") HttpGet
       NoPayload ;;;
     ret true)
    (fun message =>
       if includes message "404" then
         try_catch
           (initializeElasticsearchIndex ;;;
            elasticsearchRequest ("/" +:+ INDEX_NAME +:+ "/_count") HttpGet
              NoPayload ;;;
            ret true)
           (fun _ => ret false)
       else ret false).

(** [{ deleted: response.deleted || 0, took: response.took || 0 }] *)
Definition deleteAllDocumentsFromIndex : M (list Request) (Q * Q) :=
  try_catch
    (response <-
       elasticsearchRequest
         ("/" +:+ INDEX_NAME
          +:+ "/_delete_by_query?conflicts=proceed&refresh=true")
         HttpPost MatchAllQuery ;;
     ret (default 0%Q (json_deleted response),
          default 0%Q (json_took response)))
    (fun error => throw error).

Definition handleClear : M (list Request) (NextResponse Cleared) :=
  try_catch
    (isHealthy <- checkElasticsearchHealth ;;
     if negb isHealthy then
       ret (createErrorResponse "Search service is currently unavailable" 503)
     else
       result <- deleteAllDocumentsFromIndex ;;
       ret (createSuccessResponse
              {| cleared_message := "All documents deleted";
                 cleared_deleted := result.1;
                 cleared_took := result.2 |}))
    (fun _ => ret (createErrorResponse "Failed to delete documents" 500)).

(** The outcome of one request after the requests [sent]: the parsed reply,
    or the message of the error thrown. *)
Definition reply_of (sent : list Request) (request : Request) : Result Json :=
  match cluster_fetch c sent request with
  | FetchRejects e => Throw e
  | FetchResolves response =>
      if negb (ok response) then
        Throw ("Elasticsearch request failed: "
               +:+ nat_to_string (status response) +:+ " - "
               +:+ body_text response)
      else
        match body_json response with
        | None => Throw "Unexpected token in JSON"
        | Some j => Ok j
        end
  end.

Definition succeeds (sent : list Request) (request : Request) : Prop :=
  exists j, reply_of sent request = Ok j.

(** The requests that the maintenance functions send. *)
Definition count_request : Request :=
  {| verb := HttpGet; endpoint := "/" +:+ INDEX_NAME +:+ "/_count";
     payload := NoPayload |}.
Definition exists_request : Request :=
  {| verb := HttpGet; endpoint := "/" +:+ INDEX_NAME; payload := NoPayload |}.
Definition create_request : Request :=
  {| verb := HttpPut; endpoint := "/" +:+ INDEX_NAME;
     payload := EmptyObject |}.
Definition mapping_request : Request :=
  {| verb := HttpPut; endpoint := "/" +:+ INDEX_NAME +:+ "/_mapping";
     payload := IndexMapping |}.
Definition delete_all_request : Request :=
  {| verb := HttpPost;
     endpoint := "/" +:+ INDEX_NAME
                 +:+ "/_delete_by_query?conflicts=proceed&refresh=true";
     payload := MatchAllQuery |}.
Definition document_request (id : string) : Request :=
  {| verb := HttpGet; endpoint := "/" +:+ INDEX_NAME +:+ "/_doc/" +:+ id;
     payload := NoPayload |}.

End Requests.

(** A failed request whose error message mentions 404: a reply with status
    404, a reply outside 2xx whose text holds 404, or a rejected request
    whose message holds 404. *)
Definition mentions_404 (reply : FetchReply Json) : Prop :=
  match reply with
  | FetchRejects e => includes e "404" = true
  | FetchResolves response =>
      ok response = false
      /\ (status response = 404 \/ includes (body_text response) "404" = true)
  end.

(** An index that answers every request with status 500 and a text that
    holds the digits 404. *)
Definition failing_shard : Cluster :=
  {| cluster_ELASTICSEARCH_INDEX_NAME := None;
     cluster_fetch := fun _ _ =>
       FetchResolves {| status := 500;
                        body_text := "shard 1404 failed";
                        body_json := None |} |}.

End Maintenance.

(** ** Rate limiting, CORS and API keys ([src/lib/security.ts]) *)

Module Limiter.
Import JS Eff Eff.Notations Elasticsearch Security.

(** A record of [rateLimitStore]: the requests counted in the running
    window and the time, in milliseconds, at which the window ends. *)
Record RateRecord : Type := { count : Z; resetTime : Z }.

Abbreviation RateLimitStore := (gmap string RateRecord).

(** The server process: the module-level store beside the state of the
    collaborators.  [Date.now()] reads the one clock of the process. *)
Record Server : Type := {
  rateLimitStore : RateLimitStore;
  collaborators : St
}.

Definition lift {A} (m : M St A) : M Server A :=
  fun s =>
    let '(r, st') := m (collaborators s) in
    (r, {| rateLimitStore := rateLimitStore s; collaborators := st' |}).

(** The body of [rateLimit] once [now] is read.  [record.count++] updates the
    record that the map holds.  Limits and windows are the integers that the
    routes pass. *)
Definition rateLimit_at (now : Z) (identifier : string) (limit windowMs : Z)
  (store : RateLimitStore) : bool * RateLimitStore :=
  let key := identifier in
  match store !! key with
  | Some record =>
      if (now >? resetTime record)%Z then
        (true, <[key := {| count := 1; resetTime := now + windowMs |}]> store)
      else if (count record >=? limit)%Z then (false, store)
      else
        (true, <[key := {| count := count record + 1;
                           resetTime := resetTime record |}]> store)
  | None =>
      (true, <[key := {| count := 1; resetTime := now + windowMs |}]> store)
  end.

Definition rateLimit (identifier : string) (limit windowMs : Z)
  : M Server bool :=
  now <- lift Date_now ;;
  fun s =>
    let '(verdict, store) :=
      rateLimit_at now identifier limit windowMs (rateLimitStore s) in
    (Ok verdict, {| rateLimitStore := store; collaborators := collaborators s |}).

(** The callback of [setInterval]: every record whose window is over at
    [now] is deleted. *)
Definition cleanup_at (now : Z) (store : RateLimitStore) : RateLimitStore :=
  filter (fun kr => ~ (resetTime kr.2 < now)%Z) store.

Definition cleanup : M Server unit :=
  now <- lift Date_now ;;
  fun s =>
    (Ok tt, {| rateLimitStore := cleanup_at now (rateLimitStore s);
               collaborators := collaborators s |}).

(** The two variables of [process.env] that this file reads. *)
Record Environment : Type := {
  env_ALLOWED_ORIGINS : option string;
  env_API_KEY : option string
}.

(** A [Headers] object: names are kept in lower case. *)
Abbreviation Headers := (gmap string string).

Definition headers_set (name value : string) (h : Headers) : Headers :=
  <[toLowerCase name := value]> h.

Definition headers_get (name : string) (h : Headers) : option string :=
  h !! toLowerCase name.

Definition headers_set_all (entries : list (string * string)) (h : Headers)
  : Headers :=
  fold_left (fun h kv => headers_set kv.1 kv.2 h) entries h.

(** [process.env.ALLOWED_ORIGINS?.split(',') || ['http://localhost:3000']] *)
Definition allowedOrigins (env : Environment) : list string :=
  match env_ALLOWED_ORIGINS env with
  | Some origins => split "," origins
  | None => ["http://localhost:3000"]
  end.

Definition getCorsHeaders (env : Environment) (origin : option string)
  : list (string * string) :=
  let isAllowed :=
    match truthy origin with
    | None => true
    | Some o => bool_decide (o ∈ allowedOrigins env)
    end in
  [("Access-Control-Allow-Origin",
    if isAllowed then default "*" (truthy origin) else "null");
   ("Access-Control-Allow-Methods", "GET, POST, PUT, DELETE, OPTIONS");
   ("Access-Control-Allow-Headers",
    "Content-Type, Authorization, X-Requested-With");
   ("Access-Control-Max-Age", "86400")].

Definition getSecurityHeaders : list (string * string) :=
  [("X-Content-Type-Options", "nosniff");
   ("X-Frame-Options", "DENY");
   ("X-XSS-Protection", "1; mode=block");
   ("Referrer-Policy", "strict-origin-when-cross-origin");
   ("Permissions-Policy", "camera=(), microphone=(), geolocation=()")].

(** The headers that [createErrorResponse] and [createSuccessResponse] give
    to every response. *)
Definition json_headers : Headers :=
  headers_set_all
    (getSecurityHeaders ++ [("Content-Type", "application/json")]) ∅.

(** What the middleware reads of a request: [req_header] is
    [request.headers.get], [req_json] the outcome of [request.json()],
    [None] when that throws. *)
Record NextRequest (B : Type) : Type := {
  req_method : string;
  req_ip : option string;
  req_header : string -> option string;
  req_json : option B
}.
Arguments req_method {B} _.
Arguments req_ip {B} _.
Arguments req_header {B} _ _.
Arguments req_json {B} _.

Definition validateApiKey {B} (env : Environment) (request : NextRequest B)
  : bool :=
  let apiKey := req_header request "x-api-key" in
  match truthy (env_API_KEY env) with
  | None => false
  | Some expectedKey => bool_decide (apiKey = Some expectedKey)
  end.

End Limiter.

(** ** The security middleware ([src/lib/middleware.ts]) *)

Module Middleware.
Import JS Eff Eff.Notations Elasticsearch Security Route Limiter.

(** A response with its headers; [served_body] is [None] for the empty body
    of a preflight response. *)
Record Served (T : Type) : Type := {
  served_body : option (NextResponse T);
  served_status : nat;
  served_headers : Headers
}.
Arguments served_body {T} _.
Arguments served_status {T} _.
Arguments served_headers {T} _.

(** A response made by [createErrorResponse] or [createSuccessResponse]. *)
Definition served {T} (response : NextResponse T) : Served T :=
  {| served_body := Some response;
     served_status := resp_status response;
     served_headers := json_headers |}.

Record Options : Type := {
  opt_requireAuth : option bool;
  opt_rateLimit : option Z;
  opt_rateLimitWindow : option Z;
  opt_allowedMethods : option (list string)
}.

Section WithSecurity.
Context {B T : Type} (env : Environment).

(** [logRequest] only writes to the console, which is not modelled. *)
Definition withSecurity (handler : NextRequest B -> M St (Served T))
  (options : Options) (request : NextRequest B) : M Server (Served T) :=
  let requireAuth := default false (opt_requireAuth options) in
  let limit := default 100%Z (opt_rateLimit options) in
  let rateLimitWindow :=
    default (15 * 60 * 1000)%Z (opt_rateLimitWindow options) in
  let allowedMethods :=
    default ["GET"; "POST"; "OPTIONS"] (opt_allowedMethods options) in
  if String.eqb (req_method request) "OPTIONS" then
    ret {| served_body := None;
           served_status := 200;
           served_headers :=
             headers_set_all
               (getCorsHeaders env (truthy (req_header request "origin"))
                ++ getSecurityHeaders) ∅ |}
  else if negb (bool_decide (req_method request ∈ allowedMethods)) then
    ret (served (createErrorResponse "Method not allowed" 405))
  else
    let clientId :=
      match truthy (req_ip request) with
      | Some ip => ip
      | None => default "unknown" (truthy (req_header request "x-forwarded-for"))
      end in
    admitted <- rateLimit clientId limit rateLimitWindow ;;
    if negb admitted then
      ret (served (createErrorResponse
                     "Rate limit exceeded. Please try again later." 429))
    else if requireAuth && negb (validateApiKey env request) then
      ret (served (createErrorResponse
                     "Unauthorized. Valid API key required." 401))
    else
      try_catch
        (response <- lift (handler request) ;;
         ret {| served_body := served_body response;
                served_status := served_status response;
                served_headers :=
                  headers_set_all getSecurityHeaders
                    (headers_set_all
                       (getCorsHeaders env
                          (truthy (req_header request "origin")))
                       (served_headers response)) |})
        (fun _ => ret (served (createErrorResponse "Internal server error" 500))).

End WithSecurity.

(** [export const POST = withSecurity(handleQuery, { rateLimit: 50,
    rateLimitWindow: 15 * 60 * 1000 })] of the query route *)
Definition query_handler (w : World) (request : NextRequest QueryRequest)
  : M St (Served QueryData) :=
  response <- handleQuery w (req_json request) ;;
  ret (served response).

Definition POST (w : World) (env : Environment)
  : NextRequest QueryRequest -> M Server (Served QueryData) :=
  withSecurity env (query_handler w)
    {| opt_requireAuth := None;
       opt_rateLimit := Some 50%Z;
       opt_rateLimitWindow := Some (15 * 60 * 1000)%Z;
       opt_allowedMethods := None |}.

End Middleware.

(** ** Request sequences *)

Module Traffic.
Import JS Eff Eff.Notations Elasticsearch Security Route Props Examples.
Import Limiter Middleware.

(** One call of [rateLimit]: when, for whom, with which limit and window. *)
Record Arrival : Type := {
  arrival_time : Z;
  arrival_client : string;
  arrival_limit : Z;
  arrival_window : Z
}.

(** The verdicts of a sequence of calls, each beside its call, and the store
    that the sequence leaves. *)
Fixpoint answers (arrivals : list Arrival) (store : RateLimitStore)
  : list (Arrival * bool) * RateLimitStore :=
  match arrivals with
  | [] => ([], store)
  | a :: rest =>
      let '(verdict, store') :=
        rateLimit_at (arrival_time a) (arrival_client a) (arrival_limit a)
          (arrival_window a) store in
      let '(later, store'') := answers rest store' in
      ((a, verdict) :: later, store'')
  end.

Definition verdicts (arrivals : list Arrival) (store : RateLimitStore)
  : list bool :=
  (answers arrivals store).1.*2.

(** The calls of one client with one limit and window, at the given times. *)
Definition calls_of (client : string) (limit windowMs : Z) (times : list Z)
  : list Arrival :=
  (fun t => {| arrival_time := t; arrival_client := client;
               arrival_limit := limit; arrival_window := windowMs |})
  <$> times.

(** A client's window is closed at [now]: no record, or one that is over. *)
Definition window_closed (store : RateLimitStore) (client : string) (now : Z)
  : Prop :=
  match store !! client with
  | None => True
  | Some record => (resetTime record < now)%Z
  end.

(** The identifier under which the middleware counts a request. *)
Definition client_of {B} (request : NextRequest B) : string :=
  match truthy (req_ip request) with
  | Some ip => ip
  | None => default "unknown" (truthy (req_header request "x-forwarded-for"))
  end.

(** The value of the CORS origin header is the wildcard, the literal null,
    or the request's own origin when that is on the list. *)
Definition cors_origin_ok (env : Environment) (origin : option string)
  (value : option string) : Prop :=
  match truthy origin with
  | None => value = Some "*"
  | Some o =>
      if bool_decide (o ∈ allowedOrigins env) then value = Some o
      else value = Some "null"
  end.

(** The options of the middleware with their defaults applied. *)
Definition auth_of (options : Options) : bool :=
  default false (opt_requireAuth options).
Definition limit_of (options : Options) : Z :=
  default 100%Z (opt_rateLimit options).
Definition window_of (options : Options) : Z :=
  default (15 * 60 * 1000)%Z (opt_rateLimitWindow options).
Definition methods_of (options : Options) : list string :=
  default ["GET"; "POST"; "OPTIONS"] (opt_allowedMethods options).

Definition origin_of {B} (request : NextRequest B) : option string :=
  truthy (req_header request "origin").

(** The verdict of the limiter on a request that reaches it, and the store it
    leaves; the server after the limiter has read the clock. *)
Definition admission {B} (options : Options) (request : NextRequest B)
  (s : Server) : bool * RateLimitStore :=
  rateLimit_at (clock_stream (collaborators s) 0) (client_of request)
    (limit_of options) (window_of options) (rateLimitStore s).

Definition after_limiter {B} (options : Options) (request : NextRequest B)
  (s : Server) : Server :=
  {| rateLimitStore := (admission options request s).2;
     collaborators := (Date_now (collaborators s)).2 |}.

(** The error responses that the middleware makes itself. *)
Definition middleware_errors : list (string * nat) :=
  [("Method not allowed", 405);
   ("Rate limit exceeded. Please try again later.", 429);
   ("Unauthorized. Valid API key required.", 401);
   ("Internal server error", 500)].

Definition no_headers : string -> option string := fun _ => None.

Definition post_from (ip : string) (q : string) : NextRequest QueryRequest :=
  {| req_method := "POST"; req_ip := Some ip; req_header := no_headers;
     req_json := Some (ask q) |}.

Definition local_env : Environment :=
  {| env_ALLOWED_ORIGINS := None; env_API_KEY := None |}.

Definition fresh_server : Server :=
  {| rateLimitStore := ∅; collaborators := start |}.

(** A server on which the client 10.0.0.1 has used up a window of 50. *)
Definition busy_server : Server :=
  {| rateLimitStore :=
       {[ "10.0.0.1" := {| count := 50; resetTime := 900000 |} ]};
     collaborators := start |}.

Definition preflight_from (ip : string) : NextRequest QueryRequest :=
  {| req_method := "OPTIONS"; req_ip := Some ip; req_header := no_headers;
     req_json := None |}.

Definition query_options : Options :=
  {| opt_requireAuth := None;
     opt_rateLimit := Some 50%Z;
     opt_rateLimitWindow := Some (15 * 60 * 1000)%Z;
     opt_allowedMethods := None |}.

Definition protected_options : Options :=
  {| opt_requireAuth := Some true;
     opt_rateLimit := None;
     opt_rateLimitWindow := None;
     opt_allowedMethods := None |}.

End Traffic.

Import JS Regex Route Security Num Elasticsearch Eff Props Examples.
Import Facts.
Import Cases.
Import Limiter Middleware Traffic.

(** * Properties *)

(** ** The monad *)

Section MonadFacts.
Context {S A B : Type}.

Lemma bind_ok (m : M S A) (k : A -> M S B) st a st' :
  m st = (Ok a, st') -> bind m k st = k a st'.
Proof. intros H. unfold bind. now rewrite H. Qed.

Lemma bind_throw (m : M S A) (k : A -> M S B) st e st' :
  m st = (Throw e, st') -> bind m k st = (Throw e, st').
Proof. intros H. unfold bind. now rewrite H. Qed.

Lemma try_catch_ok (m : M S A) h st a st' :
  m st = (Ok a, st') -> try_catch m h st = (Ok a, st').
Proof. intros H. unfold try_catch. now rewrite H. Qed.

Lemma try_catch_throw (m : M S A) h st e st' :
  m st = (Throw e, st') -> try_catch m h st = h e st'.
Proof. intros H. unfold try_catch. now rewrite H. Qed.
End MonadFacts.

(** ** The hybrid search request *)

Lemma hybridSearchDocuments_calls w query embedding filters size st :
  calls (hybridSearchDocuments w query embedding filters size st).2
  = calls st ++ [CallElastic (search_endpoint w)
                   (hybrid_body query embedding filters size)].
Proof.
  unfold hybridSearchDocuments, try_catch, bind, elasticsearchRequest,
    bind, log_call, search_endpoint.
  destruct (elastic_fetch w _ _) as [e|r]; simpl; [reflexivity|].
  destruct (ok r); simpl; [|reflexivity].
  destruct (body_json r); reflexivity.
Qed.

Lemma textSearchDocuments_calls w query filters size st :
  calls (textSearchDocuments w query filters size st).2
  = calls st ++ [CallElastic (search_endpoint w)
                   (text_body query filters size)].
Proof.
  unfold textSearchDocuments, try_catch, bind, elasticsearchRequest,
    bind, log_call, search_endpoint.
  destruct (elastic_fetch w _ _) as [e|r]; simpl; [reflexivity|].
  destruct (ok r); simpl; [|reflexivity].
  destruct (body_json r); reflexivity.
Qed.

(** C9, as stated, fails: among the boosted fields the file name has the
    largest boost, not the smallest, so the order title > content > summary >
    file name does not hold for the request that is sent. *)
Lemma hybrid_boosts_not_title_first :
  sb_query (hybrid_body "revenue 2021" [] None 5)
  = BoolShould
      [ Knn "embedding" [] 10 100;
        MultiMatch "revenue 2021" search_fields "best_fields" "AUTO" ]
      1 None
  /\ ~ title_first search_fields.
Proof.
  split; [reflexivity|].
  unfold title_first. vm_compute. intros (H & _). lia.
Qed.

(** C9, amended: every hybrid search sends exactly one request, a
    disjunction with minimum-should-match 1 of a k-nearest-neighbour clause
    ([k] twice the size, 100 candidates) and a fuzzy best-fields multi-match,
    whose boosts are: file name 4, title 3, content 2, summary 2, and the
    combined text field unboosted. *)
Theorem hybrid_request_shape w query embedding filters size st :
  calls (hybridSearchDocuments w query embedding filters size st).2
  = calls st ++ [CallElastic (search_endpoint w)
                   (hybrid_body query embedding filters size)]
  /\ sb_query (hybrid_body query embedding filters size)
     = BoolShould
         [ Knn "embedding" embedding (size * 2) 100;
           MultiMatch query search_fields "best_fields" "AUTO" ]
         1 filters
  /\ map field_name search_fields
     = ["title"; "content"; "text"; "metadata.summary"; "metadata.fileName"]
  /\ boost_of "metadata.fileName" search_fields = Some 4
  /\ boost_of "title" search_fields = Some 3
  /\ boost_of "content" search_fields = Some 2
  /\ boost_of "metadata.summary" search_fields = Some 2
  /\ boost_of "text" search_fields = Some 1.
Proof.
  split; [apply hybridSearchDocuments_calls|].
  repeat split; reflexivity.
Qed.

(** ** Multi-search: the loop against the fan-out *)

Lemma search_loop_fan_out w filters uv topK qs :
  forall acc st,
    search_loop w qs filters uv topK acc st
    = (Ok (fold_left merge_hit (concat (fan_out w qs filters uv topK st).1) acc),
       (fan_out w qs filters uv topK st).2).
Proof.
  induction qs as [|q qs IH]; intros acc st; simpl; [reflexivity|].
  unfold bind at 1, try_catch, bind at 1.
  destruct (search_query w q filters uv topK st) as [[results|e] st']; simpl.
  - rewrite IH. destruct (fan_out w qs filters uv topK st') as [rest st''].
    simpl. now rewrite fold_left_app.
  - now rewrite IH.
Qed.

Lemma multiSearch_eq w userQuery searchQueries filters uv maxResults st :
  multiSearch w userQuery searchQueries filters uv maxResults st
  = (Ok (slice0 maxResults
           (fold_left merge_hit
              (flat_hits w searchQueries filters uv maxResults st) (∅, [])).2),
     (fan_out w (take 6 searchQueries) filters uv
        (Z.max 3 (maxResults / 2)) st).2).
Proof.
  unfold multiSearch, bind. now rewrite search_loop_fan_out.
Qed.

Lemma slice0_length {A} (e : Z) (l : list A) :
  (0 <= e)%Z -> (Z.of_nat (length (slice0 e l)) <= e)%Z.
Proof.
  intros He. unfold slice0.
  destruct (Z.ltb_spec e 0) as [Hlt|_]; [lia|].
  rewrite length_take. lia.
Qed.

Lemma slice0_take {A} (e : Z) (l : list A) :
  (0 <= e)%Z -> slice0 e l = take (Z.to_nat e) l.
Proof.
  intros He. unfold slice0.
  destruct (Z.ltb_spec e 0) as [Hlt|_]; [lia|].
  destruct (Z.le_ge_cases e (Z.of_nat (length l))) as [H|H].
  - now rewrite Z.min_l.
  - rewrite Z.min_r by lia. rewrite Nat2Z.id.
    rewrite take_ge by lia. rewrite take_ge by lia. reflexivity.
Qed.

(** C4: for a bound [N] (a length cannot be below zero, so [0 <= N]), the
    multi-search step returns, whatever the collaborators answer, a hit list
    of at most [N] entries. *)
Theorem multiSearch_bounded w userQuery searchQueries filters uv (N : Z) st :
  (0 <= N)%Z ->
  exists merged st',
    multiSearch w userQuery searchQueries filters uv N st = (Ok merged, st')
    /\ (Z.of_nat (length merged) <= N)%Z.
Proof.
  intros HN. rewrite multiSearch_eq. eexists _, _. split; [reflexivity|].
  now apply slice0_length.
Qed.

(** Below zero [slice] counts from the end: with [maxResults = -1] the
    handler's search returns all merged hits but the last. *)
Lemma multiSearch_negative_bound :
  (multiSearch two_lists "q1" ["q1"; "q2"] None false (-1) start).1
  = Ok [as_hit doc_a; as_hit doc_b].
Proof. reflexivity. Qed.

Lemma multiSearch_bounded_witness :
  (0 <= 2)%Z
  /\ exists merged st',
       multiSearch two_lists "q1" ["q1"; "q2"] None false 2 start
       = (Ok merged, st')
       /\ (Z.of_nat (length merged) <= 2)%Z.
Proof.
  split; [lia|].
  apply (multiSearch_bounded two_lists "q1" ["q1"; "q2"] None false 2 start).
  lia.
Defined.

(** ** Multi-search: merging *)

Lemma merge_hit_snd acc r :
  (merge_hit acc r).2
  = acc.2 ++ (if bool_decide (dedupe_key r ∈ acc.1) then [] else [r]).
Proof.
  unfold merge_hit. destruct (bool_decide _); simpl; [|reflexivity].
  now rewrite app_nil_r.
Qed.

Lemma merge_hit_inv acc r : merge_inv acc -> merge_inv (merge_hit acc r).
Proof.
  intros [Hseen Hnd]. unfold merge_hit.
  destruct (bool_decide_reflect (dedupe_key r ∈ acc.1)) as [Hin|Hout];
    [now split|].
  split; simpl; unfold keys in *.
  - intros k. rewrite fmap_app, elem_of_app, elem_of_union, elem_of_singleton.
    simpl. rewrite list_elem_of_singleton, Hseen. tauto.
  - rewrite fmap_app. apply NoDup_app. split; [assumption|]. split.
    + intros k Hk. simpl. rewrite list_elem_of_singleton. intros ->.
      apply Hout, Hseen, Hk.
    + simpl. apply NoDup_singleton.
Qed.

Lemma fold_merge_inv l : forall acc,
  merge_inv acc -> merge_inv (fold_left merge_hit l acc).
Proof.
  induction l as [|r l IH]; intros acc H; simpl; [assumption|].
  apply IH, merge_hit_inv, H.
Qed.

Lemma fold_merge_extends l : forall acc,
  exists more, (fold_left merge_hit l acc).2 = acc.2 ++ more.
Proof.
  induction l as [|r l IH]; intros acc; simpl.
  - exists []. now rewrite app_nil_r.
  - destruct (IH (merge_hit acc r)) as [more ->].
    rewrite merge_hit_snd, <- app_assoc. eauto.
Qed.

Lemma fold_merge_keys l : forall acc k,
  merge_inv acc ->
  k ∈ keys (fold_left merge_hit l acc).2 <-> k ∈ keys acc.2 \/ k ∈ keys l.
Proof.
  induction l as [|r l IH]; intros acc k Hinv; simpl.
  - unfold keys. simpl. rewrite elem_of_nil. tauto.
  - rewrite IH by now apply merge_hit_inv.
    rewrite merge_hit_snd. unfold keys. rewrite fmap_app, elem_of_app.
    simpl. rewrite elem_of_cons.
    destruct (bool_decide_reflect (dedupe_key r ∈ acc.1)) as [Hin|Hout];
      simpl.
    + rewrite elem_of_nil. split; [tauto|].
      intros [H|[->|H]]; auto. left. left. now apply Hinv.
    + rewrite list_elem_of_singleton. tauto.
Qed.

Lemma fold_merge_sub l : forall acc r,
  r ∈ (fold_left merge_hit l acc).2 -> r ∈ acc.2 \/ r ∈ l.
Proof.
  induction l as [|x l IH]; intros acc r; simpl; [auto|].
  intros H. apply IH in H. rewrite merge_hit_snd in H.
  rewrite elem_of_cons. destruct H as [H|H]; [|auto].
  apply elem_of_app in H. destruct H as [H|H]; [auto|].
  destruct (bool_decide _); [now apply elem_of_nil in H|].
  apply list_elem_of_singleton in H. auto.
Qed.

Lemma empty_merge_inv : merge_inv (∅, []).
Proof.
  split; simpl.
  - intros k. unfold keys. simpl. rewrite elem_of_nil. set_solver.
  - apply NoDup_nil_2.
Qed.

Lemma merged_of_NoDup flat : NoDup (keys (merged_of flat)).
Proof. apply (fold_merge_inv flat _ empty_merge_inv). Qed.

Lemma merged_of_keys flat k : k ∈ keys (merged_of flat) <-> k ∈ keys flat.
Proof.
  unfold merged_of. rewrite fold_merge_keys by apply empty_merge_inv.
  simpl. unfold keys at 1. simpl. rewrite elem_of_nil. tauto.
Qed.

Lemma merged_of_length flat :
  length (merged_of flat) = length (remove_dups (keys flat)).
Proof.
  transitivity (length (keys (merged_of flat)));
    [unfold keys; now rewrite length_fmap|].
  apply Permutation_length, NoDup_Permutation.
  - apply merged_of_NoDup.
  - apply NoDup_remove_dups.
  - intros k. now rewrite merged_of_keys, elem_of_remove_dups.
Qed.

Lemma merged_of_app_cons pre r post :
  dedupe_key r ∉ keys pre ->
  merged_of (pre ++ r :: post) !! length (merged_of pre) = Some r.
Proof.
  intros Hnew. apply (proj2 (not_iff_compat (merged_of_keys pre _))) in Hnew.
  unfold merged_of in *. rewrite fold_left_app. simpl.
  pose proof (fold_merge_inv pre _ empty_merge_inv) as Hinv.
  destruct (fold_merge_extends post
              (merge_hit (fold_left merge_hit pre (∅, [])) r)) as [more ->].
  rewrite merge_hit_snd.
  destruct (bool_decide_reflect
              (dedupe_key r ∈ (fold_left merge_hit pre (∅, [])).1))
    as [Hin|Hout].
  - exfalso. apply Hnew. now apply Hinv.
  - rewrite <- app_assoc.
    rewrite lookup_app_r by lia. now rewrite Nat.sub_diag.
Qed.

(** The first hit of an identity sits in the merged list at the rank of
    that identity. *)
Lemma merged_of_first_occurrence flat j r :
  flat !! j = Some r ->
  dedupe_key r ∉ keys (take j flat) ->
  merged_of flat !! rank flat j = Some r.
Proof.
  intros Hj Hnew. unfold rank. rewrite <- merged_of_length.
  replace (merged_of flat)
    with (merged_of (take j flat ++ r :: drop (S j) flat))
    by now rewrite take_drop_middle.
  now apply merged_of_app_cons.
Qed.

Lemma keys_lookup l i r :
  l !! i = Some r -> keys l !! i = Some (dedupe_key r).
Proof. intros H. unfold keys. now rewrite list_lookup_fmap, H. Qed.

(** C3, as stated, fails: with [maxResults = 2] the first query returns
    three hits, the third of them [doc1], and the second query returns [doc1]
    again; the merged output is cut after two entries and holds no [doc1]
    at all. *)
Lemma merged_output_may_drop_identity :
  flat_hits two_lists ["q1"; "q2"] None false 2 start
  = [as_hit doc_a; as_hit doc_b; as_hit doc1; as_hit doc1]
  /\ (multiSearch two_lists "q1" ["q1"; "q2"] None false 2 start).1
     = Ok [as_hit doc_a; as_hit doc_b]
  /\ "doc1" ∈ keys (flat_hits two_lists ["q1"; "q2"] None false 2 start)
  /\ "doc1" ∉ keys [as_hit doc_a; as_hit doc_b].
Proof.
  assert (Hflat : flat_hits two_lists ["q1"; "q2"] None false 2 start
                  = [as_hit doc_a; as_hit doc_b; as_hit doc1; as_hit doc1])
    by reflexivity.
  split; [exact Hflat|]. split; [reflexivity|]. rewrite Hflat.
  assert (keys [as_hit doc_a; as_hit doc_b; as_hit doc1; as_hit doc1]
          = ["a"; "b"; "doc1"; "doc1"]) as -> by reflexivity.
  assert (keys [as_hit doc_a; as_hit doc_b] = ["a"; "b"]) as -> by reflexivity.
  split.
  - do 2 right. left.
  - rewrite !elem_of_cons, elem_of_nil.
    intros [H|[H|[]]]; discriminate H.
Qed.

(** C3, amended: the merged output holds every identity at most once, and
    only hits of the fan-out; the first hit of an identity, in query-execution
    order, stands at the position given by the number of distinct identities
    before it whenever that number is below [maxResults], and the identity
    is absent from the output otherwise. *)
Theorem multiSearch_first_occurrences
  w userQuery searchQueries filters uv (N : Z) st :
  (0 <= N)%Z ->
  let flat := flat_hits w searchQueries filters uv N st in
  exists merged st',
    multiSearch w userQuery searchQueries filters uv N st = (Ok merged, st')
    /\ NoDup (keys merged)
    /\ (forall r, r ∈ merged -> r ∈ flat)
    /\ (forall j r,
          flat !! j = Some r ->
          dedupe_key r ∉ keys (take j flat) ->
          ((Z.of_nat (rank flat j) < N)%Z ->
             merged !! rank flat j = Some r)
          /\ ((N <= Z.of_nat (rank flat j))%Z ->
                dedupe_key r ∉ keys merged)).
Proof.
  intros HN flat. rewrite multiSearch_eq. fold flat. fold (merged_of flat).
  rewrite slice0_take by assumption.
  eexists _, _. split; [reflexivity|].
  pose proof (merged_of_NoDup flat) as Hnd.
  split; [|split].
  - unfold keys in *. rewrite fmap_take.
    eapply sublist_NoDup; [exact Hnd|apply sublist_take].
  - intros r Hr. apply elem_of_take in Hr as (i & Hr & _).
    apply list_elem_of_lookup_2 in Hr.
    apply fold_merge_sub in Hr. destruct Hr as [Hr|Hr]; [|assumption].
    now apply elem_of_nil in Hr.
  - intros j r Hj Hnew.
    pose proof (merged_of_first_occurrence flat j r Hj Hnew) as Hpos.
    split.
    + intros Hlt. rewrite lookup_take_lt by lia. assumption.
    + intros Hge Hin. apply list_elem_of_lookup_1 in Hin as (i & Hi).
      unfold keys in Hi. rewrite list_lookup_fmap in Hi.
      destruct (take (Z.to_nat N) (merged_of flat) !! i) as [r'|] eqn:Hr';
        [|discriminate].
      simpl in Hi. injection Hi as Hi.
      apply lookup_take_Some in Hr' as (Hr' & Hlt).
      apply keys_lookup in Hr'. apply keys_lookup in Hpos.
      rewrite Hi in Hr'.
      pose proof (NoDup_lookup _ _ _ _ Hnd Hr' Hpos). lia.
Qed.

Lemma multiSearch_first_occurrences_witness :
  (0 <= 2)%Z
  /\ exists merged st',
       multiSearch two_lists "q1" ["q1"; "q2"] None false 2 start
       = (Ok merged, st')
       /\ NoDup (keys merged)
       /\ (forall r, r ∈ merged ->
             r ∈ flat_hits two_lists ["q1"; "q2"] None false 2 start)
       /\ (forall j r,
             flat_hits two_lists ["q1"; "q2"] None false 2 start !! j
             = Some r ->
             dedupe_key r
             ∉ keys (take j
                       (flat_hits two_lists ["q1"; "q2"] None false 2 start)) ->
             ((Z.of_nat
                 (rank (flat_hits two_lists ["q1"; "q2"] None false 2 start) j)
               < 2)%Z ->
              merged
              !! rank (flat_hits two_lists ["q1"; "q2"] None false 2 start) j
              = Some r)
             /\ ((2 <= Z.of_nat
                         (rank (flat_hits two_lists ["q1"; "q2"] None false 2
                                  start) j))%Z ->
                 dedupe_key r ∉ keys merged)).
Proof.
  split; [lia|].
  apply (multiSearch_first_occurrences two_lists "q1" ["q1"; "q2"] None
           false 2 start).
  lia.
Defined.

(** ** Multi-search: a failing hybrid search *)

Lemma random_vector_total n : forall st,
  exists v st', random_vector n st = (Ok v, st') /\ calls st' = calls st.
Proof.
  induction n as [|n IH]; intros st; simpl.
  - eexists _, _. split; reflexivity.
  - unfold bind at 1, Math_random at 1.
    destruct (IH {| calls := calls st;
                    random_stream := fun n => random_stream st (S n);
                    clock_stream := clock_stream st |})
      as (v & st' & Hv & Hc).
    unfold bind at 1. rewrite Hv. simpl. eexists _, _. split; [reflexivity|].
    exact Hc.
Qed.

Lemma generateEmbedding_total w text st :
  exists embedding st',
    generateEmbedding w text st = (Ok embedding, st')
    /\ length (calls st) <= length (calls st').
Proof.
  unfold generateEmbedding, try_catch, bind at 1, gemini_config.
  destruct (truthy (env_GEMINI_API_KEY w)) as [key|];
    [|eexists _, _; split; [reflexivity|simpl; lia]].
  destruct (truthy (env_GEMINI_API_URL w)) as [url|];
    [|eexists _, _; split; [reflexivity|simpl; lia]].
  unfold ret at 1. unfold bind at 1, gemini_post, bind at 1, log_call.
  destruct (gemini_fetch w _ _) as [e|response].
  - eexists _, _. split; [reflexivity|]. simpl. rewrite length_app. lia.
  - unfold ret at 1. destruct (ok response); cbn [negb].
    + match goal with
      | |- context [random_vector 768 ?s] =>
          destruct (random_vector_total 768 s) as (v & st' & -> & Hc)
      end.
      eexists _, _. split; [reflexivity|]. rewrite Hc. cbn [calls].
      rewrite length_app. lia.
    + eexists _, _. split; [reflexivity|]. cbn [calls throw snd fst].
      rewrite length_app. lia.
Qed.

Lemma search_loop_cons w q qs filters uv topK acc st :
  search_loop w (q :: qs) filters uv topK acc st
  = match search_query w q filters uv topK st with
    | (Ok results, st') =>
        search_loop w qs filters uv topK (fold_left merge_hit results acc) st'
    | (Throw _, st') => search_loop w qs filters uv topK acc st'
    end.
Proof.
  cbn [search_loop]. unfold bind, try_catch.
  destruct (search_query w q filters uv topK st) as [[results|e] st'];
    reflexivity.
Qed.

Lemma search_query_vector w q filters topK st embedding st1 :
  generateEmbedding w q st = (Ok embedding, st1) ->
  search_query w q filters true topK st
  = match hybridSearchDocuments w q embedding filters topK st1 with
    | (Ok [], st2) => textSearchDocuments w q filters topK st2
    | (Ok (r :: rs), st2) => (Ok (r :: rs), st2)
    | (Throw e, st2) => (Throw e, st2)
    end.
Proof.
  intros Hemb. unfold search_query. rewrite (bind_ok _ _ _ _ _ Hemb).
  unfold bind.
  destruct (hybridSearchDocuments w q embedding filters topK st1)
    as [[[|r rs]|e] st2]; reflexivity.
Qed.

(** C1, as stated, fails: the hybrid search of the only sub-query throws;
    the sub-query is skipped, the call log of the run holds the hybrid request
    and no lexical one, and the merged list is empty although the lexical
    search of the same sub-query finds [doc1]. *)
Lemma hybrid_failure_is_not_retried :
  (hybridSearchDocuments hybrid_down "q" zero_vector None 5 start).1
  = Throw bad_request_message
  /\ (multiSearch hybrid_down "q" ["q"] None true 10 start).1 = Ok []
  /\ calls (multiSearch hybrid_down "q" ["q"] None true 10 start).2
     = [CallElastic "/company-memory/_search"
          (hybrid_body "q" zero_vector None 5)]
  /\ (CallElastic "/company-memory/_search" (text_body "q" None 5)
      ∉ calls (multiSearch hybrid_down "q" ["q"] None true 10 start).2)
  /\ (textSearchDocuments hybrid_down "q" None 5
        (multiSearch hybrid_down "q" ["q"] None true 10 start).2).1
     = Ok [as_hit doc1].
Proof.
  split; [vm_compute; reflexivity|]. split; [vm_compute; reflexivity|].
  assert (Hcalls :
    calls (multiSearch hybrid_down "q" ["q"] None true 10 start).2
    = [CallElastic "/company-memory/_search"
         (hybrid_body "q" zero_vector None 5)])
    by (vm_compute; reflexivity).
  split; [exact Hcalls|]. split; [|vm_compute; reflexivity].
  rewrite Hcalls. intros Hin. apply list_elem_of_singleton in Hin.
  discriminate Hin.
Qed.

(** C1, amended: one turn of the loop under vector search goes by the
    outcome of the hybrid search.  If it throws, the sub-query is skipped:
    the merge state is unchanged and the hybrid request is the only index
    call of the turn, so no lexical search is made.  If it returns no hit,
    the lexical search of the same sub-query is made and its hits, if it
    returns, are merged.  Otherwise the hybrid hits are merged. *)
Theorem hybrid_outcome_decides_turn
  w q qs filters topK acc st embedding st1 outcome st2 :
  generateEmbedding w q st = (Ok embedding, st1) ->
  hybridSearchDocuments w q embedding filters topK st1 = (outcome, st2) ->
  match outcome with
  | Throw _ =>
      search_loop w (q :: qs) filters true topK acc st
      = search_loop w qs filters true topK acc st2
      /\ calls st2
         = calls st1 ++ [CallElastic (search_endpoint w)
                           (hybrid_body q embedding filters topK)]
  | Ok [] =>
      search_loop w (q :: qs) filters true topK acc st
      = match textSearchDocuments w q filters topK st2 with
        | (Ok results, st3) =>
            search_loop w qs filters true topK
              (fold_left merge_hit results acc) st3
        | (Throw _, st3) => search_loop w qs filters true topK acc st3
        end
  | Ok (r :: rs) =>
      search_loop w (q :: qs) filters true topK acc st
      = search_loop w qs filters true topK
          (fold_left merge_hit (r :: rs) acc) st2
  end.
Proof.
  intros Hemb Hhyb.
  pose proof (hybridSearchDocuments_calls w q embedding filters topK st1)
    as Hcalls.
  rewrite Hhyb in Hcalls. simpl in Hcalls.
  rewrite search_loop_cons, (search_query_vector _ _ _ _ _ _ _ Hemb), Hhyb.
  destruct outcome as [[|r rs]|e].
  - destruct (textSearchDocuments w q filters topK st2) as [[results|e] st3];
      reflexivity.
  - reflexivity.
  - split; [reflexivity|exact Hcalls].
Qed.

Lemma hybrid_outcome_decides_turn_witness :
  generateEmbedding hybrid_down "q" start = (Ok zero_vector, start)
  /\ hybridSearchDocuments hybrid_down "q" zero_vector None 5 start
     = (Throw bad_request_message,
        (hybridSearchDocuments hybrid_down "q" zero_vector None 5 start).2)
  /\ (search_loop hybrid_down ["q"] None true 5 (∅, []) start
      = search_loop hybrid_down [] None true 5 (∅, [])
          (hybridSearchDocuments hybrid_down "q" zero_vector None 5 start).2
      /\ calls (hybridSearchDocuments hybrid_down "q" zero_vector None 5
                  start).2
         = calls start ++ [CallElastic (search_endpoint hybrid_down)
                             (hybrid_body "q" zero_vector None 5)]).
Proof.
  split; [reflexivity|]. split; [reflexivity|].
  apply (hybrid_outcome_decides_turn hybrid_down "q" [] None 5 (∅, []) start
           zero_vector start (Throw bad_request_message)
           (hybridSearchDocuments hybrid_down "q" zero_vector None 5 start).2);
    reflexivity.
Defined.

(** ** Trimming *)

Lemma chars_str l : chars (str l) = l.
Proof. apply list_ascii_of_string_of_list_ascii. Qed.

Lemma str_chars s : str (chars s) = s.
Proof. apply string_of_list_ascii_of_string. Qed.

Lemma drop_space_clean l : clean (drop_space l).
Proof.
  induction l as [|c l IH]; simpl; [exact I|].
  destruct (is_space c) eqn:Hc; [exact IH|exact Hc].
Qed.

Lemma drop_space_id l : clean l -> drop_space l = l.
Proof. destruct l as [|c l]; simpl; [reflexivity|]. now intros ->. Qed.

Lemma drop_space_suffix l : exists pre, l = pre ++ drop_space l.
Proof.
  induction l as [|c l [pre IH]]; simpl.
  - now exists [].
  - destruct (is_space c).
    + exists (c :: pre). simpl. now rewrite <- IH.
    + now exists [].
Qed.

Lemma clean_app_l x y : clean (x ++ y) -> clean x.
Proof. destruct x; simpl; auto. Qed.

Lemma trim_chars_idem l : trim_chars (trim_chars l) = trim_chars l.
Proof.
  unfold trim_chars.
  set (a := drop_space l).
  set (b := drop_space (rev a)).
  assert (Hb : clean b) by apply drop_space_clean.
  assert (Hrb : clean (rev b)).
  { destruct (drop_space_suffix (rev a)) as [pre Hpre]. fold b in Hpre.
    assert (Ha : a = rev b ++ rev pre).
    { rewrite <- (rev_involutive a), Hpre. apply rev_app_distr. }
    apply (clean_app_l _ (rev pre)). rewrite <- Ha. apply drop_space_clean. }
  rewrite (drop_space_id _ Hrb), rev_involutive.
  now rewrite (drop_space_id _ Hb).
Qed.

Lemma trim_idem s : trim (trim s) = trim s.
Proof. unfold trim. now rewrite chars_str, trim_chars_idem. Qed.

Lemma sanitizeInput_trimmed s : trim (sanitizeInput s) = sanitizeInput s.
Proof. unfold sanitizeInput. apply trim_idem. Qed.

(** ** The handler *)

Lemma callGeminiAPI_calls w prompt st :
  length (calls st) <= length (calls (callGeminiAPI w prompt st).2).
Proof.
  unfold callGeminiAPI, try_catch, bind at 1, gemini_config.
  destruct (truthy (env_GEMINI_API_KEY w)) as [key|]; [|simpl; lia].
  destruct (truthy (env_GEMINI_API_URL w)) as [url|]; [|simpl; lia].
  unfold ret at 1. unfold bind at 1, gemini_post, bind at 1, log_call.
  destruct (gemini_fetch w _ _) as [e|response]; simpl.
  - rewrite length_app. lia.
  - destruct (ok response); simpl.
    + destruct (body_json response); simpl; rewrite length_app; lia.
    + rewrite length_app. lia.
Qed.

Lemma generateAIResponse_eq w query results history st :
  generateAIResponse w query results history st
  = match final_prompt w query results history with
    | Throw e => (Throw e, st)
    | Ok prompt =>
        match callGeminiAPI w prompt st with
        | (Ok response, st') => (Ok response, st')
        | (Throw _, st') => (Ok (Text processing_apology), st')
        end
    end.
Proof.
  unfold generateAIResponse, final_prompt, bind at 1, of_result.
  destruct (prompt_of _ _ _) as [prompt|e]; [|reflexivity].
  unfold try_catch, bind, ret.
  destruct (callGeminiAPI w _ st) as [[response|e] st']; reflexivity.
Qed.

Lemma generateAIResponse_calls w query results history st :
  length (calls st)
  <= length (calls (generateAIResponse w query results history st).2).
Proof.
  rewrite generateAIResponse_eq.
  destruct (final_prompt w query results history) as [prompt|e];
    [|cbn; lia].
  pose proof (callGeminiAPI_calls w prompt st) as Hc.
  destruct (callGeminiAPI w prompt st) as [[response|e] st']; exact Hc.
Qed.

Lemma settled_calls r : calls (settled r).2 = calls r.2.
Proof. now destruct r as [[a|e] st]. Qed.

Lemma search_and_answer_total w sanitizedQuery filters history uv N st :
  exists results st1,
    multiSearch w sanitizedQuery (handler_queries sanitizedQuery)
      (handler_filters filters) uv N st = (Ok results, st1)
    /\ search_and_answer w sanitizedQuery filters history uv N st
       = (Ok (results,
              (settled (generateAIResponse w sanitizedQuery results history
                          st1)).1),
          (settled (generateAIResponse w sanitizedQuery results history
                      st1)).2).
Proof.
  unfold search_and_answer.
  fold (handler_queries sanitizedQuery). fold (handler_filters filters).
  set (ms := multiSearch w sanitizedQuery (handler_queries sanitizedQuery)
               (handler_filters filters) uv N).
  assert (Hms : exists results st1, ms st = (Ok results, st1)).
  { unfold ms. rewrite multiSearch_eq. eauto. }
  destruct Hms as (results & st1 & Hms).
  exists results, st1. split; [exact Hms|].
  unfold try_catch at 1. rewrite (bind_ok _ _ _ _ _ Hms).
  unfold try_catch, bind, ret.
  now destruct (generateAIResponse w sanitizedQuery results history st1)
    as [[answer|e] st2].
Qed.

Lemma nonempty_length s : s <> "" -> (String.length s =? 0) = false.
Proof. destruct s; [congruence|reflexivity]. Qed.

Lemma sanitized_accepted q :
  sanitizeInput q <> "" ->
  (String.eqb (sanitizeInput q) ""
   || (String.length (trim (sanitizeInput q)) =? 0)) = false.
Proof.
  intros Hne. rewrite sanitizeInput_trimmed, (nonempty_length _ Hne).
  rewrite orb_false_r. now apply String.eqb_neq.
Qed.

(** A request with a query that is not empty after sanitisation and a chat
    history that is not [null] is searched for and answered, whatever the
    collaborators do: with success if its hits have a content each. *)
Lemma handleQuery_accepts w body q history st :
  query body = Some q ->
  sanitizeInput q <> "" ->
  history_of body = Some history ->
  let sq := sanitizeInput q in
  let st0 := (Date_now st).2 in
  exists results st1 answer st2 t,
    multiSearch w sq (handler_queries sq) (handler_filters (filters body))
      (default true (useVectorSearch body)) (default 10%Z (maxResults body))
      st0 = (Ok results, st1)
    /\ settled (generateAIResponse w sq results history st1) = (answer, st2)
    /\ handleQuery w (Some body) st
       = (Ok match convertToDocumentSources results with
             | Ok sources =>
                 createSuccessResponse
                   {| answer := answer;
                      sources := sources;
                      totalHits := length results;
                      queryTime := t;
                      expandedQuery := expandUserQuery sq |}
             | Throw _ => internal_error
             end,
          (Date_now st2).2).
Proof.
  intros Hq Hne Hhist sq st0.
  destruct (search_and_answer_total w sq (filters body) history
              (default true (useVectorSearch body))
              (default 10%Z (maxResults body)) st0)
    as (results & st1 & Hms & Hsa).
  destruct (settled (generateAIResponse w sq results history st1))
    as [answer st2] eqn:Hgen.
  exists results, st1, answer, st2. eexists. split; [exact Hms|].
  split; [exact Hgen|].
  unfold handleQuery, try_catch. rewrite Hq. fold sq.
  unfold sq at 1 2. rewrite (sanitized_accepted _ Hne). fold sq.
  unfold history_of in Hhist.
  destruct (default (Messages []) (chatHistory body)) as [|messages];
    [discriminate|].
  injection Hhist as ->.
  unfold bind at 1. unfold Date_now at 1.
  unfold st0, Date_now in Hsa. cbn [snd fst] in Hsa.
  unfold bind at 1. rewrite Hsa. cbn [fst snd].
  unfold bind at 1. unfold Date_now at 1.
  unfold bind, of_result, ret.
  destruct (convertToDocumentSources results) as [sources|e]; reflexivity.
Qed.

(** An empty query is refused before any collaborator is called: the call
    log is the one the handler started with. *)
Lemma handleQuery_rejects_empty w body q st :
  query body = Some q ->
  sanitizeInput q = "" ->
  handleQuery w (Some body) st
  = (Ok (createErrorResponse "Query is required" 400), st).
Proof.
  intros Hq He. unfold handleQuery, try_catch. now rewrite Hq, He.
Qed.

(** A chat history that is [null] ends the handler before its search. *)
Lemma handleQuery_null_history w body q st :
  query body = Some q ->
  sanitizeInput q <> "" ->
  history_of body = None ->
  handleQuery w (Some body) st = (Ok internal_error, st).
Proof.
  intros Hq Hne Hhist. unfold handleQuery, try_catch. rewrite Hq.
  rewrite (sanitized_accepted _ Hne). unfold history_of in Hhist.
  now destruct (default (Messages []) (chatHistory body)).
Qed.

Lemma map_result_length {A B} (f : nat -> A -> Result B) l :
  forall index ys, map_result f index l = Ok ys -> length ys = length l.
Proof.
  induction l as [|x l IH]; intros index ys; cbn [map_result].
  - now intros [= <-].
  - destruct (f index x) as [y|e]; [|discriminate].
    destruct (map_result f (S index) l) as [ys'|e] eqn:Hl; [|discriminate].
    intros [= <-]. cbn. f_equal. eapply IH, Hl.
Qed.

Lemma map_result_ok {A B} (f : nat -> A -> Result B) l :
  forall index,
    Forall (fun x => forall i, exists y, f i x = Ok y) l ->
    exists ys, map_result f index l = Ok ys.
Proof.
  induction l as [|x l IH]; intros index Hall; cbn [map_result]; [eauto|].
  apply Forall_cons in Hall as [Hx Hl].
  destruct (Hx index) as [y ->].
  destruct (IH (S index) Hl) as [ys ->]. eauto.
Qed.

Lemma map_result_throw {A B} (f : nat -> A -> Result B) l :
  forall index,
    Exists (fun x => forall i, exists e, f i x = Throw e) l ->
    exists e, map_result f index l = Throw e.
Proof.
  induction l as [|x l IH]; intros index Hex; cbn [map_result].
  - now apply Exists_nil in Hex.
  - apply Exists_cons in Hex as [Hx|Hl].
    + destruct (Hx index) as [e ->]. eauto.
    + destruct (f index x) as [y|e]; [|eauto].
      destruct (IH (S index) Hl) as [e ->]. eauto.
Qed.

Lemma convertToDocumentSources_ok results :
  Forall (fun doc => is_Some (doc_content doc)) results ->
  exists sources,
    convertToDocumentSources results = Ok sources
    /\ length sources = length results.
Proof.
  intros Hall.
  destruct (map_result_ok source_of_document results 0) as [sources Hs].
  { eapply Forall_impl; [exact Hall|]. intros doc [content Hc] i.
    unfold source_of_document. rewrite Hc. eauto. }
  exists sources. split; [exact Hs|]. eapply map_result_length, Hs.
Qed.

Lemma convertToDocumentSources_throws results :
  Exists (fun doc => doc_content doc = None) results ->
  exists e, convertToDocumentSources results = Throw e.
Proof.
  intros Hex. apply map_result_throw.
  eapply Exists_impl; [exact Hex|]. intros doc Hc i.
  unfold source_of_document. rewrite Hc. eauto.
Qed.

(** *** The hits of an index whose documents have a content *)

Lemma fold_merge_hit_from flat : forall acc x,
  x ∈ (fold_left merge_hit flat acc).2 -> x ∈ acc.2 \/ x ∈ flat.
Proof.
  induction flat as [|r flat IH]; intros acc x; cbn [fold_left]; [auto|].
  intros [Hin|Hin]%IH.
  - rewrite merge_hit_snd in Hin. apply elem_of_app in Hin as [Hin|Hin];
      [now left|].
    destruct (bool_decide _); [now apply elem_of_nil in Hin|].
    apply list_elem_of_singleton in Hin as ->. right. left.
  - right. now right.
Qed.

Lemma slice0_from {A} (e : Z) (l : list A) x : x ∈ slice0 e l -> x ∈ l.
Proof.
  unfold slice0. intros [i Hi]%list_elem_of_lookup.
  apply lookup_take_Some in Hi as [Hi _].
  eapply list_elem_of_lookup_2, Hi.
Qed.

Lemma elasticsearchRequest_reply w endpoint body st j st' :
  elasticsearchRequest w endpoint body st = (Ok j, st') ->
  exists response,
    elastic_fetch w endpoint body = FetchResolves response
    /\ body_json response = Some j.
Proof.
  unfold elasticsearchRequest, bind, log_call, throw, ret.
  destruct (elastic_fetch w endpoint body) as [e|response]; [discriminate|].
  destruct (negb (ok response)); [discriminate|].
  destruct (body_json response) as [j'|] eqn:Hj; [|discriminate].
  intros [= <- _]. now exists response.
Qed.

Lemma search_query_content w q filters uv topK st results st' :
  hits_have_content w ->
  search_query w q filters uv topK st = (Ok results, st') ->
  Forall (fun doc => is_Some (doc_content doc)) results.
Proof.
  intros Hw.
  assert (Hreq : forall body s results' s',
            bind (elasticsearchRequest w
                    ("/" +:+ INDEX_NAME w +:+ "/_search") body)
              (fun response => ret (hits_of response)) s
            = (Ok results', s') ->
            Forall (fun doc => is_Some (doc_content doc)) results').
  { intros body s results' s'. unfold bind at 1.
    destruct (elasticsearchRequest w _ body s) as [[j|e] s1] eqn:Hr;
      [|discriminate].
    intros [= <- _].
    apply elasticsearchRequest_reply in Hr as (response & Hf & Hj).
    eapply Hw; eauto. }
  assert (Ht : forall s results' s',
            textSearchDocuments w q filters topK s = (Ok results', s') ->
            Forall (fun doc => is_Some (doc_content doc)) results').
  { intros s results' s'. unfold textSearchDocuments, try_catch.
    destruct (bind (elasticsearchRequest w _ _) _ s)
      as [[r|e] s1] eqn:Hr; [|discriminate].
    intros [= <- _]. eapply Hreq, Hr. }
  destruct uv; [|apply Ht].
  destruct (generateEmbedding_total w q st) as (emb & st1 & Hemb & _).
  rewrite (search_query_vector _ _ _ _ _ _ _ Hemb).
  destruct (hybridSearchDocuments w q emb filters topK st1)
    as [[[|r rs]|e] st2] eqn:Hh; [apply Ht| |discriminate].
  intros [= <- _]. revert Hh. unfold hybridSearchDocuments, try_catch.
  destruct (bind (elasticsearchRequest w _ _) _ st1)
    as [[r'|e] s1] eqn:Hr; [|discriminate].
  intros [= <- _]. eapply Hreq, Hr.
Qed.

Lemma fan_out_content w filters uv topK qs : forall st,
  hits_have_content w ->
  Forall (fun doc => is_Some (doc_content doc))
    (concat (fan_out w qs filters uv topK st).1).
Proof.
  induction qs as [|q qs IH]; intros st Hw; cbn [fan_out]; [constructor|].
  destruct (search_query w q filters uv topK st) as [[results|e] st'] eqn:Hq.
  - specialize (IH st' Hw).
    destruct (fan_out w qs filters uv topK st') as [rest st''].
    cbn [fst concat] in *. apply Forall_app. split; [|exact IH].
    eapply search_query_content; eauto.
  - now apply IH.
Qed.

Lemma multiSearch_content w userQuery qs filters uv N st results st' :
  hits_have_content w ->
  multiSearch w userQuery qs filters uv N st = (Ok results, st') ->
  Forall (fun doc => is_Some (doc_content doc)) results.
Proof.
  intros Hw. rewrite multiSearch_eq. intros [= <- _].
  apply Forall_forall. intros doc Hin%slice0_from.
  apply fold_merge_hit_from in Hin as [Hin|Hin];
    [now apply elem_of_nil in Hin|].
  pose proof (fan_out_content w filters uv (Z.max 3 (N / 2)) (take 6 qs) st Hw)
    as Hall.
  rewrite Forall_forall in Hall. now apply Hall.
Qed.

Lemma search_query_calls w q filters uv topK st :
  length (calls st) < length (calls (search_query w q filters uv topK st).2).
Proof.
  destruct uv.
  - destruct (generateEmbedding_total w q st) as (emb & st1 & Hemb & Hle).
    rewrite (search_query_vector _ _ _ _ _ _ _ Hemb).
    pose proof (hybridSearchDocuments_calls w q emb filters topK st1) as Hh.
    destruct (hybridSearchDocuments w q emb filters topK st1)
      as [[[|r rs]|e] st2]; cbn [snd] in Hh |- *.
    + rewrite textSearchDocuments_calls, Hh, !length_app. simpl. lia.
    + rewrite Hh, length_app. simpl. lia.
    + rewrite Hh, length_app. simpl. lia.
  - unfold search_query. rewrite textSearchDocuments_calls, length_app.
    simpl. lia.
Qed.

Lemma fan_out_calls w filters uv topK qs : forall st,
  length (calls st) <= length (calls (fan_out w qs filters uv topK st).2).
Proof.
  induction qs as [|q qs IH]; intros st; simpl; [lia|].
  pose proof (search_query_calls w q filters uv topK st) as Hq.
  destruct (search_query w q filters uv topK st) as [[results|e] st'];
    cbn [snd] in Hq.
  - specialize (IH st').
    destruct (fan_out w qs filters uv topK st') as [rest st'']. simpl in *.
    lia.
  - specialize (IH st'). lia.
Qed.

Lemma fan_out_calls_cons w filters uv topK q qs st :
  length (calls st)
  < length (calls (fan_out w (q :: qs) filters uv topK st).2).
Proof.
  simpl.
  pose proof (search_query_calls w q filters uv topK st) as Hq.
  destruct (search_query w q filters uv topK st) as [[results|e] st'];
    cbn [snd] in Hq;
    pose proof (fan_out_calls w filters uv topK qs st') as Hr.
  - destruct (fan_out w qs filters uv topK st') as [rest st'']. simpl in *.
    lia.
  - lia.
Qed.

Lemma multiSearch_calls w userQuery q qs filters uv N st :
  length (calls st)
  < length (calls (multiSearch w userQuery (q :: qs) filters uv N st).2).
Proof.
  rewrite multiSearch_eq. cbn [snd].
  change (take 6 (q :: qs)) with (q :: take 5 qs).
  apply fan_out_calls_cons.
Qed.

(** C2 at the failing input: a query of 1001 characters, beyond the
    [maxLength] of [querySchema], is not refused.  Whatever the collaborators
    do, the handler answers it with status 200 or 500, not with a client
    error, and it has called at least one collaborator by then; with an
    index whose hits have a content each, it answers with status 200 and
    [success: true]. *)
Theorem oversized_query_is_processed w st :
  String.length long_query = 1001
  /\ exists response st',
       handleQuery w (Some (ask long_query)) st = (Ok response, st')
       /\ (resp_status response = 200 \/ resp_status response = 500)
       /\ length (calls st) < length (calls st')
       /\ (hits_have_content w ->
           exists data,
             response = createSuccessResponse data
             /\ resp_status (createSuccessResponse data) = 200
             /\ resp_success (createSuccessResponse data) = true).
Proof.
  split; [vm_compute; reflexivity|].
  assert (Hs : sanitizeInput long_query = long_query)
    by (vm_compute; reflexivity).
  destruct (handleQuery_accepts w (ask long_query) long_query [] st eq_refl)
    as (results & st1 & answer & st2 & t & Hms & Hgen & Hh);
    [rewrite Hs; vm_compute; discriminate|reflexivity|].
  eexists _, _. split; [exact Hh|]. split; [|split].
  - destruct (convertToDocumentSources results); [now left|now right].
  - pose proof (generateAIResponse_calls w (sanitizeInput long_query) results
                  [] st1) as Hle.
    rewrite <- settled_calls, Hgen in Hle. cbn [snd] in Hle.
    unfold handler_queries in Hms.
    match type of Hms with
    | multiSearch ?w' ?u' (?q' :: ?qs') ?f' ?uv' ?n' ?s' = _ =>
        pose proof (multiSearch_calls w' u' q' qs' f' uv' n' s') as Hf
    end.
    rewrite Hms in Hf. cbn [snd] in Hf.
    assert (Hd : forall s, calls (Date_now s).2 = calls s) by reflexivity.
    rewrite Hd in Hf |- *. lia.
  - intros Hw.
    destruct (convertToDocumentSources_ok results) as (sources & -> & _);
      [eapply multiSearch_content; eauto|].
    eexists. repeat split.
Qed.

(** ** Synthesis failures *)

Lemma callGeminiAPI_eq w prompt st :
  callGeminiAPI w prompt st
  = match gemini_url w with
    | None => (Throw "Gemini API configuration missing", st)
    | Some url =>
        let st' := {| calls := calls st ++ [CallGemini url prompt];
                      random_stream := random_stream st;
                      clock_stream := clock_stream st |} in
        match gemini_fetch w url prompt with
        | FetchRejects e => (Throw e, st')
        | FetchResolves response =>
            if ok response then
              match body_json response with
              | Some result =>
                  (Ok (default (Text unable_apology)
                         (truthy_answer (candidate_text result))), st')
              | None => (Throw "Unexpected token in JSON", st')
              end
            else
              (Throw ("Gemini API request failed: "
                      +:+ nat_to_string (status response) +:+ " - "
                      +:+ body_text response), st')
        end
    end.
Proof.
  unfold callGeminiAPI, gemini_url, gemini_config, gemini_post, log_call,
    try_catch, bind, ret, throw.
  destruct (truthy (env_GEMINI_API_KEY w)) as [key|]; [|reflexivity].
  destruct (truthy (env_GEMINI_API_URL w)) as [url|]; [|reflexivity].
  cbn [fst snd].
  destruct (gemini_fetch w (url +:+ "?key=" +:+ key) prompt) as [e|response];
    [reflexivity|].
  destruct (ok response); cbn [negb]; [|reflexivity].
  destruct (body_json response); reflexivity.
Qed.








(** With the model down, the question still gets its source. *)
Lemma model_down_run :
  (handleQuery model_down (Some (ask "alpha")) start).1
  = Ok {| resp_status := 200;
          resp_success := true;
          resp_data :=
            Some {| answer := Text processing_apology;
                    sources := sources_of [as_hit doc_a];
                    totalHits := 1;
                    queryTime := 1;
                    expandedQuery := expandUserQuery "alpha" |};
          resp_error := None |}.
Proof. vm_compute. reflexivity. Qed.

(** ** The compact revenue block *)

Lemma fold_add_to_lookup l : forall (acc : gmap string number) y,
  fold_left add_to l acc !! y
  = match values_for y l with
    | [] => acc !! y
    | vs => Some (fold_left add_on vs (default number_zero (acc !! y)))
    end.
Proof.
  unfold values_for.
  induction l as [|[y' v] l IH]; intros acc y; simpl; [reflexivity|].
  rewrite IH. unfold add_to at 1 2. cbn [fst snd].
  rewrite filter_cons. cbn [fst].
  destruct (decide (y' = y)) as [->|Hne].
  - rewrite lookup_insert_eq, fmap_cons. cbn [snd].
    destruct ((filter (fun yv => yv.1 = y) l).*2); reflexivity.
  - now rewrite lookup_insert_ne.
Qed.

Lemma fold_revenue_row monthIdx revenueIdx rows : forall acc,
  fold_left (revenue_row monthIdx revenueIdx) rows acc
  = fold_left add_to (omap (revenue_of_row monthIdx revenueIdx) rows) acc.
Proof.
  induction rows as [|row rows IH]; intros acc; simpl; [reflexivity|].
  rewrite IH. unfold revenue_row.
  destruct (revenue_of_row monthIdx revenueIdx row); reflexivity.
Qed.

Lemma extractRevenue_lookup content y :
  extractRevenueByYearFromCsvContent content !! y
  = total (values_for y (revenue_rows content)).
Proof.
  unfold extractRevenueByYearFromCsvContent, revenue_rows.
  destruct (findIndex _ (List.filter non_empty _)) as [headerIdx|];
    [|reflexivity].
  destruct (findIndex (test true revenue_re) _) as [revenueIdx|];
    [|reflexivity].
  rewrite fold_revenue_row, fold_add_to_lookup, lookup_empty.
  unfold total. now destruct (values_for y _).
Qed.






(** *** Rounding never gives NaN *)












(** ** The planner *)

Lemma fold_set_add_extends l : forall acc,
  exists more, fold_left set_add l acc = acc ++ more.
Proof.
  induction l as [|x l IH]; intros acc; simpl.
  - exists []. now rewrite app_nil_r.
  - destruct (IH (set_add acc x)) as [more ->]. unfold set_add.
    destruct (bool_decide (x ∈ acc)); [eauto|].
    rewrite <- app_assoc. eauto.
Qed.

Lemma array_from_set_head x l : exists rest, array_from_set (x :: l) = x :: rest.
Proof.
  unfold array_from_set. simpl.
  destruct (fold_set_add_extends l (set_add [] x)) as [more ->].
  now exists more.
Qed.

Lemma fold_set_add_elem l : forall acc x,
  x ∈ fold_left set_add l acc <-> x ∈ acc \/ x ∈ l.
Proof.
  induction l as [|a l IH]; intros acc x; simpl.
  - rewrite elem_of_nil. tauto.
  - rewrite IH, elem_of_cons. unfold set_add.
    destruct (bool_decide_reflect (a ∈ acc)) as [Hin|Hout].
    + split; [tauto|]. intros [H|[->|H]]; auto.
    + rewrite elem_of_app, list_elem_of_singleton. tauto.
Qed.

Lemma array_from_set_elem l x : x ∈ array_from_set l <-> x ∈ l.
Proof.
  unfold array_from_set. rewrite fold_set_add_elem, elem_of_nil. tauto.
Qed.

Lemma last_or_cons prev c pre : last_or prev (c :: pre) = last_or (Some c) pre.
Proof.
  unfold last_or. destruct pre as [|a pre]; [reflexivity|].
  change (last (c :: a :: pre)) with (last (a :: pre)).
  destruct (last (a :: pre)) eqn:Hl; [reflexivity|].
  now apply last_None in Hl.
Qed.

(** Every match that a scan reports is a match at some position of the
    text, with the character before that position as its left context. *)
Lemma scan_sound ci r f : forall rest prev pos skip,
  f ∈ scan ci r prev rest pos skip ->
  exists pre suf,
    rest = pre ++ suf
    /\ match_at ci r (last_or prev pre) suf (pos + length pre) = Some f.
Proof.
  assert (Hstep : forall c rest' prev pos,
    (exists pre suf, rest' = pre ++ suf
       /\ match_at ci r (last_or (Some c) pre) suf (S pos + length pre)
          = Some f) ->
    exists pre suf, c :: rest' = pre ++ suf
       /\ match_at ci r (last_or prev pre) suf (pos + length pre) = Some f).
  { intros c rest' prev pos (pre & suf & -> & Hm).
    exists (c :: pre), suf. split; [reflexivity|].
    rewrite last_or_cons. simpl. now rewrite Nat.add_succ_r. }
  induction rest as [|c rest IH]; intros prev pos skip Hf.
  - destruct skip; simpl in Hf; [|now apply elem_of_nil in Hf].
    destruct (match_at ci r prev [] pos) as [f0|] eqn:Hm;
      [|now apply elem_of_nil in Hf].
    apply list_elem_of_singleton in Hf. subst f0.
    exists [], []. split; [reflexivity|].
    unfold last_or. simpl. now rewrite Nat.add_0_r.
  - destruct skip as [|n]; simpl in Hf.
    + destruct (match_at ci r prev (c :: rest) pos) as [f0|] eqn:Hm.
      * apply elem_of_cons in Hf as [->|Hf].
        -- exists [], (c :: rest). split; [reflexivity|].
           unfold last_or. simpl. now rewrite Nat.add_0_r.
        -- apply Hstep. eapply IH, Hf.
      * apply Hstep. eapply IH, Hf.
    + apply Hstep. eapply IH, Hf.
Qed.

Lemma lower_digit c : is_digit (lower_char c) = true -> lower_char c = c.
Proof. destruct c as [[] [] [] [] [] [] [] []]; vm_compute; congruence. Qed.

Lemma lower_word c : is_word (lower_char c) = is_word c.
Proof. destruct c as [[] [] [] [] [] [] [] []]; reflexivity. Qed.

Lemma digit_is_word c : is_digit c = true -> is_word c = true.
Proof. unfold is_word. now intros ->. Qed.

Lemma digit_value_range c :
  is_digit c = true -> (0 <= digit_value c <= 9)%Z.
Proof.
  unfold is_digit, between, digit_value.
  rewrite andb_true_iff, !N.leb_le. lia.
Qed.

Lemma eqb_digit a c : Ascii.eqb a c = true -> is_digit a = true -> is_digit c = true.
Proof. intros H%Ascii.eqb_eq. now subst. Qed.

Lemma xorb_word_l x y : xorb x y = true -> y = true -> x = false.
Proof. now destruct x, y. Qed.

Lemma xorb_word_r x y : xorb x y = true -> x = true -> y = false.
Proof. now destruct x, y. Qed.

(** What a match of [/\b(19|20)\d{2}\b/] looks like. *)
Lemma year_match prev rest pos f :
  match_at false year_token_re prev rest pos = Some f ->
  exists a b c d tail,
    rest = a :: b :: c :: d :: tail
    /\ f_text f = [a; b; c; d]
    /\ ((a = "1"%char /\ b = "9"%char) \/ (a = "2"%char /\ b = "0"%char))
    /\ is_digit c = true /\ is_digit d = true
    /\ match prev with Some p => is_word p = false | None => True end
    /\ match tail with t :: _ => is_word t = false | [] => True end.
Proof.
  unfold match_at, year_token_re.
  cbn [rmatch lit_k chars list_ascii_of_string step m_rest m_prev m_pos
       m_caps same_char capture].
  destruct (xorb _ _) eqn:Hstart; [|discriminate].
  destruct rest as [|a [|b [|c [|d tail]]]];
    cbn [step m_rest m_prev m_pos m_caps capture];
    repeat match goal with
           | |- context [if ?b then _ else _] => destruct b eqn:?
           end; try discriminate;
    intros [= <-]; cbn [f_text m_pos];
    exists a, b, c, d, tail;
    (replace (S (S (S (S pos))) - pos) with 4 by lia);
    (split; [reflexivity|]); (split; [reflexivity|]).
  all: repeat match goal with
         | H : (_ =? _)%char = true |- _ => apply Ascii.eqb_eq in H; subst
         end.
  all: unfold word_before, word_after in *; cbn [m_prev m_rest] in *.
  all: split; [auto|]; split; [assumption|]; split; [assumption|]; split.
  all: try (destruct prev as [p|]; [|exact I];
            apply (xorb_word_l _ _ Hstart); reflexivity).
  all: destruct tail as [|t tail]; [exact I|];
    match goal with
    | H : xorb (is_word ?x) _ = true |- _ =>
        apply (xorb_word_r _ _ H), digit_is_word; assumption
    end.
Qed.

Lemma map_as_fmap {A B} (f : A -> B) (l : list A) : map f l = f <$> l.
Proof. reflexivity. Qed.

Lemma planner_years_are_tokens q y :
  y ∈ years (planInformationNeeds q) -> year_token q y.
Proof.
  unfold planInformationNeeds. cbn [years].
  rewrite array_from_set_elem. unfold match_all, exec_all.
  rewrite map_as_fmap. intros Hin.
  apply list_elem_of_fmap in Hin as (f & -> & Hf).
  apply scan_sound in Hf as (pre & suf & Hsplit & Hm).
  apply year_match in Hm
    as (a & b & c & d & tail & -> & Htext & Hab & Hc & Hd & Hprev & Htail).
  unfold toLowerCase in Hsplit. rewrite chars_str, map_as_fmap in Hsplit.
  apply fmap_app_inv in Hsplit as (pre0 & suf0 & Hpre & Hsuf & Hq).
  destruct suf0 as [|a0 [|b0 [|c0 [|d0 tail0]]]]; try discriminate.
  injection Hsuf as Ha Hb Hc0 Hd0 Htail0. subst a b c d tail pre.
  assert (Hda : is_digit (lower_char a0) = true)
    by (destruct Hab as [[-> _]|[-> _]]; reflexivity).
  assert (Hdb : is_digit (lower_char b0) = true)
    by (destruct Hab as [[_ ->]|[_ ->]]; reflexivity).
  pose proof (lower_digit a0 Hda) as Ea. pose proof (lower_digit b0 Hdb) as Eb.
  pose proof (lower_digit c0 Hc) as Ec. pose proof (lower_digit d0 Hd) as Ed.
  rewrite Ea in Hda, Hab, Htext. rewrite Eb in Hdb, Hab, Htext.
  rewrite Ec in Hc, Htext. rewrite Ed in Hd, Htext.
  exists pre0, tail0. rewrite Htext, chars_str.
  split; [exact Hq|]. split; [reflexivity|]. split; [|split; [|split]].
  - repeat (apply Forall_cons_2; [assumption|]). apply Forall_nil_2.
  - pose proof (digit_value_range c0 Hc).
    pose proof (digit_value_range d0 Hd).
    unfold digits_value. cbn [fold_left].
    destruct Hab as [[-> ->]|[-> ->]];
      change (digit_value "1") with 1%Z; change (digit_value "9") with 9%Z;
      change (digit_value "2") with 2%Z; change (digit_value "0") with 0%Z;
      lia.
  - unfold last_or in Hprev. rewrite fmap_last in Hprev.
    destruct (last pre0) as [p|]; [|exact I]. cbn in Hprev.
    now rewrite lower_word in Hprev.
  - destruct tail0 as [|t tail0]; [exact I|].
    cbn in Htail. now rewrite lower_word in Htail.
Qed.

Lemma planner_metrics q :
  metrics (planInformationNeeds q) <> []
  /\ (no_metric_keyword q -> metrics (planInformationNeeds q) = ["revenue"]).
Proof.
  unfold planInformationNeeds, no_metric_keyword. cbn [metrics].
  destruct (test true revenue_sales_re q),
    (test true net_income_profit_re q), (test true ebitda_re q),
    (test true assets_re q), (test true liabilities_re q),
    (test true equity_re q);
    (split; [vm_compute; discriminate|]);
    intros (? & ? & ? & ? & ? & ?); try discriminate.
  reflexivity.
Qed.

Lemma planner_first_query q :
  exists rest, searchQueries (planInformationNeeds q) = trim q :: rest.
Proof.
  unfold planInformationNeeds. cbn [searchQueries]. apply array_from_set_head.
Qed.

(** C7: for every question as it reaches the planner — sanitised, hence
    without surrounding white space — the plan has a non-empty list of
    metrics, which is [revenue] alone when no metric keyword occurs; every
    year of the plan is a four-digit token of the question in the range
    1900–2099; and the search queries begin with the question itself. *)
Theorem plan_invariant q :
  trim q = q ->
  metrics (planInformationNeeds q) <> []
  /\ (no_metric_keyword q -> metrics (planInformationNeeds q) = ["revenue"])
  /\ (forall y, y ∈ years (planInformationNeeds q) -> year_token q y)
  /\ exists rest, searchQueries (planInformationNeeds q) = q :: rest.
Proof.
  intros Htrim. destruct (planner_metrics q) as [Hne Hdef].
  split; [exact Hne|]. split; [exact Hdef|]. split.
  - intros y. apply planner_years_are_tokens.
  - destruct (planner_first_query q) as [rest Hrest].
    exists rest. now rewrite Hrest, Htrim.
Qed.

Lemma plan_invariant_witness :
  trim "Compare revenue in 2021 and 2020" = "Compare revenue in 2021 and 2020"
  /\ metrics (planInformationNeeds "Compare revenue in 2021 and 2020") <> []
  /\ (no_metric_keyword "Compare revenue in 2021 and 2020" ->
      metrics (planInformationNeeds "Compare revenue in 2021 and 2020")
      = ["revenue"])
  /\ (forall y,
        y ∈ years (planInformationNeeds "Compare revenue in 2021 and 2020") ->
        year_token "Compare revenue in 2021 and 2020" y)
  /\ exists rest,
       searchQueries (planInformationNeeds "Compare revenue in 2021 and 2020")
       = "Compare revenue in 2021 and 2020" :: rest.
Proof.
  split; [reflexivity|].
  apply (plan_invariant "Compare revenue in 2021 and 2020"). reflexivity.
Defined.

(** The two plans of the specification's examples, and the planner's input
    in the handler. *)
Lemma plan_examples :
  metrics (planInformationNeeds "Tell me about our strategy") = ["revenue"]
  /\ years (planInformationNeeds "Compare revenue in 2021 and 2020")
     = ["2021"; "2020"]
  /\ searchQueries (planInformationNeeds "Compare revenue in 2021 and 2020")
     = ["Compare revenue in 2021 and 2020"; "revenue 2021 2020";
        "revenue 2021"; "revenue 2020"]
  /\ forall raw, trim (sanitizeInput raw) = sanitizeInput raw.
Proof.
  split; [reflexivity|]. split; [reflexivity|]. split; [reflexivity|].
  exact sanitizeInput_trimmed.
Qed.

(** ** Tabular and free-text extraction *)

Lemma findIndex_None {A} (p : A -> bool) l :
  findIndex p l = None <-> forall x, x ∈ l -> p x = false.
Proof.
  induction l as [|a l IH]; simpl.
  - split; [|reflexivity]. intros _ x Hx. now apply elem_of_nil in Hx.
  - destruct (p a) eqn:Ha.
    + split; [discriminate|]. intros H. rewrite H in Ha by left.
      discriminate.
    + destruct (findIndex p l) as [i|]; simpl.
      * split; [discriminate|]. intros H. exfalso.
        assert (Hn : Some i = None); [|discriminate].
        apply (proj2 IH). intros x Hx. apply H. now right.
      * split; [|reflexivity]. intros _ x Hx.
        apply elem_of_cons in Hx as [->|Hx]; [exact Ha|].
        now apply (proj1 IH).
Qed.

Lemma findIndex_Some {A} (p : A -> bool) l : forall i,
  findIndex p l = Some i ->
  exists x, l !! i = Some x /\ p x = true
            /\ forall j y, j < i -> l !! j = Some y -> p y = false.
Proof.
  induction l as [|a l IH]; intros i; simpl; [discriminate|].
  destruct (p a) eqn:Ha.
  - intros [= <-]. exists a. split; [reflexivity|]. split; [exact Ha|].
    intros j y Hj. lia.
  - destruct (findIndex p l) as [i'|]; simpl; [|discriminate].
    intros [= <-]. destruct (IH i' eq_refl) as (x & Hx & Hp & Hfirst).
    exists x. split; [exact Hx|]. split; [exact Hp|].
    intros [|j] y Hj Hy.
    + injection Hy as <-. exact Ha.
    + apply (Hfirst j y); [lia|exact Hy].
Qed.

Lemma document_facts_eq doc :
  document_facts doc
  = match findIndex is_header_line (lines_of (text_of doc)) with
    | Some headerIdx =>
        tabular_facts (source_of doc) (lines_of (text_of doc)) headerIdx
    | None => free_text_facts (source_of doc) (text_of doc)
    end.
Proof. reflexivity. Qed.

(** C10: a document whose content has a header line — a line with a comma
    and a metric keyword — yields exactly the facts of the tabular heuristic,
    read from the first such line on, and the free-text heuristic adds
    nothing to them; a document without such a line yields exactly the
    free-text facts; the facts of a hit list are those of its documents in
    order.  So the sentence of [mixed_content], which alone gives a free-text
    fact, gives none below a header row. *)
Theorem header_line_selects_tabular_heuristic :
  (forall doc,
     has_header_line doc ->
     exists headerIdx l,
       lines_of (text_of doc) !! headerIdx = Some l
       /\ is_header_line l = true
       /\ (forall j l', j < headerIdx ->
             lines_of (text_of doc) !! j = Some l' ->
             is_header_line l' = false)
       /\ document_facts doc
          = tabular_facts (source_of doc) (lines_of (text_of doc))
              headerIdx)
  /\ (forall doc,
        ~ has_header_line doc ->
        document_facts doc
        = free_text_facts (source_of doc) (text_of doc))
  /\ (forall doc docs,
        extractMetricYearFacts (doc :: docs)
        = document_facts doc ++ extractMetricYearFacts docs)
  /\ extractMetricYearFacts [] = []
  /\ free_text_facts "prose" "Revenue in 2021 was 5."
     = [ {| fact_metric := "revenue"; fact_year := "20";
            fact_value := 5; fact_source := "prose" |} ]
  /\ extractMetricYearFacts [prose_doc; mixed_doc]
     = [ {| fact_metric := "revenue"; fact_year := "20";
            fact_value := 5; fact_source := "prose" |};
         {| fact_metric := "revenue"; fact_year := "2021";
            fact_value := 1000; fact_source := "mixed" |} ].
Proof.
  split; [|split; [|split; [|split; [|split]]]].
  - intros doc (l & Hl & Hcomma & Hkey).
    rewrite document_facts_eq.
    destruct (findIndex is_header_line (lines_of (text_of doc)))
      as [headerIdx|] eqn:Hfind.
    + destruct (findIndex_Some _ _ _ Hfind) as (x & Hx & Hp & Hfirst).
      exists headerIdx, x. repeat split; assumption.
    + exfalso. pose proof (proj1 (findIndex_None _ _) Hfind l Hl) as Hno.
      unfold is_header_line in Hno. rewrite Hcomma, Hkey in Hno.
      discriminate.
  - intros doc Hno. rewrite document_facts_eq.
    destruct (findIndex is_header_line (lines_of (text_of doc)))
      as [headerIdx|] eqn:Hfind; [|reflexivity].
    exfalso. apply Hno.
    destruct (findIndex_Some _ _ _ Hfind) as (x & Hx & Hp & _).
    exists x. split; [eapply list_elem_of_lookup_2, Hx|].
    unfold is_header_line in Hp. now apply andb_true_iff in Hp.
  - reflexivity.
  - reflexivity.
  - vm_compute. reflexivity.
  - vm_compute. reflexivity.
Qed.

Lemma header_line_selects_tabular_heuristic_witness :
  has_header_line mixed_doc
  /\ ~ has_header_line prose_doc
  /\ (exists headerIdx l,
        lines_of (text_of mixed_doc) !! headerIdx = Some l
        /\ is_header_line l = true
        /\ (forall j l', j < headerIdx ->
              lines_of (text_of mixed_doc) !! j = Some l' ->
              is_header_line l' = false)
        /\ document_facts mixed_doc
           = tabular_facts (source_of mixed_doc)
               (lines_of (text_of mixed_doc)) headerIdx)
  /\ document_facts prose_doc
     = free_text_facts (source_of prose_doc) (text_of prose_doc).
Proof.
  assert (Hmixed : has_header_line mixed_doc).
  { exists "Month,Revenue". split; [|split; reflexivity].
    assert (lines_of (text_of mixed_doc)
            = ["Month,Revenue"; "Jan-2021,1000"; "Revenue in 2021 was 5."])
      as -> by reflexivity.
    left. }
  assert (Hprose : ~ has_header_line prose_doc).
  { intros (l & Hl & Hcomma & _).
    assert (lines_of (text_of prose_doc) = ["Revenue in 2021 was 5."])
      as Hlines by reflexivity.
    rewrite Hlines in Hl. apply list_elem_of_singleton in Hl. subst l.
    vm_compute in Hcomma. discriminate. }
  split; [exact Hmixed|]. split; [exact Hprose|]. split.
  - exact (proj1 header_line_selects_tabular_heuristic mixed_doc Hmixed).
  - exact (proj1 (proj2 header_line_selects_tabular_heuristic) prose_doc
             Hprose).
Defined.

(** ** Determinism *)

Section Stateless.
Context {A B : Type}.

Lemma stateless_ret (a : A) : stateless (ret a).
Proof. intros st st'. reflexivity. Qed.

Lemma stateless_throw (e : string) : stateless (@throw St A e).
Proof. intros st st'. reflexivity. Qed.

Lemma stateless_bind (m : M St A) (k : A -> M St B) :
  stateless m -> (forall a, stateless (k a)) -> stateless (bind m k).
Proof.
  intros Hm Hk st st'. unfold bind. specialize (Hm st st').
  destruct (m st) as [[a|e] st1], (m st') as [[a'|e'] st1'];
    simpl in Hm; try discriminate; injection Hm as <-; [apply Hk|reflexivity].
Qed.

Lemma stateless_try_catch (m : M St A) (h : string -> M St A) :
  stateless m -> (forall e, stateless (h e)) -> stateless (try_catch m h).
Proof.
  intros Hm Hh st st'. unfold try_catch. specialize (Hm st st').
  destruct (m st) as [[a|e] st1], (m st') as [[a'|e'] st1'];
    simpl in Hm; try discriminate; injection Hm as <-; [reflexivity|apply Hh].
Qed.
End Stateless.

Lemma stateless_log_call c : stateless (log_call c).
Proof. intros st st'. reflexivity. Qed.

Create HintDb stateless.
#[local] Hint Resolve stateless_ret stateless_throw stateless_log_call
  : stateless.
#[local] Hint Extern 2 (stateless (bind _ _)) =>
  apply stateless_bind; [|intro] : stateless.
#[local] Hint Extern 2 (stateless (try_catch _ _)) =>
  apply stateless_try_catch; [|intro] : stateless.

Lemma stateless_elasticsearchRequest w endpoint body :
  stateless (elasticsearchRequest w endpoint body).
Proof.
  unfold elasticsearchRequest.
  apply stateless_bind; [auto with stateless|]. intros _.
  destruct (elastic_fetch w endpoint body) as [e|response];
    [auto with stateless|].
  destruct (negb (ok response)); [auto with stateless|].
  destruct (body_json response); auto with stateless.
Qed.

#[local] Hint Resolve stateless_elasticsearchRequest : stateless.

Lemma stateless_hybridSearchDocuments w q embedding filters size :
  stateless (hybridSearchDocuments w q embedding filters size).
Proof. unfold hybridSearchDocuments. auto with stateless. Qed.

Lemma stateless_textSearchDocuments w q filters size :
  stateless (textSearchDocuments w q filters size).
Proof. unfold textSearchDocuments. auto with stateless. Qed.

#[local] Hint Resolve stateless_hybridSearchDocuments
  stateless_textSearchDocuments : stateless.

Lemma generateEmbedding_eq w text st :
  generateEmbedding w text st
  = match gemini_url w with
    | None => (Ok (repeat 0%Q 768), st)
    | Some url =>
        let request := "Generate embedding for: " +:+ substring0 1000 text in
        let st' := {| calls := calls st ++ [CallGemini url request];
                      random_stream := random_stream st;
                      clock_stream := clock_stream st |} in
        match gemini_fetch w url request with
        | FetchRejects _ => (Ok (repeat 0%Q 768), st')
        | FetchResolves response =>
            if ok response then
              match random_vector 768 st' with
              | (Ok v, st'') => (Ok v, st'')
              | (Throw _, st'') => (Ok (repeat 0%Q 768), st'')
              end
            else (Ok (repeat 0%Q 768), st')
        end
    end.
Proof.
  unfold generateEmbedding, gemini_url, gemini_config, gemini_post, log_call,
    try_catch, bind, ret, throw.
  destruct (truthy (env_GEMINI_API_KEY w)) as [key|]; [|reflexivity].
  destruct (truthy (env_GEMINI_API_URL w)) as [url|]; [|reflexivity].
  cbn [fst snd].
  destruct (gemini_fetch w (url +:+ "?key=" +:+ key) _) as [e|response];
    [reflexivity|].
  destruct (ok response); cbn [negb]; reflexivity.
Qed.

(** Without a working embedding service every embedding is the zero
    vector, whatever the random generator holds. *)
Lemma stateless_generateEmbedding w text :
  embedding_unavailable w -> stateless (generateEmbedding w text).
Proof.
  intros Hun st st'. rewrite !generateEmbedding_eq.
  unfold embedding_unavailable in Hun.
  destruct (gemini_url w) as [url|]; [|reflexivity].
  specialize (Hun text). cbn zeta.
  destruct (gemini_fetch w url _) as [e|response]; [reflexivity|].
  now rewrite Hun.
Qed.

Lemma stateless_search_query w q filters uv topK :
  uv = false \/ embedding_unavailable w ->
  stateless (search_query w q filters uv topK).
Proof.
  intros H. unfold search_query. destruct uv; [|auto with stateless].
  destruct H as [H|H]; [discriminate|].
  apply stateless_bind; [now apply stateless_generateEmbedding|].
  intros embedding. apply stateless_bind; [auto with stateless|].
  intros results. destruct (length results =? 0); auto with stateless.
Qed.

Lemma stateless_search_loop w filters uv topK qs :
  uv = false \/ embedding_unavailable w ->
  forall acc, stateless (search_loop w qs filters uv topK acc).
Proof.
  intros H. induction qs as [|q qs IH]; intros acc; cbn [search_loop];
    [auto with stateless|].
  apply stateless_bind.
  - apply stateless_try_catch; [|auto with stateless].
    apply stateless_bind; [now apply stateless_search_query|].
    auto with stateless.
  - intros [results|]; apply IH.
Qed.

Lemma stateless_multiSearch w userQuery qs filters uv N :
  uv = false \/ embedding_unavailable w ->
  stateless (multiSearch w userQuery qs filters uv N).
Proof.
  intros H. unfold multiSearch.
  apply stateless_bind; [now apply stateless_search_loop|].
  auto with stateless.
Qed.

Lemma stateless_callGeminiAPI w prompt : stateless (callGeminiAPI w prompt).
Proof.
  intros st st'. rewrite !callGeminiAPI_eq.
  destruct (gemini_url w) as [url|]; [|reflexivity]. cbn zeta.
  destruct (gemini_fetch w url prompt) as [e|response]; [reflexivity|].
  destruct (ok response); [|reflexivity].
  destruct (body_json response); reflexivity.
Qed.

Lemma stateless_generateAIResponse w query results history :
  stateless (generateAIResponse w query results history).
Proof.
  intros st st'. rewrite !generateAIResponse_eq.
  destruct (final_prompt w query results history) as [prompt|e];
    [|reflexivity].
  pose proof (stateless_callGeminiAPI w prompt st st') as H.
  destruct (callGeminiAPI w _ st) as [[a|e] st1],
    (callGeminiAPI w _ st') as [[a'|e'] st1'];
    simpl in H; try discriminate; [now injection H as <-|reflexivity].
Qed.

(** *** The same draws *)

Section ByDraws.
Context {A B : Type}.

Lemma by_draws_ret (a : A) : by_draws (ret a).
Proof. intros st st' H. now split. Qed.

Lemma by_draws_throw (e : string) : by_draws (@throw St A e).
Proof. intros st st' H. now split. Qed.

Lemma by_draws_bind (m : M St A) (k : A -> M St B) :
  by_draws m -> (forall a, by_draws (k a)) -> by_draws (bind m k).
Proof.
  intros Hm Hk st st' H. unfold bind. destruct (Hm st st' H) as [Hr Hs].
  destruct (m st) as [[a|e] st1], (m st') as [[a'|e'] st1'];
    simpl in Hr, Hs; try discriminate; injection Hr as <-;
    [now apply Hk|now split].
Qed.

Lemma by_draws_try_catch (m : M St A) (h : string -> M St A) :
  by_draws m -> (forall e, by_draws (h e)) -> by_draws (try_catch m h).
Proof.
  intros Hm Hh st st' H. unfold try_catch. destruct (Hm st st' H) as [Hr Hs].
  destruct (m st) as [[a|e] st1], (m st') as [[a'|e'] st1'];
    simpl in Hr, Hs; try discriminate; injection Hr as <-;
    [now split|now apply Hh].
Qed.
End ByDraws.

Lemma by_draws_log_call c : by_draws (log_call c).
Proof. intros st st' H. now split. Qed.

Lemma by_draws_Math_random : by_draws Math_random.
Proof.
  intros st st' H. split; [cbn; f_equal; apply H|].
  intros n. cbn. apply H.
Qed.

Create HintDb by_draws.
#[local] Hint Resolve by_draws_ret by_draws_throw by_draws_log_call
  by_draws_Math_random : by_draws.
#[local] Hint Extern 2 (by_draws (bind _ _)) =>
  apply by_draws_bind; [|intro] : by_draws.
#[local] Hint Extern 2 (by_draws (try_catch _ _)) =>
  apply by_draws_try_catch; [|intro] : by_draws.

Lemma by_draws_random_vector n : by_draws (random_vector n).
Proof. induction n as [|n IH]; cbn [random_vector]; auto with by_draws. Qed.

Lemma by_draws_elasticsearchRequest w endpoint body :
  by_draws (elasticsearchRequest w endpoint body).
Proof.
  unfold elasticsearchRequest.
  apply by_draws_bind; [auto with by_draws|]. intros _.
  destruct (elastic_fetch w endpoint body) as [e|response];
    [auto with by_draws|].
  destruct (negb (ok response)); [auto with by_draws|].
  destruct (body_json response); auto with by_draws.
Qed.

#[local] Hint Resolve by_draws_random_vector by_draws_elasticsearchRequest
  : by_draws.

Lemma by_draws_generateEmbedding w text : by_draws (generateEmbedding w text).
Proof.
  unfold generateEmbedding.
  apply by_draws_try_catch; [|auto with by_draws].
  apply by_draws_bind.
  - unfold gemini_config.
    destruct (truthy (env_GEMINI_API_KEY w)), (truthy (env_GEMINI_API_URL w));
      auto with by_draws.
  - intros cfg. apply by_draws_bind.
    + unfold gemini_post. apply by_draws_bind; [auto with by_draws|].
      intros _. destruct (gemini_fetch w _ _); auto with by_draws.
    + intros response. destruct (negb (ok response)); auto with by_draws.
Qed.

Lemma by_draws_search_query w q filters uv topK :
  by_draws (search_query w q filters uv topK).
Proof.
  unfold search_query, hybridSearchDocuments, textSearchDocuments.
  destruct uv; [|auto with by_draws].
  apply by_draws_bind; [apply by_draws_generateEmbedding|].
  intros embedding. apply by_draws_bind; [auto with by_draws|].
  intros results. destruct (length results =? 0); auto with by_draws.
Qed.

Lemma by_draws_search_loop w filters uv topK qs :
  forall acc, by_draws (search_loop w qs filters uv topK acc).
Proof.
  induction qs as [|q qs IH]; intros acc; cbn [search_loop];
    [auto with by_draws|].
  apply by_draws_bind.
  - apply by_draws_try_catch; [|auto with by_draws].
    apply by_draws_bind; [apply by_draws_search_query|].
    auto with by_draws.
  - intros [results|]; apply IH.
Qed.

Lemma by_draws_multiSearch w userQuery qs filters uv N :
  by_draws (multiSearch w userQuery qs filters uv N).
Proof.
  unfold multiSearch.
  apply by_draws_bind; [apply by_draws_search_loop|].
  auto with by_draws.
Qed.

(** C8, as stated, fails: the same request is run twice against the same
    collaborators, once with a random generator that draws 3/4 and once with
    one that draws 1/4.  The embedding is drawn from [Math.random], the index
    answers by the embedding, and the two runs cite different sources. *)
Lemma random_embedding_breaks_determinism :
  (observable
     (handleQuery by_embedding (Some (ask "alpha"))
        (initial high_draws wall_clock)).1
   = Some (200, true, None,
           Some (Text "See the sources.", sources_of [as_hit doc_a], 1,
                 expandUserQuery "alpha")))
  /\ (observable
        (handleQuery by_embedding (Some (ask "alpha"))
           (initial low_draws wall_clock)).1
      = Some (200, true, None,
              Some (Text "See the sources.", sources_of [as_hit doc_b], 1,
                    expandUserQuery "alpha")))
  /\ observable
       (handleQuery by_embedding (Some (ask "alpha"))
          (initial high_draws wall_clock)).1
     <> observable
          (handleQuery by_embedding (Some (ask "alpha"))
             (initial low_draws wall_clock)).1.
Proof.
  split; [vm_compute; reflexivity|]. split; [vm_compute; reflexivity|].
  vm_compute. discriminate.
Qed.

(** C8, amended: two runs of the handler on the same request and the same
    collaborators give the same response — status, answer, sources in their
    order, hit count — whatever the clocks of the two runs, provided
    [Math.random] draws the same values in both; and whatever it draws if no
    random embedding is drawn: vector search is switched off in the request,
    or every embedding request fails and the zero vector stands in. *)
Theorem runs_agree_on_the_same_draws
  w body random1 clock1 random2 clock2 :
  (forall n, random1 n = random2 n)
  \/ useVectorSearch body = Some false
  \/ embedding_unavailable w ->
  observable (handleQuery w (Some body) (initial random1 clock1)).1
  = observable (handleQuery w (Some body) (initial random2 clock2)).1.
Proof.
  intros H.
  set (s1 := initial random1 clock1). set (s2 := initial random2 clock2).
  destruct (query body) as [q|] eqn:Hq;
    [|unfold handleQuery, try_catch; rewrite Hq; reflexivity].
  destruct (decide (sanitizeInput q = "")) as [He|Hne];
    [now rewrite !(handleQuery_rejects_empty _ _ _ _ Hq He)|].
  destruct (history_of body) as [history|] eqn:Hhist;
    [|now rewrite !(handleQuery_null_history _ _ _ _ Hq Hne Hhist)].
  destruct (handleQuery_accepts w body q history s1 Hq Hne Hhist)
    as (r1 & st1 & a1 & st2 & t1 & Hms1 & Hgen1 & ->).
  destruct (handleQuery_accepts w body q history s2 Hq Hne Hhist)
    as (r2 & st1' & a2 & st2' & t2 & Hms2 & Hgen2 & ->).
  assert (Hr : r1 = r2).
  { assert (Hsame : (multiSearch w (sanitizeInput q)
                       (handler_queries (sanitizeInput q))
                       (handler_filters (filters body))
                       (default true (useVectorSearch body))
                       (default 10%Z (maxResults body)) (Date_now s1).2).1
                    = (multiSearch w (sanitizeInput q)
                         (handler_queries (sanitizeInput q))
                         (handler_filters (filters body))
                         (default true (useVectorSearch body))
                         (default 10%Z (maxResults body)) (Date_now s2).2).1).
    { destruct H as [Hdraws|Hoff].
      - apply by_draws_multiSearch. intros n. apply Hdraws.
      - apply stateless_multiSearch.
        destruct Hoff as [->|Hun]; [now left|now right]. }
    rewrite Hms1, Hms2 in Hsame. now injection Hsame. }
  subst r2.
  assert (Ha : a1 = a2).
  { pose proof (stateless_generateAIResponse w (sanitizeInput q) r1 history
                  st1 st1') as Hsame.
    destruct (generateAIResponse w (sanitizeInput q) r1 history st1)
      as [[x|e] sx],
      (generateAIResponse w (sanitizeInput q) r1 history st1')
      as [[x'|e'] sx']; cbn [fst settled] in Hsame, Hgen1, Hgen2;
      try discriminate; congruence. }
  subst a2. now destruct (convertToDocumentSources r1).
Qed.

Lemma runs_agree_on_the_same_draws_witness :
  ((forall n, high_draws n = high_draws n)
   \/ useVectorSearch (ask "alpha") = Some false
   \/ embedding_unavailable by_embedding)
  /\ observable
       (handleQuery by_embedding (Some (ask "alpha"))
          (initial high_draws wall_clock)).1
     = observable
         (handleQuery by_embedding (Some (ask "alpha"))
            (initial high_draws late_clock)).1
  /\ observable
       (handleQuery by_embedding (Some (ask "alpha"))
          (initial high_draws late_clock)).1
     = Some (200, true, None,
             Some (Text "See the sources.", sources_of [as_hit doc_a], 1,
                   expandUserQuery "alpha"))
  /\ sources_of [as_hit doc_a] <> [].
Proof.
  split; [left; reflexivity|]. split.
  - apply (runs_agree_on_the_same_draws by_embedding (ask "alpha")
             high_draws wall_clock high_draws late_clock).
    left. reflexivity.
  - split; [vm_compute; reflexivity|vm_compute; discriminate].
Defined.

(** * Further properties *)

(** ** The matcher *)

Lemma lit_k_cont ci l k : forall st res,
  lit_k ci l k st = Some res ->
  exists st1, k st1 = Some res /\ m_caps st1 = m_caps st.
Proof.
  induction l as [|a l IH]; intros st res; simpl; [eauto|].
  unfold step. destruct (m_rest st) as [|c rest]; [discriminate|].
  destruct (same_char ci a c); [|discriminate].
  intros H. apply IH in H as (st1 & Hk & Hc). eauto.
Qed.

Lemma star_k_cont p k : forall rest prev pos caps res,
  star_k p k prev rest pos caps = Some res ->
  exists st1, k st1 = Some res /\ m_caps st1 = caps.
Proof.
  induction rest as [|c rest IH]; intros prev pos caps res; simpl;
    [eauto|].
  destruct (p c); [|eauto].
  destruct (star_k p k (Some c) rest (S pos) caps) as [r|] eqn:Hs.
  - intros [= ->]. eapply IH, Hs.
  - eauto.
Qed.

(** A successful match has called its continuation, on a state whose
    captures are those at the start with captures of the expression's own
    groups in front. *)
Lemma rmatch_cont ci r : forall k st res,
  rmatch ci r k st = Some res ->
  exists st1 new,
    k st1 = Some res
    /\ m_caps st1 = new ++ m_caps st
    /\ Forall (fun c => c.1 ∈ groups r) new.
Proof.
  induction r as [|p|s|r1 IH1 r2 IH2|r1 IH1 r2 IH2|p|n r IH|];
    intros k st res; cbn [rmatch groups].
  - intros H. exists st, []. auto.
  - unfold step. destruct (m_rest st) as [|c rest]; [discriminate|].
    destruct (p c); [|discriminate]. intros H. eexists _, []. eauto.
  - intros H. apply lit_k_cont in H as (st1 & Hk & Hc).
    exists st1, []. auto.
  - intros H. apply IH1 in H as (st1 & new1 & H & Hc1 & Hg1).
    apply IH2 in H as (st2 & new2 & H & Hc2 & Hg2).
    exists st2, (new2 ++ new1). split; [exact H|]. split.
    + now rewrite Hc2, Hc1, app_assoc.
    + apply Forall_app. split; eapply Forall_impl; eauto;
        intros c Hin; apply elem_of_app; auto.
  - destruct (rmatch ci r1 k st) as [x|] eqn:H1.
    + intros [= ->]. apply IH1 in H1 as (st1 & new & H & Hc & Hg).
      exists st1, new. split; [exact H|]. split; [exact Hc|].
      eapply Forall_impl; eauto. intros c Hin. apply elem_of_app. auto.
    + intros H. apply IH2 in H as (st1 & new & H & Hc & Hg).
      exists st1, new. split; [exact H|]. split; [exact Hc|].
      eapply Forall_impl; eauto. intros c Hin. apply elem_of_app. auto.
  - intros H. apply star_k_cont in H as (st1 & Hk & Hc).
    exists st1, []. auto.
  - intros H. apply IH in H as (st1 & new & H & Hc & Hg).
    exists (capture n st st1), ((n, take (m_pos st1 - m_pos st) (m_rest st))
                                  :: new).
    split; [exact H|]. split.
    + cbn [capture m_caps]. now rewrite Hc.
    + apply Forall_cons_2; [left|].
      eapply Forall_impl; eauto. intros c Hin. now right.
  - destruct (xorb _ _); [|discriminate]. intros H. exists st, []. auto.
Qed.

(** The text that the class expression [Chr p] leaves is the text without
    the characters of the class. *)
Lemma erase_class ci p : forall rest prev pos,
  erase ci (Chr p) prev rest pos 0 = List.filter (fun c => negb (p c)) rest.
Proof.
  induction rest as [|c rest IH]; intros prev pos.
  - reflexivity.
  - cbn [erase List.filter]. unfold match_at. cbn [rmatch step m_rest].
    destruct (p c); cbn [negb m_pos f_text].
    + replace (S pos - pos) with 1 by lia. cbn [take length]. apply IH.
    + now rewrite IH.
Qed.

(** Erasing matches only removes characters. *)
Lemma erase_elem ci r c : forall rest prev pos skip,
  c ∈ erase ci r prev rest pos skip -> c ∈ rest.
Proof.
  induction rest as [|a rest IH]; intros prev pos skip.
  - destruct skip; cbn [erase]; [|intros H; exact H].
    destruct (match_at ci r prev [] pos) as [f|]; [|intros H; exact H].
    destruct (length (f_text f)); intros H; exact H.
  - destruct skip as [|n]; cbn [erase].
    + destruct (match_at ci r prev (a :: rest) pos) as [f|].
      * destruct (length (f_text f)).
        -- intros [->|H]%elem_of_cons; [left|right; eapply IH, H].
        -- intros H. right. eapply IH, H.
      * intros [->|H]%elem_of_cons; [left|right; eapply IH, H].
    + intros H. right. eapply IH, H.
Qed.

Lemma drop_space_elem c l : c ∈ drop_space l -> c ∈ l.
Proof.
  destruct (drop_space_suffix l) as [pre Hpre]. intros H.
  rewrite Hpre. apply elem_of_app. now right.
Qed.

Lemma trim_chars_elem c l : c ∈ trim_chars l -> c ∈ l.
Proof.
  unfold trim_chars. intros H.
  apply list_elem_of_In in H. rewrite <- in_rev in H.
  apply list_elem_of_In, drop_space_elem in H.
  apply list_elem_of_In in H. rewrite <- in_rev in H.
  now apply drop_space_elem, list_elem_of_In.
Qed.

Lemma trim_chars_clean l : clean (trim_chars l) /\ clean (rev (trim_chars l)).
Proof.
  unfold trim_chars.
  set (a := drop_space l). set (b := drop_space (rev a)).
  assert (Hb : clean b) by apply drop_space_clean.
  rewrite rev_involutive. split; [|exact Hb].
  destruct (drop_space_suffix (rev a)) as [pre Hpre]. fold b in Hpre.
  assert (Ha : a = rev b ++ rev pre).
  { rewrite <- (rev_involutive a), Hpre. apply rev_app_distr. }
  apply (clean_app_l _ (rev pre)). rewrite <- Ha. apply drop_space_clean.
Qed.

(** X1: the sanitised text holds no angle bracket, and it neither begins nor
    ends with white space. *)
Theorem sanitizeInput_output input :
  (forall c, c ∈ chars (sanitizeInput input) ->
     c <> "<"%char /\ c <> ">"%char)
  /\ clean (chars (sanitizeInput input))
  /\ clean (rev (chars (sanitizeInput input))).
Proof.
  unfold sanitizeInput, trim, remove_all. rewrite !chars_str.
  split; [|apply trim_chars_clean].
  intros c Hc. apply trim_chars_elem in Hc.
  apply erase_elem in Hc. apply erase_elem in Hc.
  unfold angle_re in Hc. rewrite erase_class in Hc.
  apply list_elem_of_In, filter_In in Hc as [_ Hc].
  split; intros ->; discriminate Hc.
Qed.

(** ** Years in the extracted facts *)

Lemma search_sound ci r f : forall rest prev pos,
  search ci r prev rest pos = Some f ->
  exists pre suf,
    rest = pre ++ suf
    /\ match_at ci r (last_or prev pre) suf (pos + length pre) = Some f.
Proof.
  induction rest as [|c rest IH]; intros prev pos; cbn [search].
  - destruct (match_at ci r prev [] pos) as [f0|] eqn:Hm; [|discriminate].
    intros [= ->]. exists [], []. split; [reflexivity|].
    unfold last_or. simpl. now rewrite Nat.add_0_r.
  - destruct (match_at ci r prev (c :: rest) pos) as [f0|] eqn:Hm.
    + intros [= ->]. exists [], (c :: rest). split; [reflexivity|].
      unfold last_or. simpl. now rewrite Nat.add_0_r.
    + intros H. apply IH in H as (pre & suf & -> & H).
      exists (c :: pre), suf. split; [reflexivity|].
      rewrite last_or_cons. simpl. now rewrite Nat.add_succ_r.
Qed.

Lemma is_year_19 c d :
  is_digit c = true -> is_digit d = true -> is_year (str ["1"; "9"; c; d]%char).
Proof. intros Hc Hd. exists c, d. auto. Qed.

Lemma is_year_20 c d :
  is_digit c = true -> is_digit d = true -> is_year (str ["2"; "0"; c; d]%char).
Proof. intros Hc Hd. exists c, d. auto. Qed.

(** What [/(20\d{2}|19\d{2})/] captures: the four characters it matched,
    which are a year. *)
Lemma revenue_year_match prev rest pos f :
  match_at false revenue_year_re prev rest pos = Some f ->
  exists y tail,
    str (default [] (group 1 f)) = y /\ is_year y /\ rest = chars y ++ tail.
Proof.
  unfold match_at, revenue_year_re.
  cbn [rmatch lit_k chars list_ascii_of_string step m_rest m_prev m_pos
       m_caps same_char].
  destruct rest as [|a [|b [|c [|d tail]]]];
    cbn [step m_rest m_prev m_pos m_caps];
    repeat match goal with
           | |- context [if ?b then _ else _] => destruct b eqn:?
           end; try discriminate;
    intros [= <-]; unfold group; cbn [f_caps capture m_caps m_pos m_rest];
    (replace (S (S (S (S pos))) - pos) with 4 by lia);
    cbn [List.find fst snd Nat.eqb fmap option_fmap option_map default
         from_option take];
    repeat match goal with
      | H : (_ =? _)%char = true |- _ => apply Ascii.eqb_eq in H; subst
      end;
    unfold id; rewrite take_0; eexists _, tail;
    (split; [reflexivity|]); rewrite chars_str;
    (split; [|reflexivity]); auto using is_year_19, is_year_20.
Qed.

(** What [/(19|20)\d{2}/] matches. *)
Lemma tabular_year_match prev rest pos f :
  match_at false year_re prev rest pos = Some f ->
  exists y tail, str (f_text f) = y /\ is_year y /\ rest = chars y ++ tail.
Proof.
  unfold match_at, year_re.
  cbn [rmatch lit_k chars list_ascii_of_string step m_rest m_prev m_pos
       m_caps same_char].
  destruct rest as [|a [|b [|c [|d tail]]]];
    cbn [step m_rest m_prev m_pos m_caps capture];
    repeat match goal with
           | |- context [if ?b then _ else _] => destruct b eqn:?
           end; try discriminate;
    intros [= <-]; cbn [f_text m_pos];
    (replace (S (S (S (S pos))) - pos) with 4 by lia);
    repeat match goal with
      | H : (_ =? _)%char = true |- _ => apply Ascii.eqb_eq in H; subst
      end;
    cbn [firstn]; eexists _, tail;
    (split; [reflexivity|]); rewrite chars_str;
    (split; [|reflexivity]); auto using is_year_19, is_year_20.
Qed.

Lemma year_is_not_empty y : is_year y -> chars y <> [].
Proof.
  intros (c & d & _ & _ & [-> | ->]); rewrite chars_str; discriminate.
Qed.

Lemma revenue_of_row_year monthIdx revenueIdx row y v :
  revenue_of_row monthIdx revenueIdx row = Some (y, v) ->
  exists i cell,
    monthIdx = Some i /\ split "," row !! i = Some cell /\ holds_year cell y.
Proof.
  unfold revenue_of_row. destruct (negb (includes row ",")); [discriminate|].
  destruct (number_of_Q <$> parse_amount _) as [revenue|]; [|discriminate].
  destruct monthIdx as [i|]; [|discriminate].
  unfold match_first.
  destruct (search false revenue_year_re None _ 0) as [m|] eqn:Hs;
    [|discriminate].
  apply search_sound in Hs as (pre & suf & Hcell & Hm).
  apply revenue_year_match in Hm as (y' & tail & Hy & Hyear & ->).
  rewrite Hy.
  destruct (String.eqb _ "unknown"); [discriminate|]. intros [= <- _].
  destruct (split "," row !! i) as [cell|] eqn:Hcol.
  - exists i, cell. repeat split; trivial. now exists pre, tail.
  - exfalso. cbn in Hcell. apply year_is_not_empty in Hyear.
    destruct pre; [destruct (chars y')|]; [congruence|discriminate..].
Qed.

(** X2: every key of the compact revenue map is a year — [19] or [20]
    followed by two digits — found in the month cell of a row below the
    header; a row without such a year adds nothing. *)
Theorem revenue_keys_are_years :
  (forall content y,
     is_Some (extractRevenueByYearFromCsvContent content !! y) ->
     exists headerIdx row i cell,
       findIndex (fun l => includes l "," && test true revenue_re l)
         (content_lines content) = Some headerIdx
       /\ row ∈ drop (S headerIdx) (content_lines content)
       /\ findIndex (test true month_re)
            (header_cells (content_lines content) headerIdx) = Some i
       /\ split "," row !! i = Some cell
       /\ holds_year cell y)
  /\ (forall monthIdx revenueIdx revenueByYear row,
        (forall i cell y,
           monthIdx = Some i -> split "," row !! i = Some cell ->
           ~ holds_year cell y) ->
        revenue_row monthIdx revenueIdx revenueByYear row = revenueByYear).
Proof.
  split.
  - intros content y. rewrite extractRevenue_lookup. unfold total, values_for.
    destruct (filter (fun yv => yv.1 = y) (revenue_rows content))
      as [|[y' v] l] eqn:Hf; [intros [x Hx]; discriminate|]. intros _.
    assert (Hin : (y', v) ∈ filter (fun yv => yv.1 = y) (revenue_rows content))
      by (rewrite Hf; left).
    apply list_elem_of_filter in Hin as [Hy Hin]. cbn in Hy. subst y'.
    unfold revenue_rows in Hin. unfold content_lines, header_cells.
    destruct (findIndex _ (List.filter non_empty _)) as [headerIdx|];
      [|now apply elem_of_nil in Hin].
    destruct (findIndex (test true revenue_re) _) as [revenueIdx|];
      [|now apply elem_of_nil in Hin].
    apply list_elem_of_omap in Hin as (row & Hin & Hrow).
    apply revenue_of_row_year in Hrow as (i & cell & Hi & Hcell & Hyear).
    exists headerIdx, row, i, cell. repeat split; trivial; apply Hyear.
  - intros monthIdx revenueIdx acc row Hno. unfold revenue_row.
    destruct (revenue_of_row monthIdx revenueIdx row) as [[y v]|] eqn:Hrow;
      [|reflexivity].
    apply revenue_of_row_year in Hrow as (i & cell & Hi & Hcell & Hyear).
    now destruct (Hno i cell y).
Qed.

Lemma revenue_keys_are_years_witness :
  exists row cell,
    row ∈ content_lines two_months
    /\ cell ∈ split "," row
    /\ holds_year cell "2021".
Proof.
  assert (H : is_Some (extractRevenueByYearFromCsvContent two_months
                         !! "2021"))
    by (exists (whole 3000); vm_compute; reflexivity).
  destruct (proj1 revenue_keys_are_years two_months "2021" H)
    as (headerIdx & row & i & cell & _ & Hrow & _ & Hcell & Hyear).
  exists row, cell. split; [|split; [|exact Hyear]].
  - apply list_elem_of_lookup in Hrow as [n Hn].
    rewrite lookup_drop in Hn. now apply list_elem_of_lookup_2 in Hn.
  - now apply list_elem_of_lookup_2 in Hcell.
Defined.

Lemma elem_of_flat_map {A B} (f : A -> list B) (l : list A) (y : B) :
  y ∈ flat_map f l <-> exists x, x ∈ l /\ y ∈ f x.
Proof.
  rewrite list_elem_of_In, in_flat_map.
  split; intros (x & Hx & Hy); exists x; split; now apply list_elem_of_In.
Qed.

(** X3: a fact of the tabular heuristic carries the source label of its
    document and the year of its row: a year in full — [19] or [20] and two
    digits — found in the period cell of a row below the header; a row
    without such a year gives no fact. *)
Theorem tabular_facts_carry_years :
  (forall src lines headerIdx fact,
     fact ∈ tabular_facts src lines headerIdx ->
     fact_source fact = src
     /\ exists row i cell,
          row ∈ drop (S headerIdx) lines
          /\ findIndex (test true period_re) (header_cells lines headerIdx)
             = Some i
          /\ split "," row !! i = Some cell
          /\ holds_year cell (fact_year fact))
  /\ (forall src monthIdx metricIdxMap wanted row,
        (forall i cell y,
           monthIdx = Some i -> split "," row !! i = Some cell ->
           ~ holds_year cell y) ->
        tabular_row_facts src monthIdx metricIdxMap wanted row = []).
Proof.
  assert (Hrow : forall src monthIdx metricIdxMap wanted row fact,
            fact ∈ tabular_row_facts src monthIdx metricIdxMap wanted row ->
            fact_source fact = src
            /\ exists i cell,
                 monthIdx = Some i /\ split "," row !! i = Some cell
                 /\ holds_year cell (fact_year fact)).
  { intros src monthIdx metricIdxMap wanted row fact Hin.
    unfold tabular_row_facts in Hin.
    destruct (negb (includes row ",")); [now apply elem_of_nil in Hin|].
    unfold match_first in Hin.
    destruct (search false year_re None _ 0) as [m|] eqn:Hs;
      [|now apply elem_of_nil in Hin].
    apply elem_of_flat_map in Hin as (mk & _ & Hmk).
    destruct (parse_amount _) as [val|]; [|now apply elem_of_nil in Hmk].
    apply list_elem_of_singleton in Hmk. subst fact. cbn [fact_source fact_year].
    split; [reflexivity|].
    destruct monthIdx as [i|]; [|vm_compute in Hs; discriminate].
    destruct (split "," row !! i) as [cell|] eqn:Hcol;
      [|vm_compute in Hs; discriminate].
    cbn [default from_option] in Hs. unfold id in Hs.
    apply search_sound in Hs as (pre & suf & Hcell & Hm).
    apply tabular_year_match in Hm as (y & tail & -> & Hyear & ->).
    exists i, cell. repeat split; trivial. now exists pre, tail. }
  split.
  - intros src lines headerIdx fact.
    unfold tabular_facts. intros (row & Hin & Hfact)%elem_of_flat_map.
    apply Hrow in Hfact as (Hsrc & i & cell & Hi & Hcell & Hyear).
    split; [exact Hsrc|]. now exists row, i, cell.
  - intros src monthIdx metricIdxMap wanted row Hno.
    destruct (tabular_row_facts src monthIdx metricIdxMap wanted row)
      as [|fact l] eqn:Hfacts; [reflexivity|].
    assert (Hin : fact ∈ tabular_row_facts src monthIdx metricIdxMap wanted row)
      by (rewrite Hfacts; left).
    apply Hrow in Hin as (_ & i & cell & Hi & Hcell & Hyear).
    now destruct (Hno i cell (fact_year fact)).
Qed.

Lemma tabular_facts_carry_years_witness :
  {| fact_metric := "revenue"; fact_year := "2021"; fact_value := 1000;
     fact_source := "mixed" |}
  ∈ tabular_facts "mixed" (lines_of mixed_content) 0
  /\ exists row cell,
       row ∈ lines_of mixed_content /\ cell ∈ split "," row
       /\ holds_year cell "2021".
Proof.
  assert (H : {| fact_metric := "revenue"; fact_year := "2021";
                 fact_value := 1000; fact_source := "mixed" |}
              ∈ tabular_facts "mixed" (lines_of mixed_content) 0).
  { assert (tabular_facts "mixed" (lines_of mixed_content) 0
            = [ {| fact_metric := "revenue"; fact_year := "2021";
                   fact_value := 1000; fact_source := "mixed" |} ])
      as -> by (vm_compute; reflexivity).
    left. }
  split; [exact H|].
  destruct (proj1 tabular_facts_carry_years "mixed" (lines_of mixed_content)
              0 _ H) as (_ & row & i & cell & Hrow & _ & Hcell & Hyear).
  exists row, cell. split; [|split; [|exact Hyear]].
  - apply list_elem_of_lookup in Hrow as [n Hn].
    rewrite lookup_drop in Hn. now apply list_elem_of_lookup_2 in Hn.
  - now apply list_elem_of_lookup_2 in Hcell.
Defined.

Lemma free_text_re_parts :
  free_text_re
  = Seq (Grp 1 metric_re)
      (Seq (Star non_digit) (Seq (Grp 2 century_re) amount_tail_re)).
Proof. reflexivity. Qed.

Lemma same_digit_ci a c :
  is_digit a = true -> same_char true a c = true -> c = a.
Proof.
  unfold same_char. intros Ha H%Ascii.eqb_eq.
  revert Ha H.
  destruct a as [[] [] [] [] [] [] [] []]; try discriminate; intros _;
    destruct c as [[] [] [] [] [] [] [] []]; vm_compute; congruence.
Qed.

(** What the second group of the free-text expression captures. *)
Lemma century_capture k st res :
  rmatch true (Grp 2 century_re) k st = Some res ->
  exists st1 x,
    k st1 = Some res
    /\ m_caps st1 = (2, x) :: m_caps st
    /\ (x = ["1"; "9"]%char \/ x = ["2"; "0"]%char).
Proof.
  unfold century_re.
  cbn [rmatch lit_k chars list_ascii_of_string step].
  destruct st as [prev rest pos caps]. cbn [m_rest m_prev m_pos m_caps].
  destruct rest as [|a [|b rest]];
    cbn [step m_rest m_prev m_pos m_caps];
    repeat match goal with
           | |- context [if ?b then _ else _] => destruct b eqn:?
           end; try discriminate.
  all: repeat match goal with
         | H : same_char true _ _ = true |- _ =>
             apply same_digit_ci in H; [|reflexivity]
         end; subst; try discriminate.
  all: match goal with
       | |- context [?f (capture ?n ?a ?b)] =>
           destruct (f (capture n a b)) as [r|] eqn:Hk
       end; intros H; try discriminate H; injection H as <-;
    eexists _, _; (split; [exact Hk|]);
    cbn [capture m_caps m_pos m_rest];
    (replace (S (S pos) - pos) with 2 by lia); cbn [firstn]; auto.
Qed.

Lemma rmatch_seq ci a b k st :
  rmatch ci (Seq a b) k st = rmatch ci a (rmatch ci b k) st.
Proof. reflexivity. Qed.

Lemma find_behind (n : nat) (x : list ascii) new t :
  Forall (fun c : nat * list ascii => c.1 <> n) new ->
  List.find (fun p => Nat.eqb (fst p) n) (new ++ (n, x) :: t) = Some (n, x).
Proof.
  induction new as [|[m y] new IH]; intros Hnew; cbn [app List.find fst].
  - now rewrite Nat.eqb_refl.
  - apply Forall_cons in Hnew as [Hm Hnew]. cbn in Hm.
    apply Nat.eqb_neq in Hm. rewrite Hm. now apply IH.
Qed.

Lemma free_text_century prev rest pos f :
  match_at true free_text_re prev rest pos = Some f ->
  group 2 f = Some ["1"; "9"]%char \/ group 2 f = Some ["2"; "0"]%char.
Proof.
  unfold match_at. rewrite free_text_re_parts.
  destruct (rmatch true _ Some _) as [st|] eqn:H; [|discriminate].
  intros [= <-]. unfold group. cbn [f_caps].
  rewrite rmatch_seq in H. apply rmatch_cont in H as (st1 & _ & H & _).
  rewrite rmatch_seq in H. apply rmatch_cont in H as (st2 & _ & H & _).
  rewrite rmatch_seq in H.
  apply century_capture in H as (st3 & x & H & Hc3 & Hx).
  apply rmatch_cont in H as (st4 & new & [= <-] & Hc4 & Hg).
  rewrite Hc4, Hc3, find_behind.
  - destruct Hx as [->| ->]; auto.
  - eapply Forall_impl; [exact Hg|]. intros c Hin. cbn in Hin.
    apply list_elem_of_singleton in Hin. lia.
Qed.

(** X4: a fact of the free-text heuristic never carries a full year: its
    year is the second capture of the expression, the century [19] or [20].
    Its source is the label of the document. *)
Theorem free_text_facts_carry_centuries src text fact :
  fact ∈ free_text_facts src text ->
  (fact_year fact = "19" \/ fact_year fact = "20")
  /\ fact_source fact = src.
Proof.
  unfold free_text_facts, exec_all.
  intros (m & Hm & Hfact)%elem_of_flat_map.
  apply scan_sound in Hm as (pre & suf & _ & Hm).
  apply free_text_century in Hm.
  destruct (parse_amount _) as [num|]; [|now apply elem_of_nil in Hfact].
  apply list_elem_of_singleton in Hfact. subst fact. cbn [fact_year fact_source].
  split; [|reflexivity]. destruct Hm as [-> | ->]; auto.
Qed.

Lemma free_text_facts_carry_centuries_witness :
  {| fact_metric := "revenue"; fact_year := "20"; fact_value := 5;
     fact_source := "prose" |}
  ∈ free_text_facts "prose" "Revenue in 2021 was 5."
  /\ ("20" = "19" \/ "20" = "20") /\ "prose" = "prose".
Proof.
  assert (H : {| fact_metric := "revenue"; fact_year := "20";
                 fact_value := 5; fact_source := "prose" |}
              ∈ free_text_facts "prose" "Revenue in 2021 was 5.").
  { assert (free_text_facts "prose" "Revenue in 2021 was 5."
            = [ {| fact_metric := "revenue"; fact_year := "20";
                   fact_value := 5; fact_source := "prose" |} ])
      as -> by (vm_compute; reflexivity).
    left. }
  split; [exact H|].
  exact (free_text_facts_carry_centuries "prose" "Revenue in 2021 was 5." _ H).
Defined.

(** ** The handler never throws *)

Lemma truthy_nonempty o s : truthy o = Some s -> s <> "".
Proof.
  unfold truthy. destruct o as [t|]; [|discriminate].
  destruct (String.eqb t "") eqn:He; [discriminate|].
  intros [= <-]. now apply String.eqb_neq.
Qed.

Lemma callGeminiAPI_nonempty w prompt st text st' :
  callGeminiAPI w prompt st = (Ok text, st') -> text <> Text "".
Proof.
  rewrite callGeminiAPI_eq. destruct (gemini_url w); [|discriminate].
  cbn zeta. destruct (gemini_fetch w _ prompt) as [e|response]; [discriminate|].
  destruct (ok response); [|discriminate].
  destruct (body_json response) as [result|]; [|discriminate].
  intros [= <- _]. unfold truthy_answer.
  destruct (candidate_text result) as [[t|value]|]; cbn; try discriminate.
  destruct (String.eqb t "") eqn:He; cbn; [discriminate|].
  apply String.eqb_neq in He. congruence.
Qed.

Lemma generateAIResponse_nonempty w query results history st answer st' :
  settled (generateAIResponse w query results history st) = (answer, st') ->
  answer <> Text "".
Proof.
  rewrite generateAIResponse_eq.
  destruct (final_prompt w query results history) as [prompt|e];
    [|intros [= <- _]; discriminate].
  destruct (callGeminiAPI w _ st) as [[response|e] st1] eqn:Hc.
  - intros [= <- _]. eapply callGeminiAPI_nonempty, Hc.
  - intros [= <- _]. discriminate.
Qed.

Lemma convertToDocumentSources_cases results :
  match convertToDocumentSources results with
  | Ok sources =>
      Forall (fun doc => is_Some (doc_content doc)) results
      /\ length sources = length results
  | Throw _ => Exists (fun doc => doc_content doc = None) results
  end.
Proof.
  destruct (decide (Forall (fun doc => is_Some (doc_content doc)) results))
    as [Hall|Hex].
  - destruct (convertToDocumentSources_ok results Hall) as (sources & -> & Hl).
    now split.
  - apply not_Forall_Exists in Hex; [|apply _].
    assert (Hnone : Exists (fun doc => doc_content doc = None) results).
    { eapply Exists_impl; [exact Hex|]. intros doc Hn.
      now apply eq_None_not_Some. }
    now destruct (convertToDocumentSources_throws results Hnone) as [e ->].
Qed.

(** X5: the handler answers every request and never throws.  A request
    without a JSON body or without a query gets status 500 and an empty
    query status 400, both before any collaborator is called; so does a
    request whose chat history is [null], with status 500.  Every other
    request is searched for: if one of its hits has no content it gets
    status 500, otherwise status 200 with an answer that is not the empty
    text and a hit count equal to the number of sources. *)
Theorem handleQuery_always_answers w body st :
  exists response st',
    handleQuery w body st = (Ok response, st')
    /\ ((response = internal_error
         /\ st' = st
         /\ (body = None
             \/ exists b,
                  body = Some b
                  /\ (query b = None
                      \/ exists q,
                           query b = Some q /\ sanitizeInput q <> ""
                           /\ chatHistory b = Some Null)))
        \/ (response = createErrorResponse "Query is required" 400
            /\ st' = st
            /\ exists b q,
                 body = Some b /\ query b = Some q /\ sanitizeInput q = "")
        \/ (exists b q history results st1,
              body = Some b /\ query b = Some q /\ sanitizeInput q <> ""
              /\ history_of b = Some history
              /\ multiSearch w (sanitizeInput q)
                   (handler_queries (sanitizeInput q))
                   (handler_filters (filters b))
                   (default true (useVectorSearch b))
                   (default 10%Z (maxResults b)) (Date_now st).2
                 = (Ok results, st1)
              /\ ((Exists (fun doc => doc_content doc = None) results
                   /\ response = internal_error)
                  \/ (Forall (fun doc => is_Some (doc_content doc)) results
                      /\ exists data,
                           response = createSuccessResponse data
                           /\ answer data <> Text ""
                           /\ length (sources data) = length results
                           /\ totalHits data = length (sources data))))).
Proof.
  destruct body as [b|].
  - destruct (query b) as [q|] eqn:Hq.
    + destruct (decide (sanitizeInput q = "")) as [He|Hne].
      * rewrite (handleQuery_rejects_empty _ _ _ _ Hq He).
        eexists _, _. split; [reflexivity|]. right. left.
        split; [reflexivity|]. split; [reflexivity|]. eauto.
      * destruct (history_of b) as [history|] eqn:Hhist.
        -- destruct (handleQuery_accepts w b q history st Hq Hne Hhist)
             as (results & st1 & a & st2 & t & Hms & Hgen & ->).
           eexists _, _. split; [reflexivity|]. do 2 right.
           exists b, q, history, results, st1.
           split; [reflexivity|]. split; [exact Hq|]. split; [exact Hne|].
           split; [exact Hhist|]. split; [exact Hms|].
           pose proof (convertToDocumentSources_cases results) as Hc.
           destruct (convertToDocumentSources results) as [converted|e].
           ++ right. destruct Hc as [Hall Hlen]. split; [exact Hall|].
              eexists. split; [reflexivity|]. cbn [answer totalHits sources].
              split; [eapply generateAIResponse_nonempty, Hgen|].
              split; [exact Hlen|now rewrite Hlen].
           ++ left. now split.
        -- rewrite (handleQuery_null_history _ _ _ _ Hq Hne Hhist).
           eexists _, _. split; [reflexivity|]. left.
           split; [reflexivity|]. split; [reflexivity|]. right.
           exists b. split; [reflexivity|]. right. exists q.
           split; [exact Hq|]. split; [exact Hne|].
           unfold history_of in Hhist.
           destruct (chatHistory b) as [[|messages]|]; try discriminate.
           reflexivity.
    + unfold handleQuery, try_catch. rewrite Hq.
      eexists _, _. split; [reflexivity|]. left.
      split; [reflexivity|]. split; [reflexivity|]. right. exists b. auto.
  - eexists _, _. split; [reflexivity|]. left.
    split; [reflexivity|]. split; [reflexivity|]. now left.
Qed.

(** ** An unreachable index *)

Lemma elasticsearchRequest_down w endpoint body st :
  index_down w ->
  exists e st', elasticsearchRequest w endpoint body st = (Throw e, st').
Proof.
  intros Hdown. specialize (Hdown endpoint body).
  unfold elasticsearchRequest, bind, log_call.
  destruct (elastic_fetch w endpoint body) as [e|response].
  - eexists _, _. reflexivity.
  - destruct Hdown as [Hok|Hjson].
    + rewrite Hok. eexists _, _. reflexivity.
    + destruct (ok response); cbn [negb]; [|eexists _, _; reflexivity].
      rewrite Hjson. eexists _, _. reflexivity.
Qed.

Lemma search_query_down w q filters uv topK st :
  index_down w ->
  exists e st', search_query w q filters uv topK st = (Throw e, st').
Proof.
  intros Hdown.
  assert (Hh : forall emb s, exists e s',
             hybridSearchDocuments w q emb filters topK s = (Throw e, s')).
  { intros emb s. unfold hybridSearchDocuments, try_catch.
    destruct (elasticsearchRequest_down w ("/" +:+ INDEX_NAME w +:+ "/_search")
                (hybrid_body q emb filters topK) s Hdown) as (e & s' & He).
    rewrite (bind_throw _ _ _ _ _ He). eexists _, _. reflexivity. }
  assert (Ht : forall s, exists e s',
             textSearchDocuments w q filters topK s = (Throw e, s')).
  { intros s. unfold textSearchDocuments, try_catch.
    destruct (elasticsearchRequest_down w ("/" +:+ INDEX_NAME w +:+ "/_search")
                (text_body q filters topK) s Hdown) as (e & s' & He).
    rewrite (bind_throw _ _ _ _ _ He). eexists _, _. reflexivity. }
  destruct uv; [|apply Ht].
  destruct (generateEmbedding_total w q st) as (emb & st1 & Hemb & _).
  rewrite (search_query_vector _ _ _ _ _ _ _ Hemb).
  destruct (Hh emb st1) as (e & s' & ->). eexists _, _. reflexivity.
Qed.

Lemma fan_out_down w filters uv topK qs : forall st,
  index_down w -> (fan_out w qs filters uv topK st).1 = [].
Proof.
  induction qs as [|q qs IH]; intros st Hdown; cbn [fan_out]; [reflexivity|].
  destruct (search_query_down w q filters uv topK st Hdown) as (e & st' & ->).
  now apply IH.
Qed.

(** X6: when every request to the index fails, the handler still answers
    a valid question — a query that is not empty after sanitisation, a chat
    history that is not [null] — with status 200: no source, a hit count of
    zero and an answer that is not the empty text. *)
Theorem handleQuery_survives_index_failure w body q history st :
  index_down w ->
  query body = Some q ->
  sanitizeInput q <> "" ->
  history_of body = Some history ->
  exists data st',
    handleQuery w (Some body) st = (Ok (createSuccessResponse data), st')
    /\ sources data = []
    /\ totalHits data = 0
    /\ answer data <> Text "".
Proof.
  intros Hdown Hq Hne Hhist.
  destruct (handleQuery_accepts w body q history st Hq Hne Hhist)
    as (results & st1 & a & st2 & t & Hms & Hgen & ->).
  rewrite multiSearch_eq in Hms.
  pose proof (f_equal (fun p => match fst p with
                                | Ok x => x
                                | Throw _ => results
                                end) Hms) as Hr.
  cbv beta iota delta [fst] in Hr. subst results. clear Hms.
  unfold flat_hits in *. rewrite fan_out_down in * by exact Hdown.
  cbn [concat fold_left snd] in *.
  unfold slice0 in *. rewrite take_nil in *.
  eexists _, _. split; [reflexivity|].
  cbn [sources totalHits answer length]. repeat split.
  eapply generateAIResponse_nonempty, Hgen.
Qed.

Lemma handleQuery_survives_index_failure_witness :
  index_down index_unreachable
  /\ query (ask "alpha") = Some "alpha"
  /\ sanitizeInput "alpha" <> ""
  /\ history_of (ask "alpha") = Some []
  /\ exists data st',
       handleQuery index_unreachable (Some (ask "alpha")) start
       = (Ok (createSuccessResponse data), st')
       /\ sources data = []
       /\ totalHits data = 0
       /\ answer data <> Text "".
Proof.
  assert (H1 : index_down index_unreachable) by (intros endpoint body; exact I).
  assert (H2 : query (ask "alpha") = Some "alpha") by reflexivity.
  assert (H3 : sanitizeInput "alpha" <> "") by (vm_compute; discriminate).
  assert (H4 : history_of (ask "alpha") = Some []) by reflexivity.
  split; [exact H1|]. split; [exact H2|]. split; [exact H3|].
  split; [exact H4|].
  exact (handleQuery_survives_index_failure index_unreachable (ask "alpha")
           "alpha" [] start H1 H2 H3 H4).
Defined.

(** ** The shape of an embedding *)

Lemma random_vector_shape n : forall st,
  exists v st',
    random_vector n st = (Ok v, st')
    /\ length v = n
    /\ calls st' = calls st
    /\ ((forall i, (0 <= random_stream st i)%Q /\ (random_stream st i < 1)%Q) ->
        Forall in_unit_range v).
Proof.
  induction n as [|n IH]; intros st; cbn [random_vector].
  - eexists _, _. split; [reflexivity|]. repeat split. constructor.
  - unfold bind at 1, Math_random at 1.
    destruct (IH {| calls := calls st;
                    random_stream := fun n => random_stream st (S n);
                    clock_stream := clock_stream st |})
      as (v & st' & Hv & Hlen & Hc & Hrange).
    unfold bind at 1. rewrite Hv. unfold ret. eexists _, _.
    split; [reflexivity|]. cbn [length]. split; [now rewrite Hlen|].
    split; [exact Hc|]. intros Hdraws. constructor.
    + destruct (Hdraws 0%nat) as [H0 H1]. unfold in_unit_range. split; lra.
    + apply Hrange. intros i. apply (Hdraws (S i)).
Qed.

Lemma zero_vector_shape n : length (repeat 0%Q n) = n
  /\ Forall in_unit_range (repeat 0%Q n).
Proof.
  split; [apply repeat_length|]. induction n as [|n IH]; constructor.
  - unfold in_unit_range. split; lra.
  - exact IH.
Qed.

Lemma generateEmbedding_cases w text st :
  exists v st',
    generateEmbedding w text st = (Ok v, st')
    /\ length v = 768
    /\ (calls st' = calls st
        \/ exists url request, calls st' = calls st ++ [CallGemini url request])
    /\ ((forall i, (0 <= random_stream st i)%Q /\ (random_stream st i < 1)%Q) ->
        Forall in_unit_range v).
Proof.
  rewrite generateEmbedding_eq.
  destruct (zero_vector_shape 768) as [Hzl Hzr].
  destruct (gemini_url w) as [url|].
  2:{ eexists _, _. split; [reflexivity|]. split; [exact Hzl|].
      split; [now left|]. intros _. exact Hzr. }
  cbv zeta.
  destruct (gemini_fetch w url _) as [e|response].
  { eexists _, _. split; [reflexivity|]. split; [exact Hzl|].
    split; [right; eexists _, _; reflexivity|]. intros _. exact Hzr. }
  destruct (ok response).
  2:{ eexists _, _. split; [reflexivity|]. split; [exact Hzl|].
      split; [right; eexists _, _; reflexivity|]. intros _. exact Hzr. }
  match goal with
  | |- context [random_vector 768 ?s] =>
      destruct (random_vector_shape 768 s) as (v & st' & -> & Hl & Hc & Hr)
  end.
  eexists _, _. split; [reflexivity|]. split; [exact Hl|].
  split; [right; rewrite Hc; eexists _, _; reflexivity|].
  intros Hdraws. apply Hr. exact Hdraws.
Qed.

(** X7: an embedding is always produced, never an exception: a vector of
    768 numbers, after at most one request to the model.  When the draws of
    the random generator lie in [0, 1), as those of [Math.random] do, every
    component lies in [-1, 1). *)
Theorem generateEmbedding_shape w text st :
  (forall i, (0 <= random_stream st i)%Q /\ (random_stream st i < 1)%Q) ->
  exists v st',
    generateEmbedding w text st = (Ok v, st')
    /\ length v = 768
    /\ Forall in_unit_range v
    /\ (calls st' = calls st
        \/ exists url request, calls st' = calls st ++ [CallGemini url request]).
Proof.
  intros Hdraws.
  destruct (generateEmbedding_cases w text st) as (v & st' & H & Hl & Hc & Hr).
  exists v, st'. auto.
Qed.

Lemma generateEmbedding_shape_witness :
  let st := {| calls := []; random_stream := half_draws;
               clock_stream := wall_clock |} in
  exists v st',
    generateEmbedding by_embedding "alpha" st = (Ok v, st')
    /\ length v = 768
    /\ Forall in_unit_range v
    /\ (calls st' = calls st
        \/ exists url request, calls st' = calls st ++ [CallGemini url request]).
Proof.
  intros st. apply (generateEmbedding_shape by_embedding "alpha" st).
  intros i. cbn. unfold half_draws. split; lra.
Defined.

(** ** The requests of a multi-search *)

Lemma fan_out_text_calls w filters topK qs : forall st,
  calls (fan_out w qs filters false topK st).2
  = calls st ++ (text_call w filters topK <$> qs).
Proof.
  induction qs as [|q qs IH]; intros st; cbn [fan_out fmap list_fmap].
  - cbn [snd]. now rewrite app_nil_r.
  - pose proof (textSearchDocuments_calls w q filters topK st) as Hq.
    unfold search_query.
    destruct (textSearchDocuments w q filters topK st) as [[results|e] st'];
      cbn [snd] in Hq.
    + specialize (IH st').
      destruct (fan_out w qs filters false topK st') as [rest st''].
      cbn [snd] in *. rewrite IH, Hq, <- app_assoc. reflexivity.
    + rewrite IH, Hq, <- app_assoc. reflexivity.
Qed.

(** X8: without vector search a multi-search sends exactly one lexical
    request for each of the first six queries, in order, each asking for
    max(3, floor(maxResults / 2)) hits with the caller's filters; it calls
    nothing else, and a failing request does not stop the later ones. *)
Theorem multiSearch_lexical_requests w userQuery searchQueries filters
    maxResults st :
  calls (multiSearch w userQuery searchQueries filters false maxResults st).2
  = calls st
    ++ (text_call w filters (Z.max 3 (maxResults / 2)) <$> take 6 searchQueries).
Proof.
  rewrite multiSearch_eq. cbn [snd]. apply fan_out_text_calls.
Qed.

Lemma search_query_budget w q filters uv topK st :
  length (calls (search_query w q filters uv topK st).2)
  <= length (calls st) + 3.
Proof.
  destruct uv.
  - destruct (generateEmbedding_cases w q st) as (emb & st1 & Hemb & _ & Hc & _).
    assert (Hle : length (calls st1) <= length (calls st) + 1).
    { destruct Hc as [->|(url & request & ->)]; [lia|].
      rewrite length_app. cbn. lia. }
    rewrite (search_query_vector _ _ _ _ _ _ _ Hemb).
    pose proof (hybridSearchDocuments_calls w q emb filters topK st1) as Hh.
    destruct (hybridSearchDocuments w q emb filters topK st1)
      as [[[|r rs]|e] st2]; cbn [snd] in Hh |- *.
    + rewrite textSearchDocuments_calls, Hh, !length_app. cbn. lia.
    + rewrite Hh, length_app. cbn. lia.
    + rewrite Hh, length_app. cbn. lia.
  - unfold search_query. rewrite textSearchDocuments_calls, length_app.
    cbn. lia.
Qed.

Lemma fan_out_budget w filters uv topK qs : forall st,
  length (calls (fan_out w qs filters uv topK st).2)
  <= length (calls st) + 3 * length qs.
Proof.
  induction qs as [|q qs IH]; intros st; cbn [fan_out length]; [cbn; lia|].
  pose proof (search_query_budget w q filters uv topK st) as Hq.
  destruct (search_query w q filters uv topK st) as [[results|e] st'];
    cbn [snd] in Hq.
  - specialize (IH st').
    destruct (fan_out w qs filters uv topK st') as [rest st'']. cbn [snd] in *.
    lia.
  - specialize (IH st'). lia.
Qed.

(** X9: whatever the query list, the filters and the collaborators'
    replies, one multi-search makes at most eighteen requests: three (one
    embedding, one hybrid search, one lexical search) for each of at most six
    queries. *)
Theorem multiSearch_request_budget w userQuery searchQueries filters uv
    maxResults st :
  length (calls (multiSearch w userQuery searchQueries filters uv maxResults
                   st).2)
  <= length (calls st) + 18.
Proof.
  rewrite multiSearch_eq. cbn [snd].
  pose proof (fan_out_budget w filters uv (Z.max 3 (maxResults / 2))
                (take 6 searchQueries) st) as H.
  rewrite length_take in H. lia.
Qed.

(** X10: the query list that the handler searches holds the sanitised
    question twice at its front, once added by the handler and once as the
    planner's first query, so that without vector search the first two
    requests to the index are identical. *)
Theorem handler_repeats_first_request w raw filters maxResults st :
  let q := sanitizeInput raw in
  exists rest requests,
    q :: searchQueries (planInformationNeeds q) = q :: q :: rest
    /\ calls (multiSearch w q (q :: searchQueries (planInformationNeeds q))
                filters false maxResults st).2
       = calls st
         ++ text_call w filters (Z.max 3 (maxResults / 2)) q
         :: text_call w filters (Z.max 3 (maxResults / 2)) q
         :: requests.
Proof.
  intros q. destruct (planner_first_query q) as [rest Hrest].
  assert (Htrim : trim q = q) by apply sanitizeInput_trimmed.
  rewrite Htrim in Hrest. rewrite Hrest.
  exists rest. eexists. split; [reflexivity|].
  rewrite multiSearch_eq. cbn [snd]. rewrite fan_out_text_calls.
  reflexivity.
Qed.

(** ** The plan holds sets *)

Lemma fold_set_add_NoDup l : forall acc,
  NoDup acc -> NoDup (fold_left set_add l acc).
Proof.
  induction l as [|x l IH]; intros acc Hacc; cbn [fold_left]; [exact Hacc|].
  apply IH. unfold set_add. destruct (bool_decide (x ∈ acc)) eqn:Hx.
  - exact Hacc.
  - apply bool_decide_eq_false in Hx. apply NoDup_app.
    split; [exact Hacc|]. split.
    + intros y Hy Hyx. apply list_elem_of_singleton in Hyx. now subst y.
    + apply NoDup_singleton.
Qed.

Lemma array_from_set_NoDup l : NoDup (array_from_set l).
Proof. apply fold_set_add_NoDup, NoDup_nil_2. Qed.

Lemma push_if_elem b x l y : y ∈ push_if b x l -> y ∈ l \/ y = x.
Proof.
  unfold push_if. destruct b; [|now left].
  rewrite elem_of_app, list_elem_of_singleton. tauto.
Qed.

Lemma year_tokens_NoDup q : NoDup (years (planInformationNeeds q)).
Proof. unfold planInformationNeeds. cbn [years]. apply array_from_set_NoDup. Qed.

(** X11: the three lists of a plan hold no duplicate; the plan names no
    entity; every metric is one of the six that the planner knows; and every
    search query is the trimmed question, a metric alone (only when the
    question names no year), a metric followed by all the years, or a metric
    followed by one year. *)
Theorem plan_lists_are_sets q :
  let plan := planInformationNeeds q in
  NoDup (metrics plan) /\ NoDup (years plan) /\ NoDup (searchQueries plan)
  /\ entities plan = []
  /\ (forall m, m ∈ metrics plan -> m ∈ metric_names)
  /\ (forall s, s ∈ searchQueries plan ->
        s = trim q
        \/ (years plan = [] /\ s ∈ metrics plan)
        \/ exists m,
             m ∈ metrics plan
             /\ (s = m +:+ " " +:+ join " " (years plan)
                 \/ exists y, y ∈ years plan /\ s = m +:+ " " +:+ y)).
Proof.
  intros plan. split; [apply array_from_set_NoDup|].
  split; [apply year_tokens_NoDup|]. split; [apply array_from_set_NoDup|].
  split; [reflexivity|]. split.
  - intros m Hm. subst plan. unfold planInformationNeeds in Hm.
    cbn [metrics] in Hm. apply (proj1 (array_from_set_elem _ _)) in Hm.
    unfold metric_names.
    repeat (apply push_if_elem in Hm as [Hm| ->];
            [|rewrite !elem_of_cons; tauto]).
    now apply elem_of_nil in Hm.
  - intros s Hs. subst plan. unfold planInformationNeeds in *.
    cbn [searchQueries metrics years] in *.
    apply (proj1 (array_from_set_elem _ _)) in Hs. apply elem_of_cons in Hs as [->|Hs];
      [now left|right].
    set (ys := array_from_set _) in *. set (ms := push_if _ _ _) in *.
    destruct ys as [|y ys]; cbn [length Nat.ltb Nat.leb] in Hs.
    + left. split; [reflexivity|]. now apply (proj2 (array_from_set_elem _ _)).
    + right. apply elem_of_flat_map in Hs as (m & Hm & Hs). exists m.
      split; [now apply (proj2 (array_from_set_elem _ _))|].
      apply elem_of_cons in Hs as [->|Hs]; [now left|right].
      rewrite map_as_fmap in Hs. apply list_elem_of_fmap in Hs as (y' & -> & Hy).
      now exists y'.
Qed.

(** ** Sources *)

Lemma string_length_app a b :
  String.length (a +:+ b) = String.length a + String.length b.
Proof.
  induction a as [|c a IH]; [reflexivity|].
  change (S (String.length (a +:+ b)) = S (String.length a + String.length b)).
  now f_equal.
Qed.

Lemma string_length_str l : String.length (str l) = length l.
Proof.
  induction l as [|c l IH]; [reflexivity|].
  change (S (String.length (str l)) = S (length l)). now f_equal.
Qed.

Lemma string_length_chars s : length (chars s) = String.length s.
Proof. now rewrite <- string_length_str, str_chars. Qed.

Lemma string_app_empty s : s +:+ "" = s.
Proof.
  induction s as [|c s IH]; [reflexivity|].
  change (String c (s +:+ "") = String c s). now f_equal.
Qed.

Lemma clip_short n s : String.length s <= n -> clip n s = s.
Proof.
  intros Hle. unfold clip, substring0.
  rewrite take_ge by (rewrite string_length_chars; lia).
  rewrite str_chars. destruct (n <? String.length s) eqn:Hlt.
  - apply Nat.ltb_lt in Hlt. lia.
  - apply string_app_empty.
Qed.

Lemma clip_long n s :
  n < String.length s ->
  clip n s = substring0 n s +:+ "..." /\ String.length (clip n s) = n + 3.
Proof.
  intros Hlt. unfold clip. apply Nat.ltb_lt in Hlt as Hb. rewrite Hb.
  split; [reflexivity|]. rewrite string_length_app. unfold substring0.
  rewrite string_length_str, length_take, string_length_chars. cbn. lia.
Qed.

Lemma map_result_lookup {A B} (f : nat -> A -> Result B) l :
  forall index ys i x,
    map_result f index l = Ok ys ->
    l !! i = Some x ->
    exists y, ys !! i = Some y /\ f (index + i) x = Ok y.
Proof.
  induction l as [|a l IH]; intros index ys i x; cbn [map_result];
    [intros _ Hx; discriminate Hx|].
  destruct (f index a) as [y|e] eqn:Hy; [|discriminate].
  destruct (map_result f (S index) l) as [ys'|e] eqn:Hl; [|discriminate].
  intros [= <-] Hx. destruct i as [|i].
  - injection Hx as <-. exists y. now rewrite Nat.add_0_r.
  - destruct (IH _ _ _ _ Hl Hx) as (y' & Hy' & Hf). exists y'.
    split; [exact Hy'|]. now rewrite Nat.add_succ_r.
Qed.

(** X12: the conversion to sources of documents that have a content each
    keeps the number and the order of the documents; a source has the
    identifier, title, type and metadata of its document, a score of 0 when
    the document has none, and an excerpt of at most 203 characters: the
    whole content when that has at most 200 characters, otherwise its first
    200 characters followed by three dots.  The conversion throws when a
    document has no content. *)
Theorem convertToDocumentSources_pointwise results :
  (Forall (fun doc => is_Some (doc_content doc)) results ->
   exists converted,
     convertToDocumentSources results = Ok converted
     /\ length converted = length results
     /\ forall i doc content,
          results !! i = Some doc ->
          doc_content doc = Some content ->
          exists src,
            converted !! i = Some src
            /\ src_id src = doc_id doc
            /\ src_title src = doc_title doc
            /\ src_type src = doc_type doc
            /\ src_metadata src = doc_metadata doc
            /\ relevanceScore src = default 0%Q (doc__score doc)
            /\ String.length (excerpt src) <= 203
            /\ (String.length content <= 200 -> excerpt src = content)
            /\ (200 < String.length content ->
                excerpt src = substring0 200 content +:+ "..."))
  /\ (Exists (fun doc => doc_content doc = None) results ->
      exists e, convertToDocumentSources results = Throw e).
Proof.
  split; [|apply convertToDocumentSources_throws].
  intros Hall.
  destruct (convertToDocumentSources_ok results Hall)
    as (converted & Hc & Hlen).
  exists converted. split; [exact Hc|]. split; [exact Hlen|].
  intros i doc content Hdoc Hcontent.
  destruct (map_result_lookup _ _ _ _ _ _ Hc Hdoc) as (src & Hsrc & Hf).
  exists src. split; [exact Hsrc|].
  unfold source_of_document in Hf. rewrite Hcontent in Hf.
  injection Hf as <-.
  cbn [src_id src_title src_type src_metadata relevanceScore excerpt].
  repeat (split; [reflexivity|]).
  destruct (Nat.le_gt_cases (String.length content) 200) as [Hle|Hgt].
  - rewrite (clip_short _ _ Hle). split; [lia|]. split; [reflexivity|]. lia.
  - destruct (clip_long _ _ Hgt) as [Heq Hlen']. split; [lia|].
    split; [lia|]. intros _. exact Heq.
Qed.

(** ** Filters *)

Lemma terms_clause_elem field values c :
  c ∈ terms_clause field values ->
  exists v vs, values = Some (v :: vs) /\ c = Terms field (v :: vs).
Proof.
  unfold terms_clause. destruct values as [[|v vs]|]; intros Hc;
    try now apply elem_of_nil in Hc.
  apply list_elem_of_singleton in Hc. eauto.
Qed.

Lemma terms_clause_length field values :
  length (terms_clause field values) <= 1.
Proof.
  unfold terms_clause. destruct values as [[|v vs]|]; cbn; lia.
Qed.

(** X13: the filter builder gives at most five clauses and none without a
    filter object; a terms clause is only built for a non-empty list of
    values, over one of four fields; and the handler passes the clauses on
    only when there is at least one, otherwise no filter at all. *)
Theorem buildSearchFilters_clauses filters :
  length (buildSearchFilters filters) <= 5
  /\ (filters = None -> buildSearchFilters filters = [])
  /\ (forall field values,
        Terms field values ∈ buildSearchFilters filters ->
        values <> []
        /\ field ∈ ["type"; "metadata.category.keyword";
                    "metadata.department.keyword"; "metadata.tags"])
  /\ match handler_filters filters with
     | Some clauses => clauses = buildSearchFilters filters /\ clauses <> []
     | None => buildSearchFilters filters = []
     end.
Proof.
  split; [|split; [|split]].
  - destruct filters as [f|]; cbn [buildSearchFilters length]; [|lia].
    rewrite !length_app.
    pose proof (terms_clause_length "type" (documentTypes f)).
    pose proof (terms_clause_length "metadata.category.keyword" (categories f)).
    pose proof (terms_clause_length "metadata.department.keyword"
                  (departments f)).
    pose proof (terms_clause_length "metadata.tags" (filter_tags f)).
    destruct (dateRange f); cbn [length]; lia.
  - now intros ->.
  - intros field values Hin. destruct filters as [f|];
      cbn [buildSearchFilters] in Hin; [|now apply elem_of_nil in Hin].
    rewrite !elem_of_app in Hin.
    destruct Hin as [H|[H|[H|[H|H]]]];
      try (apply terms_clause_elem in H as (v & vs & _ & [= -> ->]);
           split; [discriminate|rewrite !elem_of_cons; tauto]).
    destruct (dateRange f); [|now apply elem_of_nil in H].
    apply list_elem_of_singleton in H. discriminate.
  - unfold handler_filters. cbv zeta.
    destruct (buildSearchFilters filters) as [|c cs]; cbn; [reflexivity|].
    split; [reflexivity|discriminate].
Qed.

(** ** The rate limiter *)

Lemma rateLimit_at_other now identifier limit windowMs store other :
  other <> identifier ->
  (rateLimit_at now identifier limit windowMs store).2 !! other
  = store !! other.
Proof.
  intros Hne. unfold rateLimit_at. cbv zeta.
  destruct (store !! identifier) as [record|].
  - destruct (now >? resetTime record)%Z; cbn [snd];
      [now apply lookup_insert_ne|].
    destruct (count record >=? limit)%Z; cbn [snd];
      [reflexivity|now apply lookup_insert_ne].
  - cbn [snd]. now apply lookup_insert_ne.
Qed.

Lemma rateLimit_at_local now identifier limit windowMs s1 s2 :
  s1 !! identifier = s2 !! identifier ->
  (rateLimit_at now identifier limit windowMs s1).1
  = (rateLimit_at now identifier limit windowMs s2).1
  /\ (rateLimit_at now identifier limit windowMs s1).2 !! identifier
     = (rateLimit_at now identifier limit windowMs s2).2 !! identifier.
Proof.
  intros Heq. unfold rateLimit_at. cbv zeta. rewrite <- Heq.
  destruct (s1 !! identifier) as [record|] eqn:H1.
  - destruct (now >? resetTime record)%Z; cbn [fst snd].
    { split; [reflexivity|]. now rewrite !lookup_insert_eq. }
    destruct (count record >=? limit)%Z; cbn [fst snd].
    { split; [reflexivity|]. now rewrite H1, Heq. }
    split; [reflexivity|]. now rewrite !lookup_insert_eq.
  - cbn [fst snd]. split; [reflexivity|]. now rewrite !lookup_insert_eq.
Qed.

Lemma answers_cons a rest store :
  answers (a :: rest) store
  = let r := rateLimit_at (arrival_time a) (arrival_client a)
               (arrival_limit a) (arrival_window a) store in
    ((a, r.1) :: (answers rest r.2).1, (answers rest r.2).2).
Proof.
  cbn [answers]. cbv zeta.
  destruct (rateLimit_at _ _ _ _ store) as [verdict store'].
  cbn [fst snd]. now destruct (answers rest store').
Qed.

Lemma verdicts_in_window client limit windowMs times :
  forall store record,
    store !! client = Some record ->
    Forall (fun t => (t <= resetTime record)%Z) times ->
    verdicts (calls_of client limit windowMs times) store
    = imap (fun j _ => bool_decide (count record + Z.of_nat j < limit)%Z)
        times.
Proof.
  unfold verdicts, calls_of.
  induction times as [|t times IH]; intros store record Hrec Hin;
    [reflexivity|].
  apply Forall_cons in Hin as [Ht Hin].
  rewrite fmap_cons, answers_cons. cbv zeta.
  cbn [arrival_time arrival_client arrival_limit arrival_window fst snd].
  rewrite fmap_cons. cbn [snd imap]. unfold rateLimit_at. cbv zeta.
  rewrite Hrec.
  destruct (t >? resetTime record)%Z eqn:Hgt; [lia|].
  destruct (count record >=? limit)%Z eqn:Hge; cbn [fst snd].
  - rewrite (IH store record Hrec Hin). f_equal.
    + symmetry. apply bool_decide_eq_false. lia.
    + apply imap_ext. intros j x _. cbn.
      rewrite !bool_decide_eq_false_2 by lia. reflexivity.
  - rewrite (IH _ {| count := count record + 1;
                     resetTime := resetTime record |}
               (lookup_insert_eq _ _ _) Hin).
    cbn [count resetTime]. f_equal.
    + symmetry. apply bool_decide_eq_true. lia.
    + apply imap_ext. intros j x _. cbn. apply bool_decide_ext. lia.
Qed.

(** X14: the request that opens a window is always admitted, even with a
    limit of zero or less; of the further requests of the same client that
    arrive before the window ends, in any order of their times, exactly those
    are admitted that come while fewer than [limit] requests were counted: the
    j-th of them (from 0) if and only if j + 1 < limit. *)
Theorem window_admits_up_to_limit client limit windowMs store t0 times :
  window_closed store client t0 ->
  Forall (fun t => (t <= t0 + windowMs)%Z) times ->
  verdicts (calls_of client limit windowMs (t0 :: times)) store
  = true :: imap (fun j _ => bool_decide (Z.of_nat j + 1 < limit)%Z) times.
Proof.
  intros Hclosed Hin. unfold verdicts, calls_of.
  rewrite fmap_cons, answers_cons. cbv zeta.
  cbn [arrival_time arrival_client arrival_limit arrival_window fst snd].
  rewrite fmap_cons. cbn [snd].
  assert (Hopen : rateLimit_at t0 client limit windowMs store
                  = (true, <[client := {| count := 1;
                                          resetTime := t0 + windowMs |}]> store)).
  { unfold rateLimit_at, window_closed in *. cbv zeta.
    destruct (store !! client) as [record|]; [|reflexivity].
    destruct (t0 >? resetTime record)%Z eqn:Hgt; [reflexivity|lia]. }
  rewrite Hopen. cbn [fst snd]. f_equal.
  pose proof (verdicts_in_window client limit windowMs times
                (<[client := {| count := 1;
                                resetTime := t0 + windowMs |}]> store)
                {| count := 1; resetTime := t0 + windowMs |}
                (lookup_insert_eq _ _ _) Hin) as H.
  unfold verdicts, calls_of in H. rewrite H. cbn [count].
  apply imap_ext. intros j x _. cbn. apply bool_decide_ext. lia.
Qed.

Lemma window_admits_up_to_limit_witness :
  window_closed ∅ "10.0.0.1" 0
  /\ Forall (fun t => (t <= 0 + 100)%Z) [5; 100; 7]%Z
  /\ verdicts (calls_of "10.0.0.1" 3 100 [0; 5; 100; 7]%Z) ∅
     = [true; true; true; false].
Proof.
  assert (H1 : window_closed ∅ "10.0.0.1" 0) by exact I.
  assert (H2 : Forall (fun t => (t <= 0 + 100)%Z) [5; 100; 7]%Z)
    by (repeat constructor; lia).
  split; [exact H1|]. split; [exact H2|].
  exact (window_admits_up_to_limit "10.0.0.1" 3 100 ∅ 0 [5; 100; 7]%Z H1 H2).
Defined.

(** X15: clients are counted apart: in any sequence of calls the verdicts
    that one client gets are those it would get if the calls of all other
    clients were left out. *)
Theorem clients_are_counted_apart client arrivals store :
  filter (fun av => arrival_client av.1 = client) (answers arrivals store).1
  = (answers (filter (fun a => arrival_client a = client) arrivals) store).1.
Proof.
  enough (H : forall s1 s2,
             s1 !! client = s2 !! client ->
             filter (fun av => arrival_client av.1 = client)
               (answers arrivals s1).1
             = (answers (filter (fun a => arrival_client a = client) arrivals)
                  s2).1) by now apply H.
  induction arrivals as [|a rest IH]; intros s1 s2 Heq; [reflexivity|].
  rewrite answers_cons. cbv zeta. cbn [fst].
  destruct (decide (arrival_client a = client)) as [Hc|Hc].
  - rewrite filter_cons_True by exact Hc.
    rewrite (filter_cons_True (fun a => arrival_client a = client)) by exact Hc.
    rewrite answers_cons. cbv zeta. cbn [fst]. rewrite Hc.
    destruct (rateLimit_at_local (arrival_time a) client (arrival_limit a)
                (arrival_window a) s1 s2 Heq) as [Hv Hs].
    rewrite Hv. f_equal. now apply IH.
  - rewrite filter_cons_False by exact Hc.
    rewrite (filter_cons_False (fun a => arrival_client a = client))
      by exact Hc.
    apply IH. rewrite rateLimit_at_other by congruence. exact Heq.
Qed.

Lemma cleanup_step now t identifier limit windowMs s1 s2 :
  (now <= t)%Z ->
  (forall k, s1 !! k = s2 !! k
             \/ (s1 !! k = None
                 /\ exists record,
                      s2 !! k = Some record /\ (resetTime record < now)%Z)) ->
  (rateLimit_at t identifier limit windowMs s1).1
  = (rateLimit_at t identifier limit windowMs s2).1
  /\ forall k,
       (rateLimit_at t identifier limit windowMs s1).2 !! k
       = (rateLimit_at t identifier limit windowMs s2).2 !! k
       \/ ((rateLimit_at t identifier limit windowMs s1).2 !! k = None
           /\ exists record,
                (rateLimit_at t identifier limit windowMs s2).2 !! k
                = Some record
                /\ (resetTime record < now)%Z).
Proof.
  intros Hle Hrel.
  assert (Hid : (rateLimit_at t identifier limit windowMs s1).1
                = (rateLimit_at t identifier limit windowMs s2).1
                /\ (rateLimit_at t identifier limit windowMs s1).2 !! identifier
                   = (rateLimit_at t identifier limit windowMs s2).2
                       !! identifier).
  { destruct (Hrel identifier) as [Heq|(Hnone & record & Hsome & Hold)].
    - now apply rateLimit_at_local.
    - unfold rateLimit_at. cbv zeta. rewrite Hnone, Hsome.
      destruct (t >? resetTime record)%Z eqn:Hgt; [|lia].
      cbn [fst snd]. split; [reflexivity|]. now rewrite !lookup_insert_eq. }
  destruct Hid as [Hv Hs]. split; [exact Hv|]. intros k.
  destruct (decide (k = identifier)) as [->|Hne]; [now left|].
  rewrite !rateLimit_at_other by exact Hne. apply Hrel.
Qed.

Lemma cleanup_answers now arrivals :
  forall s1 s2,
    Forall (fun a => (now <= arrival_time a)%Z) arrivals ->
    (forall k, s1 !! k = s2 !! k
               \/ (s1 !! k = None
                   /\ exists record,
                        s2 !! k = Some record /\ (resetTime record < now)%Z)) ->
    (answers arrivals s1).1 = (answers arrivals s2).1.
Proof.
  induction arrivals as [|a rest IH]; intros s1 s2 Hall Hrel; [reflexivity|].
  apply Forall_cons in Hall as [Ha Hall].
  rewrite !answers_cons. cbv zeta. cbn [fst].
  destruct (cleanup_step now (arrival_time a) (arrival_client a)
              (arrival_limit a) (arrival_window a) s1 s2 Ha Hrel) as [Hv Hs].
  rewrite Hv. f_equal. now apply IH.
Qed.

(** X16: the periodic clean-up cannot be observed: after the records whose
    window was over at [now] are deleted, every later sequence of calls, of
    whatever clients, limits and windows, gets the verdicts it would have got
    without the clean-up. *)
Theorem cleanup_is_unobservable now arrivals store :
  Forall (fun a => (now <= arrival_time a)%Z) arrivals ->
  (answers arrivals (cleanup_at now store)).1 = (answers arrivals store).1.
Proof.
  intros Hall. apply (cleanup_answers now); [exact Hall|]. intros k.
  unfold cleanup_at. destruct (store !! k) as [record|] eqn:Hk.
  - destruct (decide (resetTime record < now)%Z) as [Hold|Hlive].
    + right. split; [|now exists record].
      apply map_lookup_filter_None. right. intros x Hx. cbn.
      rewrite Hk in Hx. injection Hx as <-. tauto.
    + left. apply map_lookup_filter_Some. split; [exact Hk|exact Hlive].
  - left. apply map_lookup_filter_None. now left.
Qed.

Lemma cleanup_is_unobservable_witness :
  let store :=
    (answers (calls_of "a" 1 10 [0]%Z ++ calls_of "b" 1 100 [0]%Z) ∅).2 in
  let arrivals := calls_of "a" 1 10 [60]%Z ++ calls_of "b" 1 100 [60]%Z in
  Forall (fun a => (50 <= arrival_time a)%Z) arrivals
  /\ (answers arrivals (cleanup_at 50 store)).1 = (answers arrivals store).1.
Proof.
  intros store arrivals.
  assert (H : Forall (fun a => (50 <= arrival_time a)%Z) arrivals)
    by (repeat constructor; cbn; lia).
  split; [exact H|].
  exact (cleanup_is_unobservable 50 arrivals store H).
Defined.

(** ** The security middleware *)

Lemma rateLimit_eq identifier limit windowMs s :
  rateLimit identifier limit windowMs s
  = let r := rateLimit_at (clock_stream (collaborators s) 0) identifier limit
               windowMs (rateLimitStore s) in
    (Ok r.1, {| rateLimitStore := r.2;
                collaborators := (Date_now (collaborators s)).2 |}).
Proof.
  unfold rateLimit, bind, lift, Date_now. cbn [fst snd rateLimitStore
    collaborators]. cbv zeta.
  now destruct (rateLimit_at _ identifier limit windowMs (rateLimitStore s)).
Qed.

Lemma withSecurity_eq {B T} env (handler : NextRequest B -> M St (Served T))
    options request s :
  withSecurity env handler options request s
  = if String.eqb (req_method request) "OPTIONS" then
      (Ok {| served_body := None;
             served_status := 200;
             served_headers :=
               headers_set_all
                 (getCorsHeaders env (origin_of request) ++ getSecurityHeaders)
                 ∅ |}, s)
    else if negb (bool_decide (req_method request ∈ methods_of options)) then
      (Ok (served (createErrorResponse "Method not allowed" 405)), s)
    else if negb (admission options request s).1 then
      (Ok (served (createErrorResponse
                     "Rate limit exceeded. Please try again later." 429)),
       after_limiter options request s)
    else if auth_of options && negb (validateApiKey env request) then
      (Ok (served (createErrorResponse
                     "Unauthorized. Valid API key required." 401)),
       after_limiter options request s)
    else
      match handler request (Date_now (collaborators s)).2 with
      | (Ok response, st') =>
          (Ok {| served_body := served_body response;
                 served_status := served_status response;
                 served_headers :=
                   headers_set_all getSecurityHeaders
                     (headers_set_all (getCorsHeaders env (origin_of request))
                        (served_headers response)) |},
           {| rateLimitStore := (admission options request s).2;
              collaborators := st' |})
      | (Throw _, st') =>
          (Ok (served (createErrorResponse "Internal server error" 500)),
           {| rateLimitStore := (admission options request s).2;
              collaborators := st' |})
      end.
Proof.
  unfold withSecurity. cbv zeta.
  fold (methods_of options) (auth_of options) (limit_of options)
    (window_of options) (client_of request) (origin_of request).
  destruct (String.eqb (req_method request) "OPTIONS"); [reflexivity|].
  destruct (negb (bool_decide (req_method request ∈ methods_of options)));
    [reflexivity|].
  unfold bind at 1. rewrite rateLimit_eq. cbv beta iota zeta.
  fold (admission options request s). fold (after_limiter options request s).
  destruct (negb (admission options request s).1); [reflexivity|].
  destruct (auth_of options && negb (validateApiKey env request));
    [reflexivity|].
  unfold try_catch, bind, lift, ret, after_limiter.
  cbn [collaborators rateLimitStore].
  destruct (handler request (Date_now (collaborators s)).2)
    as [[response|e] st']; reflexivity.
Qed.

Ltac lower_case_names :=
  repeat match goal with
         | |- context [toLowerCase ?name] =>
             let v := eval vm_compute in (toLowerCase name) in
             change (toLowerCase name) with v
         end.

Lemma overlaid_headers env origin (h : Headers) :
  let h' := headers_set_all getSecurityHeaders
              (headers_set_all (getCorsHeaders env origin) h) in
  cors_origin_ok env origin (headers_get "Access-Control-Allow-Origin" h')
  /\ headers_get "X-Frame-Options" h' = Some "DENY"
  /\ headers_get "X-Content-Type-Options" h' = Some "nosniff".
Proof.
  intros h'. subst h'.
  unfold headers_set_all, getSecurityHeaders, getCorsHeaders, headers_get,
    headers_set, cors_origin_ok.
  cbn [fold_left fst snd]. cbv zeta. lower_case_names.
  split; [|split].
  - rewrite !lookup_insert_ne by discriminate. rewrite lookup_insert_eq.
    destruct (truthy origin) as [o|]; [|reflexivity].
    cbn [default]. now destruct (bool_decide (o ∈ allowedOrigins env)).
  - rewrite !lookup_insert_ne by discriminate. now rewrite lookup_insert_eq.
  - rewrite !lookup_insert_ne by discriminate. now rewrite lookup_insert_eq.
Qed.

Lemma preflight_headers env origin :
  let h' := headers_set_all (getCorsHeaders env origin ++ getSecurityHeaders)
              ∅ in
  cors_origin_ok env origin (headers_get "Access-Control-Allow-Origin" h')
  /\ headers_get "X-Frame-Options" h' = Some "DENY"
  /\ headers_get "X-Content-Type-Options" h' = Some "nosniff".
Proof.
  intros h'. subst h'. unfold headers_set_all. rewrite fold_left_app.
  apply (overlaid_headers env origin ∅).
Qed.

Lemma error_headers {T} message status :
  headers_get "Access-Control-Allow-Origin"
    (served_headers (served (@createErrorResponse T message status)))
  = None.
Proof. vm_compute. reflexivity. Qed.

(** X17: the middleware never throws, whatever the handler does.  The
    response is either one of its own four error responses (405, 429, 401 or
    500), which carry no CORS header, or the preflight response or the
    handler's response with its status and body unchanged; these two carry
    the security headers and a CORS origin that is the wildcard when the
    request names no origin, the request's origin when it is on the list of
    allowed origins, and the literal null otherwise, whatever headers the
    handler had set. *)
Theorem withSecurity_never_throws {B T} env
    (handler : NextRequest B -> M St (Served T)) options request s :
  exists response s',
    withSecurity env handler options request s = (Ok response, s')
    /\ ((exists message status,
           (message, status) ∈ middleware_errors
           /\ response = served (createErrorResponse message status)
           /\ headers_get "Access-Control-Allow-Origin"
                (served_headers response) = None)
        \/ (((req_method request = "OPTIONS"
              /\ served_status response = 200
              /\ served_body response = None)
             \/ exists st made st',
                  handler request st = (Ok made, st')
                  /\ collaborators s' = st'
                  /\ served_status response = served_status made
                  /\ served_body response = served_body made)
            /\ cors_origin_ok env (origin_of request)
                 (headers_get "Access-Control-Allow-Origin"
                    (served_headers response))
            /\ headers_get "X-Frame-Options" (served_headers response)
               = Some "DENY"
            /\ headers_get "X-Content-Type-Options" (served_headers response)
               = Some "nosniff")).
Proof.
  rewrite withSecurity_eq.
  assert (Herr : forall message status s',
            (message, status) ∈ middleware_errors ->
            exists response s'',
              (Ok (served (@createErrorResponse T message status)), s')
              = (Ok response, s'')
              /\ ((exists message status,
                     (message, status) ∈ middleware_errors
                     /\ response = served (createErrorResponse message status)
                     /\ headers_get "Access-Control-Allow-Origin"
                          (served_headers response) = None)
                  \/ (((req_method request = "OPTIONS"
                        /\ served_status response = 200
                        /\ served_body response = None)
                       \/ exists st made st',
                            handler request st = (Ok made, st')
                            /\ collaborators s'' = st'
                            /\ served_status response = served_status made
                            /\ served_body response = served_body made)
                      /\ cors_origin_ok env (origin_of request)
                           (headers_get "Access-Control-Allow-Origin"
                              (served_headers response))
                      /\ headers_get "X-Frame-Options"
                           (served_headers response) = Some "DENY"
                      /\ headers_get "X-Content-Type-Options"
                           (served_headers response) = Some "nosniff"))).
  { intros message status s' Hin. eexists _, _. split; [reflexivity|]. left.
    exists message, status. split; [exact Hin|]. split; [reflexivity|].
    apply error_headers. }
  destruct (String.eqb (req_method request) "OPTIONS") eqn:Hm.
  { apply String.eqb_eq in Hm. eexists _, _. split; [reflexivity|]. right.
    cbn [served_status served_body served_headers].
    split; [left; now repeat split|]. apply preflight_headers. }
  destruct (negb (bool_decide (req_method request ∈ methods_of options))).
  { apply Herr. unfold middleware_errors. rewrite !elem_of_cons. tauto. }
  destruct (negb (admission options request s).1).
  { apply Herr. unfold middleware_errors. rewrite !elem_of_cons. tauto. }
  destruct (auth_of options && negb (validateApiKey env request)).
  { apply Herr. unfold middleware_errors. rewrite !elem_of_cons. tauto. }
  destruct (handler request (Date_now (collaborators s)).2)
    as [[made|e] st'] eqn:Hh.
  - eexists _, _. split; [reflexivity|]. right.
    cbn [served_status served_body served_headers collaborators].
    split; [|apply overlaid_headers].
    right. exists (Date_now (collaborators s)).2, made, st'.
    split; [exact Hh|]. now repeat split.
  - apply Herr. unfold middleware_errors. rewrite !elem_of_cons. tauto.
Qed.

(** X18: a preflight request and a request with a method that is not
    allowed are answered before the limiter is consulted: the server is left
    as it was, so such requests are neither counted nor ever refused, the
    clock is not read and the handler is not run.  A preflight request gets
    status 200 even when OPTIONS is not among the allowed methods. *)
Theorem unlimited_requests {B T} env
    (handler : NextRequest B -> M St (Served T)) options request s :
  req_method request = "OPTIONS"
  \/ req_method request ∉ methods_of options ->
  exists response,
    withSecurity env handler options request s = (Ok response, s)
    /\ served_status response
       = (if String.eqb (req_method request) "OPTIONS" then 200 else 405).
Proof.
  intros Hcase. rewrite withSecurity_eq.
  destruct (String.eqb (req_method request) "OPTIONS") eqn:Hm.
  { eexists. split; reflexivity. }
  destruct Hcase as [Hopt|Hnot].
  { apply String.eqb_neq in Hm. contradiction. }
  rewrite bool_decide_eq_false_2 by exact Hnot. cbn [negb].
  eexists. split; reflexivity.
Qed.

Lemma unlimited_requests_witness :
  exists response,
    withSecurity local_env (query_handler hybrid_empty)
      {| opt_requireAuth := Some true; opt_rateLimit := Some 0%Z;
         opt_rateLimitWindow := None; opt_allowedMethods := Some ["POST"] |}
      (preflight_from "10.0.0.1") busy_server
    = (Ok response, busy_server)
    /\ served_status response = 200.
Proof.
  exact (unlimited_requests local_env (query_handler hybrid_empty)
           {| opt_requireAuth := Some true; opt_rateLimit := Some 0%Z;
              opt_rateLimitWindow := None;
              opt_allowedMethods := Some ["POST"] |}
           (preflight_from "10.0.0.1") busy_server
           (or_introl eq_refl)).
Defined.

Lemma refusal_keeps_store now identifier limit windowMs store :
  (rateLimit_at now identifier limit windowMs store).1 = false ->
  (rateLimit_at now identifier limit windowMs store).2 = store.
Proof.
  unfold rateLimit_at. cbv zeta.
  destruct (store !! identifier) as [record|]; [|discriminate].
  destruct (now >? resetTime record)%Z; [discriminate|].
  now destruct (count record >=? limit)%Z.
Qed.

(** X19: a request that the limiter refuses is answered with status 429;
    the handler is not run, no collaborator is called, and the store is left
    as it was, so that a refused request does not prolong the window.  Only
    the clock has been read, once. *)
Theorem refused_request_is_not_handled {B T} env
    (handler : NextRequest B -> M St (Served T)) options request s :
  req_method request <> "OPTIONS" ->
  req_method request ∈ methods_of options ->
  (admission options request s).1 = false ->
  withSecurity env handler options request s
  = (Ok (served (createErrorResponse
                   "Rate limit exceeded. Please try again later." 429)),
     {| rateLimitStore := rateLimitStore s;
        collaborators := (Date_now (collaborators s)).2 |}).
Proof.
  intros Hm Hin Hno. rewrite withSecurity_eq.
  apply String.eqb_neq in Hm. rewrite Hm.
  rewrite bool_decide_eq_true_2 by exact Hin. cbn [negb].
  rewrite Hno. cbn [negb]. unfold after_limiter, admission in *.
  now rewrite refusal_keeps_store.
Qed.

Lemma refused_request_is_not_handled_witness :
  withSecurity local_env (query_handler hybrid_empty) query_options
    (post_from "10.0.0.1" "q1") busy_server
  = (Ok (served (createErrorResponse
                   "Rate limit exceeded. Please try again later." 429)),
     {| rateLimitStore := rateLimitStore busy_server;
        collaborators := (Date_now (collaborators busy_server)).2 |}).
Proof.
  apply (refused_request_is_not_handled local_env (query_handler hybrid_empty)
           query_options (post_from "10.0.0.1" "q1") busy_server).
  - discriminate.
  - apply list_elem_of_further, list_elem_of_here.
  - vm_compute. reflexivity.
Defined.

Lemma admission_counts {B} options (request : NextRequest B) s :
  (admission options request s).1 = true ->
  is_Some ((admission options request s).2 !! client_of request).
Proof.
  unfold admission, rateLimit_at. cbv zeta.
  destruct (rateLimitStore s !! client_of request) as [record|].
  - destruct (_ >? resetTime record)%Z; cbn [fst snd].
    { intros _. rewrite lookup_insert_eq. eauto. }
    destruct (count record >=? _)%Z; cbn [fst snd]; [discriminate|].
    intros _. rewrite lookup_insert_eq. eauto.
  - cbn [fst snd]. intros _. rewrite lookup_insert_eq. eauto.
Qed.

(** X20: the limiter runs before the API key is checked: on a route that
    requires authentication, an admitted request without the valid key gets
    status 401 without the handler being run, yet it has been counted in
    the client's window.  No key is valid when the environment names none or
    an empty one. *)
Theorem unauthorised_request_is_counted {B T} env
    (handler : NextRequest B -> M St (Served T)) options request s :
  auth_of options = true ->
  req_method request <> "OPTIONS" ->
  req_method request ∈ methods_of options ->
  (admission options request s).1 = true ->
  truthy (env_API_KEY env) = None
  \/ req_header request "x-api-key" <> env_API_KEY env ->
  exists s',
    withSecurity env handler options request s
    = (Ok (served (createErrorResponse
                     "Unauthorized. Valid API key required." 401)), s')
    /\ rateLimitStore s' = (admission options request s).2
    /\ is_Some (rateLimitStore s' !! client_of request)
    /\ collaborators s' = (Date_now (collaborators s)).2.
Proof.
  intros Hauth Hm Hin Hyes Hkey. rewrite withSecurity_eq.
  apply String.eqb_neq in Hm. rewrite Hm.
  rewrite bool_decide_eq_true_2 by exact Hin. cbn [negb].
  rewrite Hyes, Hauth. cbn [negb andb].
  assert (Hv : validateApiKey env request = false).
  { unfold validateApiKey. cbv zeta.
    destruct (truthy (env_API_KEY env)) as [expected|] eqn:Hexp;
      [|reflexivity].
    destruct Hkey as [Hnone|Hne]; [discriminate|].
    apply bool_decide_eq_false_2. intros Heq. apply Hne. rewrite Heq.
    unfold truthy in Hexp. destruct (env_API_KEY env) as [k|]; [|discriminate].
    destruct (String.eqb k ""); [discriminate|]. congruence. }
  rewrite Hv. cbn [negb]. eexists. split; [reflexivity|].
  unfold after_limiter. cbn [rateLimitStore collaborators].
  split; [reflexivity|]. split; [|reflexivity].
  now apply admission_counts.
Qed.

Lemma unauthorised_request_is_counted_witness :
  exists s',
    withSecurity local_env (query_handler hybrid_empty) protected_options
      (post_from "10.0.0.1" "q1") fresh_server
    = (Ok (served (createErrorResponse
                     "Unauthorized. Valid API key required." 401)), s')
    /\ rateLimitStore s'
       = (admission protected_options (post_from "10.0.0.1" "q1")
            fresh_server).2
    /\ is_Some (rateLimitStore s' !! client_of (post_from "10.0.0.1" "q1"))
    /\ collaborators s' = (Date_now (collaborators fresh_server)).2.
Proof.
  apply (unauthorised_request_is_counted local_env
           (query_handler hybrid_empty) protected_options
           (post_from "10.0.0.1" "q1") fresh_server).
  - reflexivity.
  - discriminate.
  - apply list_elem_of_further, list_elem_of_here.
  - vm_compute. reflexivity.
  - left. reflexivity.
Defined.

(** ** The query endpoint *)

Ltac listed :=
  repeat first [apply list_elem_of_here | apply list_elem_of_further].

Lemma generateAIResponse_budget w query results history st :
  length (calls (generateAIResponse w query results history st).2)
  <= length (calls st) + 1.
Proof.
  rewrite generateAIResponse_eq.
  destruct (final_prompt w query results history) as [prompt|e];
    [|cbn; lia].
  rewrite callGeminiAPI_eq.
  destruct (gemini_url w) as [url|]; [|cbn; lia]. cbv zeta.
  destruct (gemini_fetch w url _) as [e|response];
    [cbn; rewrite length_app; cbn; lia|].
  destruct (ok response); [|cbn; rewrite length_app; cbn; lia].
  destruct (body_json response); cbn; rewrite length_app; cbn; lia.
Qed.

Lemma handleQuery_budget w body st :
  exists response st',
    handleQuery w body st = (Ok response, st')
    /\ resp_status response ∈ [200; 400; 500]
    /\ response <> createErrorResponse "Internal server error" 500
    /\ length (calls st') <= length (calls st) + 19
    /\ (resp_status response = 400 -> calls st' = calls st).
Proof.
  destruct body as [b|].
  - destruct (query b) as [q|] eqn:Hq.
    + destruct (decide (sanitizeInput q = "")) as [He|Hne].
      * rewrite (handleQuery_rejects_empty _ _ _ _ Hq He).
        eexists _, _. split; [reflexivity|]. cbn [resp_status createErrorResponse].
        split; [listed|]. split; [discriminate|].
        split; [lia|reflexivity].
      * destruct (history_of b) as [history|] eqn:Hhist.
        -- destruct (handleQuery_accepts w b q history st Hq Hne Hhist)
             as (results & st1 & a & st2 & t & Hms & Hgen & ->).
           eexists _, _. split; [reflexivity|].
           split; [destruct (convertToDocumentSources results); listed|].
           split; [destruct (convertToDocumentSources results); discriminate|].
           split;
             [|destruct (convertToDocumentSources results); discriminate].
           pose proof (f_equal (fun p => length (calls p.2)) Hms) as H1.
           pose proof (f_equal (fun p => length (calls p.2)) Hgen) as H2.
           cbv beta in H1, H2. rewrite multiSearch_eq in H1.
           rewrite settled_calls in H2.
           cbn [snd] in H1, H2.
           pose proof (fan_out_budget w (handler_filters (filters b))
                         (default true (useVectorSearch b))
                         (Z.max 3 (default 10%Z (maxResults b) / 2))
                         (take 6 (handler_queries (sanitizeInput q)))
                         (Date_now st).2) as Hf.
           rewrite length_take in Hf.
           pose proof (generateAIResponse_budget w (sanitizeInput q) results
                         history st1) as Hg.
           change (calls (Date_now st).2) with (calls st) in Hf.
           change (calls (Date_now st2).2) with (calls st2).
           lia.
        -- rewrite (handleQuery_null_history _ _ _ _ Hq Hne Hhist).
           eexists _, _. split; [reflexivity|].
           cbn [resp_status createErrorResponse internal_error].
           split; [listed|]. split; [discriminate|].
           split; [lia|reflexivity].
    + unfold handleQuery, try_catch. rewrite Hq.
      eexists _, _. split; [reflexivity|]. cbn [resp_status createErrorResponse].
      split; [listed|]. split; [discriminate|].
      split; [lia|reflexivity].
  - eexists _, _. split; [reflexivity|]. cbn [resp_status createErrorResponse].
    split; [listed|]. split; [discriminate|].
    split; [lia|reflexivity].
Qed.

(** X21: the query endpoint, the handler behind the middleware with 50
    requests per 15 minutes, never throws.  Its status is 200, 400, 405, 429
    or 500, never 401; the middleware's own answer for a handler that threw
    cannot occur, since the handler catches everything; one request causes at
    most 19 requests to the model and the index, and none at all when its
    status is 400, 405 or 429. *)
Theorem POST_outcomes w env request s :
  exists response s',
    POST w env request s = (Ok response, s')
    /\ served_status response ∈ [200; 400; 405; 429; 500]
    /\ served_body response
       <> Some (createErrorResponse "Internal server error" 500)
    /\ length (calls (collaborators s'))
       <= length (calls (collaborators s)) + 19
    /\ (served_status response ∈ [400; 405; 429] ->
        calls (collaborators s') = calls (collaborators s)).
Proof.
  unfold POST. rewrite withSecurity_eq.
  destruct (String.eqb (req_method request) "OPTIONS").
  { eexists _, _. split; [reflexivity|]. cbn [served_status served_body].
    split; [listed|]. split; [discriminate|].
    split; [lia|reflexivity]. }
  destruct (negb (bool_decide _)).
  { eexists _, _. split; [reflexivity|].
    cbn [served_status served_body served resp_status createErrorResponse].
    split; [listed|]. split; [intros [=]|].
    split; [lia|reflexivity]. }
  destruct (negb (admission _ request s).1).
  { eexists _, _. split; [reflexivity|].
    cbn [served_status served_body served resp_status createErrorResponse].
    split; [listed|]. split; [intros [=]|].
    unfold after_limiter. cbn [collaborators].
    change (calls (Date_now (collaborators s)).2) with (calls (collaborators s)).
    split; [lia|reflexivity]. }
  change (auth_of _) with false. cbn [andb].
  unfold query_handler at 1, bind, ret.
  destruct (handleQuery_budget w (req_json request)
              (Date_now (collaborators s)).2)
    as (r & st' & -> & Hstatus & Hnot & Hle & Hcalls).
  change (calls (Date_now (collaborators s)).2) with (calls (collaborators s))
    in Hle, Hcalls.
  eexists _, _. split; [reflexivity|].
  cbn [served_status served_body served collaborators].
  split.
  { rewrite !elem_of_cons in Hstatus.
    destruct Hstatus as [->|[->|[->|Hnil]]]; [listed..|].
    now apply elem_of_nil in Hnil. }
  split; [congruence|]. split; [exact Hle|].
  intros Hin. apply Hcalls.
  rewrite !elem_of_cons in Hstatus, Hin.
  destruct Hstatus as [Hs|[Hs|[Hs|Hnil]]];
    [|exact Hs| |now apply elem_of_nil in Hnil];
    rewrite Hs in Hin;
    (destruct Hin as [|[|[|Hn]]]; try discriminate;
     now apply elem_of_nil in Hn).
Qed.

(** ** Index maintenance *)

Section MaintenanceFacts.
Import Maintenance.

Lemma request_eq c endpoint method body sent :
  elasticsearchRequest c endpoint method body sent
  = (reply_of c sent {| verb := method; endpoint := endpoint;
                        payload := body |},
     sent ++ [{| verb := method; endpoint := endpoint; payload := body |}]).
Proof.
  unfold elasticsearchRequest, reply_of, bind, get, put, throw, ret.
  destruct (cluster_fetch c sent _) as [e|response]; [reflexivity|].
  destruct (negb (ok response)); [reflexivity|].
  now destruct (body_json response).
Qed.

Lemma initializeElasticsearchIndex_eq c sent :
  initializeElasticsearchIndex c sent
  = match reply_of c sent (exists_request c) with
    | Ok _ => (Ok tt, sent ++ [exists_request c])
    | Throw _ =>
        match reply_of c (sent ++ [exists_request c]) (create_request c) with
        | Throw e => (Throw e, sent ++ [exists_request c; create_request c])
        | Ok _ =>
            match reply_of c (sent ++ [exists_request c; create_request c])
                    (mapping_request c) with
            | Ok _ =>
                (Ok tt, sent ++ [exists_request c; create_request c;
                                 mapping_request c])
            | Throw e =>
                (Throw e, sent ++ [exists_request c; create_request c;
                                   mapping_request c])
            end
        end
    end.
Proof.
  unfold initializeElasticsearchIndex, try_catch, bind, ret, throw.
  rewrite request_eq. fold (exists_request c).
  destruct (reply_of c sent (exists_request c)) as [j|e]; [reflexivity|].
  rewrite request_eq. fold (create_request c). rewrite <- !app_assoc.
  cbn [app].
  destruct (reply_of c _ (create_request c)) as [j|e']; [|reflexivity].
  cbn [negb]. rewrite request_eq. fold (mapping_request c).
  rewrite <- !app_assoc. cbn [app].
  now destruct (reply_of c _ (mapping_request c)).
Qed.

Ltac verbs :=
  repeat first [solve [constructor] | (constructor; [cbn; auto|])].

Lemma checkElasticsearchHealth_eq c sent :
  checkElasticsearchHealth c sent
  = match reply_of c sent (count_request c) with
    | Ok _ => (Ok true, sent ++ [count_request c])
    | Throw message =>
        if includes message "404" then
          match initializeElasticsearchIndex c (sent ++ [count_request c]) with
          | (Ok _, st) =>
              match reply_of c st (count_request c) with
              | Ok _ => (Ok true, st ++ [count_request c])
              | Throw _ => (Ok false, st ++ [count_request c])
              end
          | (Throw _, st) => (Ok false, st)
          end
        else (Ok false, sent ++ [count_request c])
    end.
Proof.
  unfold checkElasticsearchHealth, try_catch, bind, ret.
  rewrite request_eq. fold (count_request c).
  destruct (reply_of c sent (count_request c)) as [j|message]; [reflexivity|].
  destruct (includes message "404"); [|reflexivity].
  destruct (initializeElasticsearchIndex c (sent ++ [count_request c]))
    as [[[]|e] st]; [|reflexivity].
  rewrite request_eq. fold (count_request c).
  now destruct (reply_of c st (count_request c)).
Qed.

(** The runs of the health check, by the requests it has sent. *)
Ltac health_runs c sent :=
  rewrite checkElasticsearchHealth_eq;
  destruct (reply_of c sent (count_request c)) as [?j|?message] eqn:Hfirst;
  [|destruct (includes _ "404") eqn:H404;
    [rewrite initializeElasticsearchIndex_eq;
     destruct (reply_of c (sent ++ [count_request c]) (exists_request c))
       as [?j|?e] eqn:Hexists;
     [|destruct (reply_of c ((sent ++ [count_request c])
                             ++ [exists_request c]) (create_request c))
         as [?j|?e] eqn:Hcreate;
       [destruct (reply_of c ((sent ++ [count_request c])
                              ++ [exists_request c; create_request c])
                    (mapping_request c)) as [?j|?e] eqn:Hmapping|]]|]];
  rewrite <- ?app_assoc in *; cbn [app] in *;
  try match goal with
      | |- context [reply_of c ?st (count_request c)] =>
          lazymatch st with
          | sent => fail
          | _ => destruct (reply_of c st (count_request c))
                   as [?j|?e] eqn:Hsecond
          end
      end;
  rewrite <- ?app_assoc in *; cbn [app] in *.

(** X22: the health check never throws.  It sends between one and five
    requests, the first a count, all of them GET or PUT; it answers true
    only when the last request sent was a count that succeeded; and it goes
    beyond the first count only when that failed with a message that holds
    404, in which case it tries to create the index. *)
Theorem checkElasticsearchHealth_never_throws c sent :
  exists healthy more,
    checkElasticsearchHealth c sent = (Ok healthy, sent ++ more)
    /\ 1 <= length more <= 5
    /\ head more = Some (count_request c)
    /\ Forall (fun r => verb r = HttpGet \/ verb r = HttpPut) more
    /\ (healthy = true ->
        exists before,
          more = before ++ [count_request c]
          /\ succeeds c (sent ++ before) (count_request c))
    /\ (1 < length more ->
        exists message,
          reply_of c sent (count_request c) = Throw message
          /\ includes message "404" = true).
Proof.
  health_runs c sent;
    (eexists _, _; split; [reflexivity|]; split; [cbn; lia|];
     split; [reflexivity|]; split; [verbs|]; split;
     [first
        [ discriminate
        | intros _;
          match goal with
          | |- exists before, ?more = _ /\ _ => exists (removelast more)
          end;
          split; [reflexivity|]; cbn [removelast]; rewrite ?app_nil_r;
          eexists; eassumption ]
     |first
        [ cbn; lia
        | intros _; eexists; split; [reflexivity|assumption] ]]).
Qed.

Lemma handleClear_eq c sent :
  handleClear c sent
  = match checkElasticsearchHealth c sent with
    | (Ok true, st) =>
        (Ok match reply_of c st (delete_all_request c) with
            | Ok j =>
                createSuccessResponse
                  {| cleared_message := "All documents deleted";
                     cleared_deleted := default 0%Q (json_deleted j);
                     cleared_took := default 0%Q (json_took j) |}
            | Throw _ => createErrorResponse "Failed to delete documents" 500
            end,
         st ++ [delete_all_request c])
    | (Ok false, st) =>
        (Ok (createErrorResponse "Search service is currently unavailable"
               503), st)
    | (Throw _, st) =>
        (Ok (createErrorResponse "Failed to delete documents" 500), st)
    end.
Proof.
  unfold handleClear, try_catch. unfold bind at 1.
  destruct (checkElasticsearchHealth c sent) as [[[|]|e] st]; cbn [negb];
    [|reflexivity..].
  unfold deleteAllDocumentsFromIndex, try_catch, bind, ret, throw.
  rewrite request_eq. fold (delete_all_request c).
  now destruct (reply_of c st (delete_all_request c)).
Qed.

(** X23: the clearing handler never throws, and it deletes only behind a
    passed health check: either the check fails, the status is 503 and no
    delete request is sent; or the delete request is sent once, as the last
    request and right after a count that succeeded, and the status is 200
    with the numbers of the reply, 0 for a missing one, or 500 when the
    delete request failed. *)
Theorem handleClear_deletes_behind_health_check c sent :
  exists response checks,
    Forall (fun r => verb r = HttpGet \/ verb r = HttpPut) checks
    /\ ((handleClear c sent = (Ok response, sent ++ checks)
         /\ response
            = createErrorResponse "Search service is currently unavailable"
                503)
        \/ (handleClear c sent
            = (Ok response, sent ++ checks ++ [delete_all_request c])
            /\ (exists before,
                  checks = before ++ [count_request c]
                  /\ succeeds c (sent ++ before) (count_request c))
            /\ response
               = match reply_of c (sent ++ checks) (delete_all_request c) with
                 | Ok j =>
                     createSuccessResponse
                       {| cleared_message := "All documents deleted";
                          cleared_deleted := default 0%Q (json_deleted j);
                          cleared_took := default 0%Q (json_took j) |}
                 | Throw _ =>
                     createErrorResponse "Failed to delete documents" 500
                 end)).
Proof.
  rewrite handleClear_eq.
  health_runs c sent;
    rewrite <- ?app_assoc; cbn [app];
    first
      [ (* the check has failed *)
        eexists _, _; split; [|left; split; reflexivity]; verbs
      | (* the check has passed: the delete request follows the count *)
        match goal with
        | |- context [reply_of c (sent ++ ?checks) (delete_all_request c)] =>
            exists (match reply_of c (sent ++ checks)
                            (delete_all_request c) with
                    | Ok j =>
                        createSuccessResponse
                          {| cleared_message := "All documents deleted";
                             cleared_deleted := default 0%Q (json_deleted j);
                             cleared_took := default 0%Q (json_took j) |}
                    | Throw _ =>
                        createErrorResponse "Failed to delete documents" 500
                    end), checks;
            split; [verbs|]; right; split; [reflexivity|];
            split; [|reflexivity];
            exists (removelast checks); split; [reflexivity|];
            cbn [removelast]; rewrite ?app_nil_r; eexists; eassumption
        end ].
Qed.

Lemma chars_app a b : chars (a +:+ b) = chars a ++ chars b.
Proof.
  induction a as [|x a IH]; [reflexivity|].
  change (x :: chars (a +:+ b) = x :: (chars a ++ chars b)). now f_equal.
Qed.

Lemma includes_chars_r needle a b :
  includes_chars needle b = true -> includes_chars needle (a ++ b) = true.
Proof.
  intros Hb. induction a as [|x a IH]; [exact Hb|].
  cbn [app includes_chars]. rewrite IH. apply orb_true_r.
Qed.

Lemma is_prefix_app needle : forall a b,
  is_prefix needle a = true -> is_prefix needle (a ++ b) = true.
Proof.
  induction needle as [|n needle IH]; intros a b H; [reflexivity|].
  destruct a as [|x a]; [discriminate|]. cbn [app is_prefix] in *.
  apply andb_true_iff in H as [-> H]. now apply IH.
Qed.

Lemma includes_chars_l needle a b :
  includes_chars needle a = true -> includes_chars needle (a ++ b) = true.
Proof.
  induction a as [|x a IH]; intros Ha.
  - destruct needle; [now destruct b|discriminate].
  - cbn [includes_chars] in Ha. apply orb_true_iff in Ha as [Ha|Ha].
    + change ((x :: a) ++ b) with (x :: (a ++ b)). cbn [includes_chars].
      change (x :: (a ++ b)) with ((x :: a) ++ b).
      now rewrite (is_prefix_app needle (x :: a) b Ha).
    + change ((x :: a) ++ b) with (x :: (a ++ b)). cbn [includes_chars].
      rewrite (IH Ha). apply orb_true_r.
Qed.

Lemma includes_app_l a b needle :
  includes a needle = true -> includes (a +:+ b) needle = true.
Proof. unfold includes. rewrite chars_app. apply includes_chars_l. Qed.

Lemma includes_app_r a b needle :
  includes b needle = true -> includes (a +:+ b) needle = true.
Proof. unfold includes. rewrite chars_app. apply includes_chars_r. Qed.

(** X24: a document is reported as absent, with [null] and without an
    exception, whenever the request fails with a message that holds 404:
    not only for a reply with status 404, but for every failing reply whose
    text holds these digits and for every rejected request whose message
    does. *)
Theorem getDocumentById_reports_absence c id sent :
  mentions_404 (cluster_fetch c sent (document_request c id)) ->
  getDocumentById c id sent = (Ok Null, sent ++ [document_request c id]).
Proof.
  intros Hfail. unfold getDocumentById, try_catch, bind, ret, throw.
  rewrite request_eq. fold (document_request c id). unfold reply_of.
  unfold mentions_404 in Hfail.
  destruct (cluster_fetch c sent (document_request c id)) as [e|response].
  - now rewrite Hfail.
  - destruct Hfail as [Hok Hcase]. rewrite Hok. cbn [negb].
    assert (H404 : includes ("Elasticsearch request failed: "
                             +:+ nat_to_string (status response) +:+ " - "
                             +:+ body_text response) "404" = true).
    { apply includes_app_r. destruct Hcase as [Hs|Ht].
      - apply includes_app_l. rewrite Hs. reflexivity.
      - now apply includes_app_r, includes_app_r. }
    now rewrite H404.
Qed.

Lemma getDocumentById_reports_absence_witness :
  getDocumentById failing_shard "doc-1" []
  = (Ok Null, [] ++ [document_request failing_shard "doc-1"]).
Proof.
  apply (getDocumentById_reports_absence failing_shard "doc-1" []).
  split; [reflexivity|]. right. reflexivity.
Defined.

End MaintenanceFacts.

(** ** The search hint *)

Lemma lower_upper_char c : lower_char (upper_char c) = lower_char c.
Proof. destruct c as [[] [] [] [] [] [] [] []]; reflexivity. Qed.

Lemma lower_lower_char c : lower_char (lower_char c) = lower_char c.
Proof. destruct c as [[] [] [] [] [] [] [] []]; reflexivity. Qed.

Lemma toLowerCase_toUpperCase s : toLowerCase (toUpperCase s) = toLowerCase s.
Proof.
  unfold toLowerCase, toUpperCase. rewrite chars_str, map_map. f_equal.
  apply map_ext. intros c. apply lower_upper_char.
Qed.

Lemma toLowerCase_idem s : toLowerCase (toLowerCase s) = toLowerCase s.
Proof.
  unfold toLowerCase. rewrite chars_str, map_map. f_equal.
  apply map_ext. intros c. apply lower_lower_char.
Qed.

(** X25: the search hint that is returned with an answer does not depend
    on the case of the letters (A to Z) of the question. *)
Theorem expandUserQuery_ignores_case q :
  expandUserQuery (toUpperCase q) = expandUserQuery q
  /\ expandUserQuery (toLowerCase q) = expandUserQuery q.
Proof.
  unfold expandUserQuery. cbv zeta.
  now rewrite toLowerCase_toUpperCase, toLowerCase_idem.
Qed.
